(** * alma-sails-codebase: a shallow embedding of the pipeline state code

    The Python sources are modelled as follows.
    - A Python [str] is a list of Unicode code points ([pystr]); literals
      are written [py "..."].
    - Exceptions are the constructors of [exn]; a function that may raise
      returns a [res].
    - The SQLite store is a list of rows per table; flows thread a world
      (the store plus the log of effects) through a state and error monad. *)

From Stdlib Require Import String Ascii List ZArith Bool Lia Sorted.
Import ListNotations.
Open Scope Z_scope.
Open Scope list_scope.
Set Warnings "-register-all".

(* ================================================================== *)
(** ** Python strings and exceptions *)
(* ================================================================== *)

Module PyStr.

Definition pystr := list Z.

(** A string literal of the source (ASCII) as a Python [str]. *)
Definition py (s : string) : pystr :=
  map (fun a => Z.of_nat (nat_of_ascii a)) (list_ascii_of_string s).

Definition str_eqb (a b : pystr) : bool :=
  if list_eq_dec Z.eq_dec a b then true else false.

(** [s.startswith(p)] *)
Fixpoint startswith (s p : pystr) {struct p} : bool :=
  match p, s with
  | [], _ => true
  | c :: p', d :: s' => Z.eqb c d && startswith s' p'
  | _ :: _, [] => false
  end.

(** [s.endswith(p)] *)
Definition endswith (s p : pystr) : bool := startswith (rev s) (rev p).

(** [p in s] for strings (substring test). *)
Fixpoint contains (s p : pystr) : bool :=
  match s with
  | [] => startswith [] p
  | _ :: r => startswith s p || contains r p
  end.

(** [str.isspace] on one code point: the characters of the Unicode
    categories Zs, B and S (CPython's [_PyUnicode_IsWhitespace]). *)
Definition is_space (c : Z) : bool :=
  ((9 <=? c) && (c <=? 13)) || ((28 <=? c) && (c <=? 32)) || (c =? 133)
  || (c =? 160) || (c =? 5760) || ((8192 <=? c) && (c <=? 8202))
  || (c =? 8232) || (c =? 8233) || (c =? 8239) || (c =? 8287)
  || (c =? 12288).

Fixpoint lstrip (s : pystr) : pystr :=
  match s with
  | c :: r => if is_space c then lstrip r else s
  | [] => []
  end.

Definition rstrip (s : pystr) : pystr := rev (lstrip (rev s)).

(** [s.strip()] *)
Definition strip (s : pystr) : pystr := rstrip (lstrip s).

(** [s.replace(old, new)]: left-to-right, non-overlapping.  [skip] counts
    the characters of a match still to be consumed. *)
Fixpoint replace_go (old new : pystr) (skip : nat) (s : pystr) : pystr :=
  match s with
  | [] => []
  | c :: r =>
      match skip with
      | S k => replace_go old new k r
      | O => if startswith s old
             then new ++ replace_go old new (pred (List.length old)) r
             else c :: replace_go old new O r
      end
  end.

Definition replace (old new s : pystr) : pystr :=
  match old with
  | [] => new ++ concat (map (fun c => c :: new) s)
  | _ => replace_go old new O s
  end.

(** [s.split(sep)] for a non-empty [sep]; [cur] is the reversed chunk. *)
Fixpoint split_go (sep : pystr) (skip : nat) (cur : pystr) (s : pystr)
  : list pystr :=
  match s with
  | [] => [rev cur]
  | c :: r =>
      match skip with
      | S k => split_go sep k cur r
      | O => if startswith s sep
             then rev cur :: split_go sep (pred (List.length sep)) [] r
             else split_go sep O (c :: cur) r
      end
  end.

Definition split (sep s : pystr) : list pystr := split_go sep O [] s.

(** [sep.join(parts)] *)
Fixpoint join (sep : pystr) (parts : list pystr) : pystr :=
  match parts with
  | [] => []
  | [p] => p
  | p :: ps => p ++ sep ++ join sep ps
  end.

(** [str(n)] for an integer. *)
Fixpoint digits_of_pos (fuel : nat) (n : Z) (acc : pystr) : pystr :=
  match fuel with
  | O => acc
  | S f => if n <? 10 then (48 + n) :: acc
           else digits_of_pos f (n / 10) ((48 + n mod 10) :: acc)
  end.

Definition str_of_int (n : Z) : pystr :=
  if n <? 0 then 45 :: digits_of_pos (Z.to_nat (Z.log2 (- n) + 1)) (- n) []
  else digits_of_pos (Z.to_nat (Z.log2 n + 1)) n [].

(** ASCII letters folded to lower case (what SQLite and [sqlite3.Row] use
    to compare names). *)
Definition lower_ascii (c : Z) : Z :=
  if (65 <=? c) && (c <=? 90) then c + 32 else c.

Definition eq_ignore_case (a b : pystr) : bool :=
  str_eqb (map lower_ascii a) (map lower_ascii b).

(** No two consecutive underscores. *)
Fixpoint no_uu (s : pystr) : bool :=
  match s with
  | [] => true
  | x :: r =>
      negb ((x =? 95) && match r with y :: _ => y =? 95 | [] => false end)
      && no_uu r
  end.

End PyStr.

Import PyStr.

(** Python exceptions raised by the modelled code. *)
Inductive exn : Type :=
| ValueError (msg : pystr)
| TypeError (msg : pystr)
| RuntimeError (msg : pystr)
| KeyError (key : pystr)
| IndexError (msg : pystr)
| AttributeError (msg : pystr)
| JSONDecodeError (msg : pystr)
| OperationalError (msg : pystr)
| ProgrammingError (msg : pystr)
| OverflowError (msg : pystr)
| UnicodeEncodeError (msg : pystr)
| RecursionError (msg : pystr)
| OSError (msg : pystr).

(** The outcome of a Python call: a value or a raised exception. *)
Inductive res (A : Type) : Type :=
| Ok (a : A)
| Err (e : exn).
Arguments Ok {A} a.
Arguments Err {A} e.

Definition res_bind {A B} (r : res A) (f : A -> res B) : res B :=
  match r with Ok a => f a | Err e => Err e end.

Notation "'let?' x ':=' r 'in' k" := (res_bind r (fun x => k))
  (at level 200, x name, r at level 100, k at level 200).

(* ================================================================== *)
(** ** alma_ops/utils.py: MOUS ID conversion *)
(* ================================================================== *)

Module Utils.

(** [to_db_mous_id] (utils.py, lines 8-43). *)
Definition to_db_mous_id (mous_id0 : pystr) : res pystr :=
  let mous_id := strip mous_id0 in
  if startswith mous_id (py "uid://") then Ok mous_id
  else if startswith mous_id (py "uid___") then
    let core := replace (py "uid___") (py "") mous_id in
    match split (py "_") core with
    | [p0; p1; p2] => Ok (py "uid://" ++ p0 ++ py "/" ++ p1 ++ py "/" ++ p2)
    | _ => Err (ValueError (py "Invalid uid___ format: " ++ mous_id))
    end
  else Err (ValueError (py "Cannot interpret MOUS ID: " ++ mous_id)).

(** [to_dir_mous_id] (utils.py, lines 46-81). *)
Definition to_dir_mous_id (mous_id0 : pystr) : res pystr :=
  let mous_id := strip mous_id0 in
  if startswith mous_id (py "uid___") then Ok mous_id
  else if startswith mous_id (py "uid://") then
    let core := replace (py "uid://") (py "") mous_id in
    let parts := split (py "/") core in
    if Nat.eqb (List.length parts) 3 then Ok (py "uid___" ++ join (py "_") parts)
    else Err (ValueError (py "Invalid uid:// format: " ++ mous_id))
  else Err (ValueError (py "Cannot interpret MOUS ID: " ++ mous_id)).

(** An ALMA UID component: non-empty, ASCII letters and digits. *)
Definition is_alnum (c : Z) : bool :=
  ((48 <=? c) && (c <=? 57)) || ((65 <=? c) && (c <=? 90))
  || ((97 <=? c) && (c <=? 122)).

Definition valid_part (p : pystr) : bool :=
  negb (Nat.eqb (List.length p) 0) && forallb is_alnum p.

(** The database form [uid://a/b/c] and the directory form [uid___a_b_c]. *)
Definition db_form (a b c : pystr) : pystr :=
  py "uid://" ++ a ++ py "/" ++ b ++ py "/" ++ c.

Definition dir_form (a b c : pystr) : pystr :=
  py "uid___" ++ a ++ py "_" ++ b ++ py "_" ++ c.

End Utils.

(* ================================================================== *)
(** ** Python floats (IEEE 754 binary64) *)
(* ================================================================== *)

Module PyFloat.

(** [FFin neg m e] is the double [(-1)^neg * m * 2^e], with [m < 2^53],
    [-1074 <= e <= 971], and [m >= 2^52] unless [e = -1074]. *)
Inductive pyfloat : Type :=
| FFin (neg : bool) (m : Z) (e : Z)
| FInf (neg : bool)
| FNaN.

(** [p / q] rounded to the nearest integer, ties to even ([p >= 0], [q > 0]). *)
Definition round_div (p q : Z) : Z :=
  let d := p / q in
  let r := p mod q in
  if 2 * r <? q then d
  else if q <? 2 * r then d + 1
  else if Z.even d then d else d + 1.

(** [p / q >= 2^j] *)
Definition ge_pow2 (p q j : Z) : bool :=
  if 0 <=? j then q * 2 ^ j <=? p else q <=? p * 2 ^ (- j).

(** The double nearest to [p / q] ([p > 0], [q > 0]), CPython's correctly
    rounded [float()] of a decimal. *)
Definition float_of_ratio (neg : bool) (p q : Z) : pyfloat :=
  let j := Z.log2 p - Z.log2 q in
  let k := if ge_pow2 p q j then j else j - 1 in
  let e := Z.max (k - 52) (-1074) in
  let m := if 0 <=? e then round_div p (q * 2 ^ e) else round_div (p * 2 ^ (- e)) q in
  let '(m, e) := if m =? 2 ^ 53 then (2 ^ 52, e + 1) else (m, e) in
  if 971 <? e then FInf neg else FFin neg m e.

(** [float(s)] for the decimal [(-1)^neg * n * 10^e10]. *)
Definition float_of_decimal (neg : bool) (n e10 : Z) : pyfloat :=
  if n =? 0 then FFin neg 0 (-1074)
  else if 0 <=? e10 then float_of_ratio neg (n * 10 ^ e10) 1
  else float_of_ratio neg n (10 ^ (- e10)).

Definition float_eqb (x y : pyfloat) : bool :=
  match x, y with
  | FFin n1 m1 e1, FFin n2 m2 e2 => Bool.eqb n1 n2 && (m1 =? m2) && (e1 =? e2)
  | FInf n1, FInf n2 => Bool.eqb n1 n2
  | FNaN, FNaN => true
  | _, _ => false
  end.

(** The decimal exponent of the leading digit of [p / q]: the [x] with
    [10^x <= p / q < 10^(x+1)], from an estimate through [log2]. *)
Definition ge_pow10 (p q x : Z) : bool :=
  if 0 <=? x then q * 10 ^ x <=? p else q <=? p * 10 ^ (- x).

Fixpoint fix_exp10 (fuel : nat) (p q x : Z) : Z :=
  match fuel with
  | O => x
  | S f =>
      if negb (ge_pow10 p q x) then fix_exp10 f p q (x - 1)
      else if ge_pow10 p q (x + 1) then fix_exp10 f p q (x + 1)
      else x
  end.

Definition exp10 (p q : Z) : Z :=
  fix_exp10 8 p q (((Z.log2 p - Z.log2 q) * 30103) / 100000).

(** The [d] significant digits of [p / q] (leading exponent [x]) rounded
    down, and whether the rounding was exact. *)
Definition digits_at (p q x : Z) (d : Z) : Z * bool :=
  let s := x - d + 1 in
  let '(num, den) := if 0 <=? s then (p, q * 10 ^ s) else (p * 10 ^ (- s), q) in
  (num / den, num mod den =? 0).

(** Shortest round-tripping digits of [p / q] (the nearer candidate when
    both round-trip, the even one on a tie), as in [repr]: the digit
    integer [D] and the exponent [s] with value [D * 10^s]. *)
Fixpoint shortest_go (fuel : nat) (d : Z) (v : pyfloat) (p q x : Z) : Z * Z :=
  match fuel with
  | O => let '(lo, _) := digits_at p q x 17 in (lo, x - 16)
  | S f =>
      let s := x - d + 1 in
      let '(lo, exact) := digits_at p q x d in
      let hi := lo + 1 in
      let ok_lo := float_eqb (float_of_decimal false lo s) v in
      let ok_hi := negb exact && float_eqb (float_of_decimal false hi s) v in
      if exact && ok_lo then (lo, s)
      else if ok_lo && ok_hi then
        (* compare the distances to p/q: 2 p/q - (lo + hi) 10^s *)
        let (num, den) := if 0 <=? s then (2 * p, q * 10 ^ s) else (2 * p * 10 ^ (- s), q) in
        let c := Z.compare num ((lo + hi) * den) in
        match c with
        | Lt => (lo, s)
        | Gt => (hi, s)
        | Eq => if Z.even lo then (lo, s) else (hi, s)
        end
      else if ok_lo then (lo, s)
      else if ok_hi then (hi, s)
      else shortest_go f (d + 1) v p q x
  end.

(** Digits of a positive integer, most significant first. *)
Definition digit_list (n : Z) : pystr := str_of_int n.

Fixpoint strip_trailing_zeros_rev (ds : pystr) : pystr :=
  match ds with
  | 48 :: r => strip_trailing_zeros_rev r
  | _ => ds
  end.

Definition repeat_char (c : Z) (n : Z) : pystr := List.repeat c (Z.to_nat n).

(** [float.__repr__]: CPython's [format_float_short] with mode ['r'] and
    [Py_DTSF_ADD_DOT_0]. *)
Definition float_repr (x : pyfloat) : pystr :=
  match x with
  | FNaN => py "nan"
  | FInf neg => (if neg then py "-" else []) ++ py "inf"
  | FFin neg m e =>
      let sign := if neg then py "-" else [] in
      if m =? 0 then sign ++ py "0.0" else
      let '(p, q) := if 0 <=? e then (m * 2 ^ e, 1) else (m, 2 ^ (- e)) in
      let x10 := exp10 p q in
      let '(dd, s10) := shortest_go 17 1 (FFin false m e) p q x10 in
      let ds := rev (strip_trailing_zeros_rev (rev (digit_list dd))) in
      let nd := Z.of_nat (List.length ds) in
      let decpt := Z.of_nat (List.length (digit_list dd)) + s10 in
      sign ++
      (if (decpt <=? -4) || (16 <? decpt) then
         let ex := decpt - 1 in
         firstn 1 ds ++ (if 1 <? nd then py "." ++ skipn 1 ds else [])
         ++ py "e" ++ (if ex <? 0 then py "-" else py "+")
         ++ (if Z.abs ex <? 10 then py "0" else []) ++ str_of_int (Z.abs ex)
       else if decpt <=? 0 then
         py "0." ++ repeat_char 48 (- decpt) ++ ds
       else if decpt <? nd then
         firstn (Z.to_nat decpt) ds ++ py "." ++ skipn (Z.to_nat decpt) ds
       else ds ++ repeat_char 48 (decpt - nd) ++ py ".0")
  end.

End PyFloat.

(* ================================================================== *)
(** ** Python values and [json.dumps] *)
(* ================================================================== *)

Module PyVal.
Import PyFloat.

(** The Python values the modelled code handles: [None], [bool], [int],
    [float], [str], [list] and [dict] (an association list in insertion
    order with distinct keys). *)
Inductive pyval : Type :=
| PNone
| PBool (b : bool)
| PInt (n : Z)
| PFloat (f : pyfloat)
| PStr (s : pystr)
| PList (xs : list pyval)
| PDict (kvs : list (pyval * pyval)).

Definition type_name (v : pyval) : pystr :=
  match v with
  | PNone => py "NoneType" | PBool _ => py "bool" | PInt _ => py "int"
  | PFloat _ => py "float" | PStr _ => py "str" | PList _ => py "list"
  | PDict _ => py "dict"
  end.

(** [bool(v)] *)
Definition truthy (v : pyval) : bool :=
  match v with
  | PNone => false
  | PBool b => b
  | PInt n => negb (n =? 0)
  | PFloat (FFin _ m _) => negb (m =? 0)
  | PFloat _ => true
  | PStr s => negb (Nat.eqb (List.length s) 0)
  | PList xs => negb (Nat.eqb (List.length xs) 0)
  | PDict kvs => negb (Nat.eqb (List.length kvs) 0)
  end.

(** [d[k] = v] with key equality [eqb]: an existing key keeps its place. *)
Fixpoint dict_set {K V} (eqb : K -> K -> bool) (k : K) (v : V) (d : list (K * V))
  : list (K * V) :=
  match d with
  | [] => [(k, v)]
  | (k', v') :: r => if eqb k' k then (k', v) :: r else (k', v') :: dict_set eqb k v r
  end.

Fixpoint dict_get {K V} (eqb : K -> K -> bool) (k : K) (d : list (K * V)) : option V :=
  match d with
  | [] => None
  | (k', v') :: r => if eqb k' k then Some v' else dict_get eqb k r
  end.

(** Decimal digit count of an integer (without the sign). *)
Definition num_digits (n : Z) : nat := List.length (str_of_int (Z.abs n)).

Definition max_str_digits : nat := 4300.

(** [int.__repr__], with CPython's limit on the digits converted. *)
Definition int_repr (n : Z) : res pystr :=
  if Nat.ltb max_str_digits (num_digits n)
  then Err (ValueError (py "Exceeds the limit (4300 digits) for integer string conversion; use sys.set_int_max_str_digits() to increase the limit"))
  else Ok (str_of_int n).

Definition hex_digit (n : Z) : Z := if n <? 10 then 48 + n else 87 + n.

Definition hex4 (n : Z) : pystr :=
  [hex_digit (n / 4096 mod 16); hex_digit (n / 256 mod 16);
   hex_digit (n / 16 mod 16); hex_digit (n mod 16)].

(** One code point as [json.encoder]'s [ensure_ascii] output writes it. *)
Definition ascii_escape_char (c : Z) : pystr :=
  if c =? 92 then [92; 92]
  else if c =? 34 then [92; 34]
  else if (32 <=? c) && (c <=? 126) then [c]
  else if c =? 8 then [92; 98]
  else if c =? 12 then [92; 102]
  else if c =? 10 then [92; 110]
  else if c =? 13 then [92; 114]
  else if c =? 9 then [92; 116]
  else if c <? 65536 then 92 :: 117 :: hex4 c
  else let v := c - 65536 in
       (92 :: 117 :: hex4 (55296 + v / 1024)) ++ (92 :: 117 :: hex4 (56320 + v mod 1024)).

Definition encode_basestring_ascii (s : pystr) : pystr :=
  [34] ++ concat (map ascii_escape_char s) ++ [34].

(** [json.encoder]'s [floatstr] with [allow_nan=True]. *)
Definition floatstr (f : pyfloat) : pystr :=
  match f with
  | FNaN => py "NaN"
  | FInf false => py "Infinity"
  | FInf true => py "-Infinity"
  | _ => float_repr f
  end.

Fixpoint map_res {A B} (f : A -> res B) (xs : list A) : res (list B) :=
  match xs with
  | [] => Ok []
  | x :: r => let? y := f x in let? ys := map_res f r in Ok (y :: ys)
  end.

(** A dict key as the encoder writes it. *)
Definition encode_key (k : pyval) : res pystr :=
  match k with
  | PStr s => Ok s
  | PFloat f => Ok (floatstr f)
  | PBool true => Ok (py "true")
  | PBool false => Ok (py "false")
  | PNone => Ok (py "null")
  | PInt n => int_repr n
  | _ => Err (TypeError (py "keys must be str, int, float, bool or None, not " ++ type_name k))
  end.

(** [json.dumps(v)] with the default arguments (C encoder: separators
    [", "] and [": "], [ensure_ascii], [allow_nan], no sorting). *)
Fixpoint json_dumps (v : pyval) : res pystr :=
  match v with
  | PNone => Ok (py "null")
  | PBool true => Ok (py "true")
  | PBool false => Ok (py "false")
  | PInt n => int_repr n
  | PFloat f => Ok (floatstr f)
  | PStr s => Ok (encode_basestring_ascii s)
  | PList xs =>
      let? parts := map_res json_dumps xs in
      Ok ([91] ++ join (py ", ") parts ++ [93])
  | PDict kvs =>
      let? parts := map_res (fun kv =>
                       let? k := encode_key (fst kv) in
                       let? v := json_dumps (snd kv) in
                       Ok (encode_basestring_ascii k ++ py ": " ++ v)) kvs in
      Ok ([123] ++ join (py ", ") parts ++ [125])
  end.

End PyVal.

(* ================================================================== *)
(** ** [json.loads] (CPython 3.11, C scanner [_json.c]) *)
(* ================================================================== *)

Module Json.
Import PyFloat PyVal.

(** The scanner's outcome: a value with the index and rest after it, a
    [StopIteration(idx)] (no value starts at [idx]), or an exception. *)
Inductive sres (A : Type) : Type :=
| SOk (a : A)
| SStop (idx : nat)
| SRaise (e : exn).
Arguments SOk {A} a.
Arguments SStop {A} idx.
Arguments SRaise {A} e.

Definition sbind {A B} (r : sres A) (f : A -> sres B) : sres B :=
  match r with SOk a => f a | SStop i => SStop i | SRaise e => SRaise e end.

Notation "'let!' x ':=' r 'in' k" := (sbind r (fun x => k))
  (at level 200, x pattern, r at level 100, k at level 200).

(** [WHITESPACE = r'[ \t\n\r]*'] *)
Definition is_ws (c : Z) : bool := (c =? 32) || (c =? 9) || (c =? 10) || (c =? 13).

Fixpoint skip_ws (i : nat) (r : pystr) : nat * pystr :=
  match r with
  | c :: r' => if is_ws c then skip_ws (S i) r' else (i, r)
  | [] => (i, [])
  end.

Fixpoint rfind_nl (i : Z) (s : pystr) (acc : Z) : Z :=
  match s with
  | [] => acc
  | c :: r => rfind_nl (i + 1) r (if c =? 10 then i else acc)
  end.

(** [JSONDecodeError(msg, doc, pos)]: ["%s: line %d column %d (char %d)"]. *)
Definition decode_error (msg doc : pystr) (pos : nat) : exn :=
  let pre := firstn pos doc in
  let lineno := Z.of_nat (List.length (filter (Z.eqb 10) pre)) + 1 in
  let colno := Z.of_nat pos - rfind_nl 0 pre (-1) in
  JSONDecodeError (msg ++ py ": line " ++ str_of_int lineno ++ py " column "
                   ++ str_of_int colno ++ py " (char " ++ str_of_int (Z.of_nat pos) ++ py ")").

Definition is_digit (c : Z) : bool := (48 <=? c) && (c <=? 57).

Definition hex_val (c : Z) : option Z :=
  if is_digit c then Some (c - 48)
  else if (97 <=? c) && (c <=? 102) then Some (c - 87)
  else if (65 <=? c) && (c <=? 70) then Some (c - 55)
  else None.

Definition hex4_val (a b c d : Z) : option Z :=
  match hex_val a, hex_val b, hex_val c, hex_val d with
  | Some w, Some x, Some y, Some z => Some (((w * 16 + x) * 16 + y) * 16 + z)
  | _, _, _, _ => None
  end.

Definition is_high_surrogate (c : Z) : bool := (55296 <=? c) && (c <=? 56319).
Definition is_low_surrogate (c : Z) : bool := (56320 <=? c) && (c <=? 57343).

Definition simple_escape (c : Z) : option Z :=
  if c =? 34 then Some 34 else if c =? 92 then Some 92 else if c =? 47 then Some 47
  else if c =? 98 then Some 8 else if c =? 102 then Some 12
  else if c =? 110 then Some 10 else if c =? 114 then Some 13
  else if c =? 116 then Some 9 else None.

(** [scanstring_unicode] with [strict=True]: [begin] is the index of the
    opening quote; [i] the index of the first character of [r]; [acc] the
    characters decoded so far, reversed. *)
Fixpoint scanstring_go (doc : pystr) (begin : nat) (i : nat) (r acc : pystr)
  {struct r} : sres (pystr * nat * pystr) :=
  let unterminated := SRaise (decode_error (py "Unterminated string starting at") doc begin) in
  let bad_u (at_ : nat) := SRaise (decode_error (py "Invalid \uXXXX escape") doc at_) in
  match r with
  | [] => unterminated
  | c :: r1 =>
      if c =? 34 then SOk (rev acc, S i, r1)
      else if c =? 92 then
        match r1 with
        | [] => unterminated
        | e :: r2 =>
            if e =? 117 then
              if Nat.leb (List.length r2) 4 then bad_u (S i) else
              match r2 with
              | h1 :: h2 :: h3 :: h4 :: r3 =>
                  match hex4_val h1 h2 h3 h4 with
                  | None => bad_u (S i)
                  | Some cp =>
                      if is_high_surrogate cp && Nat.ltb 6 (List.length r3) then
                        match r3 with
                        | 92 :: 117 :: g1 :: g2 :: g3 :: g4 :: r5 =>
                            match hex4_val g1 g2 g3 g4 with
                            | None => bad_u (i + 7)%nat
                            | Some c2 =>
                                if is_low_surrogate c2 then
                                  scanstring_go doc begin (i + 12)%nat r5
                                    ((65536 + (cp - 55296) * 1024 + (c2 - 56320)) :: acc)
                                else scanstring_go doc begin (i + 6)%nat r3 (cp :: acc)
                            end
                        | _ => scanstring_go doc begin (i + 6)%nat r3 (cp :: acc)
                        end
                      else scanstring_go doc begin (i + 6)%nat r3 (cp :: acc)
                  end
              | _ => bad_u (S i)
              end
            else
              match simple_escape e with
              | Some c' => scanstring_go doc begin (S (S i)) r2 (c' :: acc)
              | None => SRaise (decode_error (py "Invalid \escape") doc i)
              end
        end
      else if c <=? 31 then SRaise (decode_error (py "Invalid control character at") doc i)
      else scanstring_go doc begin (S i) r1 (c :: acc)
  end.

Fixpoint span_digits (r : pystr) : pystr * pystr :=
  match r with
  | c :: r' => if is_digit c then let '(ds, rest) := span_digits r' in (c :: ds, rest) else ([], r)
  | [] => ([], [])
  end.

Definition digits_value (ds : pystr) : Z := fold_left (fun acc d => acc * 10 + (d - 48)) ds 0.
(** [_match_number_unicode]: [r] starts at index [i]. *)
Definition match_number (i : nat) (r : pystr) : sres (pyval * nat * pystr) :=
  let '(neg, r1) := match r with 45 :: r' => (true, r') | _ => (false, r) end in
  let int_part :=
    match r1 with
    | c :: r1' =>
        if (49 <=? c) && (c <=? 57) then let '(ds, rest) := span_digits r1' in Some (c :: ds, rest)
        else if c =? 48 then Some ([48], r1')
        else None
    | [] => None
    end in
  match int_part with
  | None => SStop i
  | Some (ids, r2) =>
      let '(fds, r3) :=
        match r2 with
        | 46 :: d :: r2' => if is_digit d then let '(ds, rest) := span_digits r2' in (d :: ds, rest)
                            else ([], r2)
        | _ => ([], r2)
        end in
      let '(exp, r4) :=
        match r3 with
        | e :: x :: r3' =>
            if (e =? 101) || (e =? 69) then
              if ((x =? 45) || (x =? 43)) && negb (Nat.eqb (List.length r3') 0) then
                let '(eds, rest) := span_digits r3' in
                if Nat.eqb (List.length eds) 0 then (None, r3)
                else (Some (if x =? 45 then - digits_value eds else digits_value eds), rest)
              else
                let '(eds, rest) := span_digits (x :: r3') in
                if Nat.eqb (List.length eds) 0 then (None, r3) else (Some (digits_value eds), rest)
            else (None, r3)
        | _ => (None, r3)
        end in
      let used := (List.length r - List.length r4)%nat in
      let j := (i + used)%nat in
      let is_float := negb (Nat.eqb (List.length fds) 0) || match exp with Some _ => true | None => false end in
      if is_float then
        let e10 := match exp with Some x => x | None => 0 end - Z.of_nat (List.length fds) in
        SOk (PFloat (float_of_decimal neg (digits_value (ids ++ fds)) e10), j, r4)
      else if Nat.ltb max_str_digits (List.length ids) then
        SRaise (ValueError (py "Exceeds the limit (4300 digits) for integer string conversion: value has "
                            ++ str_of_int (Z.of_nat (List.length ids))
                            ++ py " digits; use sys.set_int_max_str_digits() to increase the limit"))
      else
        let n := digits_value ids in SOk (PInt (if neg then - n else n), j, r4)
  end.

Definition str_key_eqb (a b : pyval) : bool :=
  match a, b with PStr x, PStr y => str_eqb x y | _, _ => false end.

Section Scanner.
(** The number of nested containers the interpreter's recursion budget
    admits ([Py_EnterRecursiveCall] on each [{] and [[]). *)
Variable rec_limit : nat.
Variable doc : pystr.

(** [scan_once_unicode] and the item loops of [_parse_array_unicode] and
    [_parse_object_unicode].  [depth] counts the enclosing containers.
    The fuel [2 * |doc| + 1] is never exhausted: each call on a container
    or an item consumes a character first. *)
Fixpoint scan_once (fuel : nat) (depth : nat) (i : nat) (r : pystr)
  : sres (pyval * nat * pystr) :=
  match fuel with
  | O => SStop i
  | S f =>
      match r with
      | [] => SStop i
      | 34 :: r' => let! (s, j, r'') := scanstring_go doc i (S i) r' [] in SOk (PStr s, j, r'')
      | 123 :: r' =>
          if Nat.leb rec_limit depth then
            SRaise (RecursionError (py "maximum recursion depth exceeded while decoding a JSON object from a unicode string"))
          else
            let '(j, r1) := skip_ws (S i) r' in
            match r1 with
            | 125 :: r2 => SOk (PDict [], S j, r2)
            | _ => object_items f (S depth) j r1 []
            end
      | 91 :: r' =>
          if Nat.leb rec_limit depth then
            SRaise (RecursionError (py "maximum recursion depth exceeded while decoding a JSON array from a unicode string"))
          else
            let '(j, r1) := skip_ws (S i) r' in
            match r1 with
            | 93 :: r2 => SOk (PList [], S j, r2)
            | _ => array_items f (S depth) j r1 []
            end
      | 110 :: 117 :: 108 :: 108 :: r' => SOk (PNone, (i + 4)%nat, r')
      | 116 :: 114 :: 117 :: 101 :: r' => SOk (PBool true, (i + 4)%nat, r')
      | 102 :: 97 :: 108 :: 115 :: 101 :: r' => SOk (PBool false, (i + 5)%nat, r')
      | 78 :: 97 :: 78 :: r' => SOk (PFloat FNaN, (i + 3)%nat, r')
      | 73 :: 110 :: 102 :: 105 :: 110 :: 105 :: 116 :: 121 :: r' =>
          SOk (PFloat (FInf false), (i + 8)%nat, r')
      | 45 :: 73 :: 110 :: 102 :: 105 :: 110 :: 105 :: 116 :: 121 :: r' =>
          SOk (PFloat (FInf true), (i + 9)%nat, r')
      | _ => match_number i r
      end
  end
with array_items (fuel : nat) (depth : nat) (i : nat) (r : pystr) (acc : list pyval)
  : sres (pyval * nat * pystr) :=
  match fuel with
  | O => SStop i
  | S f =>
      let! (v, j, r1) := scan_once f depth i r in
      let '(j, r1) := skip_ws j r1 in
      match r1 with
      | 93 :: r2 => SOk (PList (rev (v :: acc)), S j, r2)
      | 44 :: r2 => let '(k, r3) := skip_ws (S j) r2 in array_items f depth k r3 (v :: acc)
      | _ => SRaise (decode_error (py "Expecting ',' delimiter") doc j)
      end
  end
with object_items (fuel : nat) (depth : nat) (i : nat) (r : pystr)
  (acc : list (pyval * pyval)) : sres (pyval * nat * pystr) :=
  match fuel with
  | O => SStop i
  | S f =>
      match r with
      | 34 :: r1 =>
          let! (key, j, r2) := scanstring_go doc i (S i) r1 [] in
          let '(j, r2) := skip_ws j r2 in
          match r2 with
          | 58 :: r3 =>
              let '(k, r4) := skip_ws (S j) r3 in
              let! (v, l, r5) := scan_once f depth k r4 in
              let acc := dict_set str_key_eqb (PStr key) v acc in
              let '(l, r5) := skip_ws l r5 in
              match r5 with
              | 125 :: r6 => SOk (PDict acc, S l, r6)
              | 44 :: r6 => let '(m, r7) := skip_ws (S l) r6 in object_items f depth m r7 acc
              | _ => SRaise (decode_error (py "Expecting ',' delimiter") doc l)
              end
          | _ => SRaise (decode_error (py "Expecting ':' delimiter") doc j)
          end
      | _ => SRaise (decode_error (py "Expecting property name enclosed in double quotes") doc i)
      end
  end.

(** [JSONDecoder.decode]: a value after optional whitespace, then only
    whitespace. *)
Definition decode : res pyval :=
  let '(i, r) := skip_ws O doc in
  match scan_once (2 * List.length doc + 1) O i r with
  | SStop idx => Err (decode_error (py "Expecting value") doc idx)
  | SRaise e => Err e
  | SOk (v, j, r1) =>
      let '(k, r2) := skip_ws j r1 in
      match r2 with
      | [] => Ok v
      | _ => Err (decode_error (py "Extra data") doc k)
      end
  end.

End Scanner.

(** [json.loads(v)] *)
Definition json_loads (rec_limit : nat) (v : pyval) : res pyval :=
  match v with
  | PStr s =>
      if startswith s [65279]
      then Err (decode_error (py "Unexpected UTF-8 BOM (decode using utf-8-sig)") s O)
      else decode rec_limit s
  | _ => Err (TypeError (py "the JSON object must be str, bytes or bytearray, not " ++ type_name v))
  end.

End Json.

(* ================================================================== *)
(** ** The SQLite store, the effects of the flows and the world *)
(* ================================================================== *)

Module Store.
Import PyFloat PyVal.

(** A value stored in a column (the tables hold no BLOB). *)
Inductive sqlval : Type :=
| SNull
| SInt (n : Z)
| SReal (f : pyfloat)
| SText (s : pystr).

(** A table: its column names and its rows (one value per column, in
    scan order). *)
Record table : Type := mk_table { cols : list pystr; rows : list (list sqlval) }.

Inductive tname : Type := TPipelineState | TMous | TTargets.

Definition tname_str (t : tname) : pystr :=
  match t with
  | TPipelineState => py "pipeline_state"
  | TMous => py "mous"
  | TTargets => py "targets"
  end.

Record db : Type := mk_db { t_pipeline_state : table; t_mous : table; t_targets : table }.

Definition get_table (d : db) (t : tname) : table :=
  match t with
  | TPipelineState => t_pipeline_state d
  | TMous => t_mous d
  | TTargets => t_targets d
  end.

Definition set_table (d : db) (t : tname) (tb : table) : db :=
  match t with
  | TPipelineState => mk_db tb (t_mous d) (t_targets d)
  | TMous => mk_db (t_pipeline_state d) tb (t_targets d)
  | TTargets => mk_db (t_pipeline_state d) (t_mous d) tb
  end.

(** What the interpreter and the database engine do outside the modelled
    fragment: the recursion budget of the JSON scanner, the effect of
    an [UPDATE] whose SET names are not plain column identifiers (SQLite
    keywords, the [rowid] aliases, quoted or injected text), and the
    Unicode database's answer to [str.isprintable] for a non-ASCII code
    point. *)
Record runtime : Type := mk_runtime {
  rec_limit : nat;
  sql_other : pystr -> list pyval -> db -> res db;
  is_printable : Z -> bool
}.

(** Observable effects of the flows, in order. *)
Inductive effect : Type :=
| FxSql (stmt : pystr) (params : list pyval)
| FxMkdtemp (path : pystr)
| FxMakedirs (path : pystr)
| FxMkdir (path : pystr)
| FxWriteFile (path : pystr) (contents : pystr)
| FxSessionCreate (name image cmd args : pystr)
| FxSessionInfo (job_id : pystr)
| FxSleep (secs : Z)
| FxMove (src dst : pystr)
| FxWarn (msg : pystr).

Record world : Type := mk_world { w_db : db; w_log : list effect }.

(** The state and error monad of the flows: a raised exception keeps the
    world as it was when it was raised. *)
Definition M (A : Type) : Type := world -> res A * world.

Definition ret {A} (a : A) : M A := fun w => (Ok a, w).
Definition raise {A} (e : exn) : M A := fun w => (Err e, w).
Definition bind {A B} (m : M A) (f : A -> M B) : M B :=
  fun w => match m w with
           | (Ok a, w') => f a w'
           | (Err e, w') => (Err e, w')
           end.
Definition lift {A} (r : res A) : M A := fun w => (r, w).
Definition read_db {A} (f : db -> res A) : M A := fun w => (f (w_db w), w).
Definition emit (fx : effect) : M unit :=
  fun w => (Ok tt, mk_world (w_db w) (w_log w ++ [fx])).

(** [try: m except Exception as e: h e] *)
Definition try_except {A} (m : M A) (h : exn -> M A) : M A :=
  fun w => match m w with
           | (Err e, w') => h e w'
           | ok => ok
           end.

End Store.

Notation "x <- m ;; k" := (Store.bind m (fun x => k))
  (at level 61, m at next level, right associativity).
Notation "m ;;; k" := (Store.bind m (fun _ => k))
  (at level 61, right associativity).

(* ================================================================== *)
(** ** alma_ops/db.py *)
(* ================================================================== *)

Module DbPy.
Import PyFloat PyVal Store.

(** *** Parameter binding ([sqlite3]'s [_pysqlite_set_param]) *)

Definition is_surrogate (c : Z) : bool := (55296 <=? c) && (c <=? 57343).

Fixpoint surrogate_prefix_len (s : pystr) : nat :=
  match s with c :: r => if is_surrogate c then S (surrogate_prefix_len r) else O | [] => O end.

(** The first run of surrogates of [s]: its start and its length. *)
Fixpoint surrogate_run (i : nat) (s : pystr) : option (nat * nat) :=
  match s with
  | [] => None
  | c :: r => if is_surrogate c then Some (i, surrogate_prefix_len s) else surrogate_run (S i) r
  end.

Definition nat_str (n : nat) : pystr := str_of_int (Z.of_nat n).

(** Encoding a [str] to UTF-8 fails on its surrogates. *)
Definition utf8_check (s : pystr) : res unit :=
  match surrogate_run O s with
  | None => Ok tt
  | Some (p, 1%nat) =>
      Err (UnicodeEncodeError (py "'utf-8' codec can't encode character '\u"
             ++ hex4 (nth p s 0) ++ py "' in position " ++ nat_str p ++ py ": surrogates not allowed"))
  | Some (p, n) =>
      Err (UnicodeEncodeError (py "'utf-8' codec can't encode characters in position "
             ++ nat_str p ++ py "-" ++ nat_str (p + n - 1) ++ py ": surrogates not allowed"))
  end.

(** Binding parameter [pos] (1-based).  SQLite stores a NaN as NULL. *)
Definition bind_param (pos : nat) (v : pyval) : res sqlval :=
  match v with
  | PNone => Ok SNull
  | PBool b => Ok (SInt (if b then 1 else 0))
  | PInt n =>
      if (- 2 ^ 63 <=? n) && (n <? 2 ^ 63) then Ok (SInt n)
      else Err (OverflowError (py "Python int too large to convert to SQLite INTEGER"))
  | PFloat FNaN => Ok SNull
  | PFloat f => Ok (SReal f)
  | PStr s => let? _ := utf8_check s in Ok (SText s)
  | PList _ | PDict _ =>
      Err (ProgrammingError (py "Error binding parameter " ++ nat_str pos ++ py ": type '"
                             ++ type_name v ++ py "' is not supported"))
  end.

Fixpoint bind_params_from (pos : nat) (vs : list pyval) : res (list sqlval) :=
  match vs with
  | [] => Ok []
  | v :: r => let? x := bind_param pos v in let? xs := bind_params_from (S pos) r in Ok (x :: xs)
  end.

Definition bind_params (vs : list pyval) : res (list sqlval) := bind_params_from 1 vs.

(** *** Names in SQL text *)

(** SQLite's keywords. *)
Local Open Scope string_scope.
Definition sql_keywords : list string :=
  ["ABORT"; "ACTION"; "ADD"; "AFTER"; "ALL"; "ALTER"; "ALWAYS"; "ANALYZE"; "AND"; "AS";
   "ASC"; "ATTACH"; "AUTOINCREMENT"; "BEFORE"; "BEGIN"; "BETWEEN"; "BY"; "CASCADE";
   "CASE"; "CAST"; "CHECK"; "COLLATE"; "COLUMN"; "COMMIT"; "CONFLICT"; "CONSTRAINT";
   "CREATE"; "CROSS"; "CURRENT"; "CURRENT_DATE"; "CURRENT_TIME"; "CURRENT_TIMESTAMP";
   "DATABASE"; "DEFAULT"; "DEFERRABLE"; "DEFERRED"; "DELETE"; "DESC"; "DETACH";
   "DISTINCT"; "DO"; "DROP"; "EACH"; "ELSE"; "END"; "ESCAPE"; "EXCEPT"; "EXCLUDE";
   "EXCLUSIVE"; "EXISTS"; "EXPLAIN"; "FAIL"; "FILTER"; "FIRST"; "FOLLOWING"; "FOR";
   "FOREIGN"; "FROM"; "FULL"; "GENERATED"; "GLOB"; "GROUP"; "GROUPS"; "HAVING"; "IF";
   "IGNORE"; "IMMEDIATE"; "IN"; "INDEX"; "INDEXED"; "INITIALLY"; "INNER"; "INSERT";
   "INSTEAD"; "INTERSECT"; "INTO"; "IS"; "ISNULL"; "JOIN"; "KEY"; "LAST"; "LEFT";
   "LIKE"; "LIMIT"; "MATCH"; "MATERIALIZED"; "NATURAL"; "NO"; "NOT"; "NOTHING";
   "NOTNULL"; "NULL"; "NULLS"; "OF"; "OFFSET"; "ON"; "OR"; "ORDER"; "OTHERS"; "OUTER";
   "OVER"; "PARTITION"; "PLAN"; "PRAGMA"; "PRECEDING"; "PRIMARY"; "QUERY"; "RAISE";
   "RANGE"; "RECURSIVE"; "REFERENCES"; "REGEXP"; "REINDEX"; "RELEASE"; "RENAME";
   "REPLACE"; "RESTRICT"; "RETURNING"; "RIGHT"; "ROLLBACK"; "ROW"; "ROWS"; "SAVEPOINT";
   "SELECT"; "SET"; "TABLE"; "TEMP"; "TEMPORARY"; "THEN"; "TIES"; "TO"; "TRANSACTION";
   "TRIGGER"; "UNBOUNDED"; "UNION"; "UNIQUE"; "UPDATE"; "USING"; "VACUUM"; "VALUES";
   "VIEW"; "VIRTUAL"; "WHEN"; "WHERE"; "WINDOW"; "WITH"; "WITHOUT";
   (* the aliases of the rowid *)
   "ROWID"; "OID"; "_ROWID_"].
Local Close Scope string_scope.

Definition is_ident_start (c : Z) : bool :=
  ((65 <=? c) && (c <=? 90)) || ((97 <=? c) && (c <=? 122)) || (c =? 95).

Definition is_ident_char (c : Z) : bool := is_ident_start c || ((48 <=? c) && (c <=? 57)).

(** A name SQLite reads as an ordinary column name. *)
Definition plain_column_name (k : pystr) : bool :=
  match k with
  | c :: r => is_ident_start c && forallb is_ident_char r
              && negb (existsb (fun w => eq_ignore_case k (py w)) sql_keywords)
  | [] => false
  end.

(** SQLite resolves a column name ignoring ASCII case. *)
Fixpoint find_col (k : pystr) (i : nat) (cs : list pystr) : option nat :=
  match cs with
  | [] => None
  | c :: r => if eq_ignore_case c k then Some i else find_col k (S i) r
  end.

Definition resolve_col (cs : list pystr) (k : pystr) : res nat :=
  match find_col k O cs with
  | Some i => Ok i
  | None => Err (OperationalError (py "no such column: " ++ k))
  end.

(** *** [UPDATE t SET k1=?, ..., kn=? WHERE mous_id=?] *)

Fixpoint list_set {A} (l : list A) (i : nat) (v : A) : list A :=
  match l, i with
  | [], _ => []
  | _ :: r, O => v :: r
  | x :: r, S j => x :: list_set r j v
  end.

(** The assignments in order: of two to one column the rightmost wins. *)
Definition assign_row (assigns : list (nat * sqlval)) (row : list sqlval) : list sqlval :=
  fold_left (fun r a => list_set r (fst a) (snd a)) assigns row.

(** [mous_id = ?] for the bound TEXT key. *)
Definition key_match (v : sqlval) (mous_id : pystr) : bool :=
  match v with SText s => str_eqb s mous_id | _ => false end.

(** The statement for plain column names: every name is resolved (then
    the WHERE column), then the parameters are bound, then the matching
    rows are rewritten. *)
Definition exec_update (t : tname) (keys : list pystr) (vals : list pyval) (mous_id : pystr)
  (d : db) : res db :=
  let tb := get_table d t in
  let? idxs := map_res (resolve_col (cols tb)) keys in
  let? ki := resolve_col (cols tb) (py "mous_id") in
  let? bound := bind_params (vals ++ [PStr mous_id]) in
  let assigns := combine idxs (firstn (List.length vals) bound) in
  Ok (set_table d t (mk_table (cols tb)
        (map (fun row => if key_match (nth ki row SNull) mous_id then assign_row assigns row else row)
             (rows tb)))).

(** [json.dumps(v) if isinstance(v, (list, dict)) else v] *)
Definition serialize (kv : pystr * pyval) : res (pystr * pyval) :=
  match snd kv with
  | PList _ | PDict _ => let? s := json_dumps (snd kv) in Ok (fst kv, PStr s)
  | _ => Ok kv
  end.

Definition update_sql (t : tname) (keys : list pystr) : pystr :=
  py "UPDATE " ++ tname_str t ++ py " SET " ++ join (py ", ") (map (fun k => k ++ py "=?") keys)
  ++ py " WHERE mous_id=?".

Definition update_fn_name (t : tname) : pystr :=
  match t with
  | TMous => py "update_mous_record"
  | _ => py "update_pipeline_state_record"
  end.

(** Keyword arguments that collide with the positional parameters. *)
Definition kwarg_clash (t : tname) (fields : list (pystr * pyval)) : option exn :=
  match find (fun kv => str_eqb (fst kv) (py "conn") || str_eqb (fst kv) (py "mous_id")) fields with
  | Some (k, _) => Some (TypeError (update_fn_name t ++ py "() got multiple values for argument '"
                                    ++ k ++ py "'"))
  | None => None
  end.

Section Update.
Variable rt : runtime.

(** [update_pipeline_state_record] ([t = TPipelineState], db.py 189-214)
    and [update_mous_record] ([t = TMous], db.py 217-244); [fields] is
    the [**fields] dict in order, with distinct keys.  The statement runs
    in [db_transaction]: committed (logged) on success, rolled back on an
    exception. *)
Definition update_record (t : tname) (mous_id : pystr) (fields : list (pystr * pyval)) : M unit :=
  match kwarg_clash t fields with
  | Some e => raise e
  | None =>
  match fields with
  | [] => ret tt
  | _ :: _ =>
      fun w =>
      match map_res serialize fields with
      | Err e => (Err e, w)
      | Ok ser =>
          let keys := map fst ser in
          let params := map snd ser ++ [PStr mous_id] in
          let sql := update_sql t keys in
          let r := if forallb plain_column_name keys
                   then exec_update t keys (map snd ser) mous_id (w_db w)
                   else sql_other rt sql params (w_db w) in
          match r with
          | Ok d' => (Ok tt, mk_world d' (w_log w ++ [FxSql sql params]))
          | Err e => (Err e, w)
          end
      end
  end
  end.

Definition update_pipeline_state_record := update_record TPipelineState.
Definition update_mous_record := update_record TMous.

End Update.

(** *** Reading rows *)

(** A [sqlite3.Row]: the column names of the cursor and the values. *)
Definition srow : Type := (list pystr * list sqlval)%type.

(** [SELECT <cols> FROM t WHERE mous_id=?] then [fetchone()]; [sel] is
    [None] for [*]. *)
Definition select_one (t : tname) (sel : option pystr) (mous_id : pystr) (d : db)
  : res (option srow) :=
  let tb := get_table d t in
  let? proj := match sel with
               | None => Ok None
               | Some c => let? i := resolve_col (cols tb) c in Ok (Some (c, i))
               end in
  let? ki := resolve_col (cols tb) (py "mous_id") in
  let? _ := utf8_check mous_id in
  match find (fun row => key_match (nth ki row SNull) mous_id) (rows tb) with
  | None => Ok None
  | Some row =>
      match proj with
      | None => Ok (Some (cols tb, row))
      | Some (c, i) => Ok (Some ([c], [nth i row SNull]))
      end
  end.

(** [row[key]] *)
Definition row_get (row : srow) (k : pystr) : res sqlval :=
  match find_col k O (fst row) with
  | Some i => Ok (nth i (snd row) SNull)
  | None => Err (IndexError (py "No item with that key"))
  end.

(** The Python value [sqlite3] returns for a stored value. *)
Definition sql_to_py (v : sqlval) : pyval :=
  match v with
  | SNull => PNone
  | SInt n => PInt n
  | SReal f => PFloat f
  | SText s => PStr s
  end.

(** [row if row else None]: a row is falsy when it has no column. *)
Definition row_truthy (row : srow) : bool := negb (Nat.eqb (List.length (fst row)) 0).

(** [get_pipeline_state_record] (db.py 163-186) *)
Definition get_pipeline_state_record (mous_id : pystr) (d : db) : res (option srow) :=
  let? row := select_one TPipelineState None mous_id d in
  match row with
  | Some r => if row_truthy r then Ok (Some r) else Ok None
  | None => Ok None
  end.

(** [parse_json_safe] (db.py 123-133) *)
Definition parse_json_safe (rec_limit : nat) (value : pyval) : res pyval :=
  match value with
  | PNone => Ok PNone
  | _ =>
      match Json.json_loads rec_limit value with
      | Ok v => Ok v
      | Err (JSONDecodeError _) | Err (TypeError _) => Ok value
      | Err e => Err e
      end
  end.

(** [get_pipeline_state_record_column_value] (db.py 247-279) *)
Definition get_pipeline_state_record_column_value (rt : runtime) (mous_id column : pystr)
  (d : db) : res pyval :=
  let? row := get_pipeline_state_record mous_id d in
  match row with
  | None => Ok PNone
  | Some r => let? raw := row_get r column in parse_json_safe (rec_limit rt) (sql_to_py raw)
  end.

(** *** Frame of an update *)

(** The row is selected by [WHERE mous_id=?]. *)
Definition row_matches (cs : list pystr) (mous_id : pystr) (row : list sqlval) : bool :=
  match find_col (py "mous_id") O cs with
  | Some ki => key_match (nth ki row SNull) mous_id
  | None => false
  end.

(** Column [j] is named by one of [keys]. *)
Definition named_col (cs keys : list pystr) (j : nat) : bool :=
  existsb (fun k => match find_col k O cs with Some i => Nat.eqb i j | None => false end) keys.

(** [row'] differs from [row] at most in the named columns, and only if
    [row] is selected. *)
Definition row_frame (cs keys : list pystr) (mous_id : pystr) (row row' : list sqlval) : Prop :=
  List.length row' = List.length row /\
  (row_matches cs mous_id row = false -> row' = row) /\
  (forall j, named_col cs keys j = false -> nth_error row' j = nth_error row j).

End DbPy.

(* ================================================================== *)
(** ** flows/mous_download.py: the job monitor *)
(* ================================================================== *)

Module Monitor.
Import PyFloat PyVal Store.

(** What one [session.info(ids=job_id)] call does: it raises, or it
    returns a value. *)
Inductive info_resp : Type :=
| RespRaise (e : exn)
| RespInfo (v : pyval).

(** [v[0]] *)
Definition getitem_0 (v : pyval) : res pyval :=
  match v with
  | PList (x :: _) => Ok x
  | PList [] => Err (IndexError (py "list index out of range"))
  | PStr (c :: _) => Ok (PStr [c])
  | PStr [] => Err (IndexError (py "string index out of range"))
  | PDict kvs =>
      match dict_get (fun k _ => match k with
                                 | PInt 0 | PBool false => true
                                 | PFloat (FFin _ 0 _) => true
                                 | _ => false end) PNone kvs with
      | Some x => Ok x
      | None => Err (KeyError (py "0"))
      end
  | _ => Err (TypeError (py "'" ++ type_name v ++ py "' object is not subscriptable"))
  end.

(** A [str] key [s] equals only the [str] [s]. *)
Definition is_str (s : pystr) (v : pyval) : bool :=
  match v with PStr s' => str_eqb s' s | _ => false end.

(** [v[s]] for a [str] key [s] *)
Definition getitem_str (v : pyval) (s : pystr) : res pyval :=
  match v with
  | PDict kvs =>
      match dict_get (fun k _ => is_str s k) PNone kvs with
      | Some x => Ok x
      | None => Err (KeyError (py "'" ++ s ++ py "'"))
      end
  | PList _ => Err (TypeError (py "list indices must be integers or slices, not str"))
  | PStr _ => Err (TypeError (py "string indices must be integers, not 'str'"))
  | _ => Err (TypeError (py "'" ++ type_name v ++ py "' object is not subscriptable"))
  end.

Definition max_empty_responses : Z := 3.

(** How one pass of the [while True] loop ends: [return], or going round
    again with the counter of consecutive empty responses. *)
Inductive pass_end : Type :=
| PassReturn (b : bool)
| PassAgain (count : Z).

(** The [except Exception as e] clause; [isinstance(e, RuntimeError)]
    also holds for its subclass [RecursionError]. *)
Definition on_error (e : exn) (count : Z) : M pass_end :=
  match e with
  | RuntimeError _ | RecursionError _ => raise e
  | _ => if max_empty_responses <=? count + 1 then raise e
         else emit (FxSleep 60) ;;; ret (PassAgain (count + 1))
  end.

(** The body of the [try] block, then the wait at the end of the pass;
    a [RuntimeError] raised in the body goes through [on_error] too. *)
Definition monitor_pass (job_id : pystr) (resp : info_resp) (count : Z) : M pass_end :=
  emit (FxSessionInfo job_id) ;;;
  match resp with
  | RespRaise e => on_error e count
  | RespInfo info =>
      if negb (truthy info) then
        if max_empty_responses <=? count + 1 then
          on_error (RuntimeError (py "Job " ++ job_id ++ py " returned empty info "
                      ++ str_of_int max_empty_responses
                      ++ py " times - may have expired or been deleted")) (count + 1)
        else emit (FxSleep 60) ;;; ret (PassAgain (count + 1))
      else
        match res_bind (getitem_0 info) (fun x => getitem_str x (py "status")) with
        | Err e => on_error e 0
        | Ok status =>
            if is_str (py "Succeeded") status then ret (PassReturn true)
            else if is_str (py "Failed") status || is_str (py "Terminated") status then
              on_error (RuntimeError (py "Job failed with status: "
                          ++ match status with PStr s => s | _ => [] end)) 0
            else emit (FxSleep 60) ;;; ret (PassAgain 0)
        end
  end.

(** The loop, run against the responses [session.info] gives in turn;
    [None] when they are used up and the monitor is still polling. *)
Fixpoint monitor_loop (job_id : pystr) (resps : list info_resp) (count : Z) : M (option bool) :=
  match resps with
  | [] => ret None
  | r :: rs =>
      p <- monitor_pass job_id r count ;;
      match p with
      | PassReturn b => ret (Some b)
      | PassAgain c => monitor_loop job_id rs c
      end
  end.

(** [monitor_download_headless_session] (mous_download.py 193-260) *)
Definition monitor_download_headless_session (job_id mous_id : pystr) (resps : list info_resp)
  : M (option bool) :=
  emit (FxSleep 10) ;;; monitor_loop job_id resps 0.

(** The message after the third empty response. *)
Definition lost_msg (job_id : pystr) : pystr :=
  py "Job " ++ job_id ++ py " returned empty info 3 times - may have expired or been deleted".

(** The world after the effects [fx]. *)
Definition after (w : world) (fx : list effect) : world := mk_world (w_db w) (w_log w ++ fx).

End Monitor.

(* ================================================================== *)
(** ** The stage validators *)
(* ================================================================== *)

Module Validate.
Import PyFloat PyVal Store DbPy.

(** [f"{v}"] for a value read from SQLite (its integers are 64-bit, far
    below the digit limit of [str]). *)
Definition sql_fstr (v : sqlval) : pystr :=
  match v with
  | SNull => py "None"
  | SInt n => str_of_int n
  | SReal f => float_repr f
  | SText s => s
  end.

(** [v == s] for a [str] [s] *)
Definition sql_is_str (s : pystr) (v : sqlval) : bool :=
  match v with SText s' => str_eqb s' s | _ => false end.

Definition sql_truthy (v : sqlval) : bool := truthy (sql_to_py v).

(** [validate_mous_download_status] (mous_download.py 264-317), on the
    database the connection opens: the download status and the URL. *)
Definition validate_mous_download_status (mous_id : pystr) (d : db) : res (pyval * pyval) :=
  let? row := get_pipeline_state_record mous_id d in
  match row with
  | None => Err (ValueError (py "MOUS ID " ++ mous_id ++ py " not found"))
  | Some r =>
      let? download_status := row_get r (py "download_status") in
      if negb (sql_is_str (py "pending") download_status) then
        Err (ValueError (py "MOUS " ++ mous_id ++ py " has status '" ++ sql_fstr download_status
                         ++ py "', expected 'pending'"))
      else
        let? url := row_get r (py "download_url") in
        if negb (sql_truthy url) then Err (ValueError (py "No download URL for " ++ mous_id))
        else Ok (sql_to_py download_status, sql_to_py url)
  end.

(** [validate_mous_split_status] (mous_post_split_listobs.py 57-85) *)
Definition validate_mous_split_status (mous_id : pystr) (d : db) : res unit :=
  let? row := get_pipeline_state_record mous_id d in
  match row with
  | None => Err (ValueError (py "MOUS ID not found: " ++ mous_id))
  | Some r =>
      let? split_status := row_get r (py "pre_selfcal_split_status") in
      if negb (sql_is_str (py "complete") split_status) then
        Err (ValueError (py "MOUS " ++ mous_id ++ py " has status '" ++ sql_fstr split_status
                         ++ py "', expected 'complete'."))
      else
        let? listobs_status := row_get r (py "pre_selfcal_listobs_status") in
        if negb (sql_is_str (py "pending") listobs_status) then
          Err (ValueError (py "MOUS " ++ mous_id ++ py " has pre_selfcal_listobs_status '"
                           ++ sql_fstr listobs_status ++ py "', expected 'pending'."))
        else Ok tt
  end.

(** [validate_mous_preselfcal_split_status] (mous_split.py 63-110) *)
Definition validate_mous_preselfcal_split_status (mous_id : pystr) (d : db) : res unit :=
  let? row := get_pipeline_state_record mous_id d in
  match row with
  | None => Err (ValueError (py "MOUS ID " ++ mous_id ++ py " not found"))
  | Some r =>
      let? split_status := row_get r (py "pre_selfcal_split_status") in
      if negb (sql_is_str (py "pending") split_status) then
        Err (ValueError (py "MOUS " ++ mous_id ++ py " has status '" ++ sql_fstr split_status
                         ++ py "', expected 'pending'"))
      else
        let? download_status := row_get r (py "download_status") in
        if negb (sql_is_str (py "complete") download_status) then
          Err (ValueError (py "MOUS " ++ mous_id ++ py " has download status '"
                           ++ sql_fstr download_status ++ py "', expected 'complete'"))
        else Ok tt
  end.

End Validate.

(* ================================================================== *)
(** ** [repr] and [str] of the values, [pathlib] paths, alma_ops/config.py *)
(* ================================================================== *)

Module PyRepr.
Import PyFloat PyVal.

Definition hex2 (n : Z) : pystr := [hex_digit (n / 16 mod 16); hex_digit (n mod 16)].
Definition hex8 (n : Z) : pystr := hex4 (n / 65536) ++ hex4 (n mod 65536).

(** One code point of [unicode_repr]'s output; [printable] is
    [Py_UNICODE_ISPRINTABLE] for the non-ASCII code points. *)
Definition repr_char (printable : Z -> bool) (quote c : Z) : pystr :=
  if (c =? quote) || (c =? 92) then [92; c]
  else if c =? 9 then [92; 116]
  else if c =? 10 then [92; 110]
  else if c =? 13 then [92; 114]
  else if (c <? 32) || (c =? 127) then [92; 120] ++ hex2 c
  else if c <? 127 then [c]
  else if printable c then [c]
  else if c <? 256 then [92; 120] ++ hex2 c
  else if c <? 65536 then [92; 117] ++ hex4 c
  else [92; 85] ++ hex8 c.

(** [repr(s)] for a [str]: double quotes only when [s] has a single
    quote and no double quote. *)
Definition str_repr (printable : Z -> bool) (s : pystr) : pystr :=
  let quote := if existsb (Z.eqb 39) s && negb (existsb (Z.eqb 34) s) then 34 else 39 in
  [quote] ++ concat (map (repr_char printable quote) s) ++ [quote].

(** [repr(v)] *)
Fixpoint py_repr (printable : Z -> bool) (v : pyval) : res pystr :=
  match v with
  | PNone => Ok (py "None")
  | PBool true => Ok (py "True")
  | PBool false => Ok (py "False")
  | PInt n => int_repr n
  | PFloat f => Ok (float_repr f)
  | PStr s => Ok (str_repr printable s)
  | PList xs =>
      let? parts := map_res (py_repr printable) xs in
      Ok ([91] ++ join (py ", ") parts ++ [93])
  | PDict kvs =>
      let? parts := map_res (fun kv =>
                       let? k := py_repr printable (fst kv) in
                       let? v := py_repr printable (snd kv) in
                       Ok (k ++ py ": " ++ v)) kvs in
      Ok ([123] ++ join (py ", ") parts ++ [125])
  end.

(** [str(v)] *)
Definition py_str (printable : Z -> bool) (v : pyval) : res pystr :=
  match v with
  | PStr s => Ok s
  | _ => py_repr printable v
  end.

End PyRepr.

Module PPath.

(** A [PurePosixPath]: its root ([], [/] or [//]) and its names. *)
Record ppath : Type := mk_path { p_root : pystr; p_parts : list pystr }.

Fixpoint drop_slashes (s : pystr) : pystr :=
  match s with 47 :: r => drop_slashes r | _ => s end.

Definition rel_parts (rel : pystr) : list pystr :=
  filter (fun x => negb (Nat.eqb (List.length x) 0 || str_eqb x [46])) (split [47] rel).

(** [Path(s)] for a [str] [s] *)
Definition path_of_str (s : pystr) : ppath :=
  match s with
  | 47 :: _ =>
      let rel := drop_slashes s in
      mk_path (if Nat.eqb (List.length s - List.length rel) 2 then [47; 47] else [47]) (rel_parts rel)
  | _ => mk_path [] (rel_parts s)
  end.

(** [str(p)] *)
Definition path_str (p : ppath) : pystr :=
  match p_root p, p_parts p with
  | [], [] => [46]
  | r, ps => r ++ join [47] ps
  end.

(** [p / q] *)
Definition path_div (p q : ppath) : ppath :=
  match p_root q with
  | [] => mk_path (p_root p) (p_parts p ++ p_parts q)
  | _ => q
  end.

Definition path_div_s (p : ppath) (q : pystr) : ppath := path_div p (path_of_str q).

(** [p.name] *)
Definition name (p : ppath) : pystr := last (p_parts p) [].

(** [name.rfind('.')] *)
Fixpoint rfind_dot (i : nat) (s : pystr) (acc : option nat) : option nat :=
  match s with
  | [] => acc
  | c :: r => rfind_dot (S i) r (if c =? 46 then Some i else acc)
  end.

(** The index of the last suffix, when [0 < i < len(name) - 1]. *)
Definition suffix_at (nm : pystr) : option nat :=
  match rfind_dot O nm None with
  | Some i => if (0 <? i)%nat && (i <? List.length nm - 1)%nat then Some i else None
  | None => None
  end.

(** [p.suffix] *)
Definition suffix (p : ppath) : pystr :=
  match suffix_at (name p) with Some i => skipn i (name p) | None => [] end.

(** [p.stem] *)
Definition stem (p : ppath) : pystr :=
  match suffix_at (name p) with Some i => firstn i (name p) | None => name p end.

(** [p.with_suffix(sfx)]; a path with no name has [str] [.], [/] or
    [//], whose [repr] needs no escape. *)
Definition with_suffix (printable : Z -> bool) (p : ppath) (sfx : pystr) : res ppath :=
  if existsb (Z.eqb 47) sfx then
    Err (ValueError (py "Invalid suffix " ++ PyRepr.str_repr printable sfx))
  else if (negb (Nat.eqb (List.length sfx) 0) && negb (startswith sfx [46])) || str_eqb sfx [46] then
    Err (ValueError (py "Invalid suffix " ++ PyRepr.str_repr printable sfx))
  else
    let nm := name p in
    if Nat.eqb (List.length nm) 0 then
      Err (ValueError (py "PosixPath('" ++ path_str p ++ py "') has an empty name"))
    else
      let old := suffix p in
      let nm' := if Nat.eqb (List.length old) 0 then nm ++ sfx
                 else firstn (List.length nm - List.length old) nm ++ sfx in
      Ok (mk_path (p_root p) (removelast (p_parts p) ++ [nm'])).

End PPath.

Module Config.
Import PyVal PPath.

Definition VM_MOUNT_PREFIX : pystr := py "/home/ubuntu/canfar_arc/projects/ALMA-SAILS".
Definition PLATFORM_PREFIX : pystr := py "/arc/projects/ALMA-SAILS".

Definition CASA_IMAGE_PIPE : pystr := py "images.canfar.net/casa-6/casa:6.5.4-9-pipeline".
Definition WGET2_IMAGE : pystr := py "images.canfar.net/skaha/astroml:25.10".

(** [to_platform_path] (config.py 37-59) on [str(path)] *)
Definition to_platform_str (s : pystr) : pystr := replace VM_MOUNT_PREFIX PLATFORM_PREFIX s.

(** [to_platform_path] on a value: a list maps [str] over its items. *)
Definition to_platform_path (printable : Z -> bool) (v : pyval) : res pyval :=
  match v with
  | PList xs =>
      let? ys := map_res (fun p => let? s := PyRepr.py_str printable p in
                                  Ok (PStr (to_platform_str s))) xs in
      Ok (PList ys)
  | _ => let? s := PyRepr.py_str printable v in Ok (PStr (to_platform_str s))
  end.

End Config.

(* ================================================================== *)
(** ** [int()] *)
(* ================================================================== *)

Module PyInt.
Import PyFloat PyVal.

(** The first code points of the 66 runs of ten decimal digits
    (general category Nd) of Unicode 14.0, the database of CPython 3.11. *)
Definition nd_starts : list Z :=
  [48; 1632; 1776; 1984; 2406; 2534; 2662; 2790; 2918; 3046; 3174; 3302; 3430; 3558;
   3664; 3792; 3872; 4160; 4240; 6112; 6160; 6470; 6608; 6784; 6800; 6992; 7088; 7232;
   7248; 42528; 43216; 43264; 43472; 43504; 43600; 44016; 65296; 66720; 68912; 69734;
   69872; 69942; 70096; 70384; 70736; 70864; 71248; 71360; 71472; 71904; 72016; 72784;
   73040; 73120; 92768; 92864; 93008; 120782; 120792; 120802; 120812; 120822; 123200;
   123632; 125264; 130032].

(** [Py_UNICODE_TODECIMAL] *)
Definition decimal_value (c : Z) : option Z :=
  match find (fun s => (s <=? c) && (c <? s + 10)) nd_starts with
  | Some s => Some (c - s)
  | None => None
  end.

Definition is_decimal (c : Z) : bool :=
  match decimal_value c with Some _ => true | None => false end.

(** [_PyUnicode_TransformDecimalAndSpaceToASCII], one code point ([63]
    is the [?] that ends the conversion). *)
Definition to_ascii_digit (c : Z) : Z :=
  if c <? 127 then c
  else if is_space c then 32
  else match decimal_value c with Some d => 48 + d | None => 63 end.

(** [Py_ISSPACE] *)
Definition c_isspace (c : Z) : bool :=
  (c =? 32) || (c =? 9) || (c =? 10) || (c =? 11) || (c =? 12) || (c =? 13).

Fixpoint skip_c_space (s : pystr) : pystr :=
  match s with c :: r => if c_isspace c then skip_c_space r else s | [] => [] end.

Definition is_ascii_digit (c : Z) : bool := (48 <=? c) && (c <=? 57).

(** The digit scan of [PyLong_FromString]: the digits (without the
    underscores) and the rest, or [None] on a misplaced underscore. *)
Fixpoint scan_digits (prev_us : bool) (s : pystr) (acc : pystr) : option (pystr * pystr) :=
  match s with
  | c :: r =>
      if is_ascii_digit c then scan_digits false r (c :: acc)
      else if c =? 95 then (if prev_us then None else scan_digits true r acc)
      else if prev_us then None else Some (rev acc, s)
  | [] => if prev_us then None else Some (rev acc, [])
  end.

Definition digits_to_Z (ds : pystr) : Z := fold_left (fun acc d => acc * 10 + (d - 48)) ds 0.

(** [int(s)] for a [str]: [printable] for the [repr] in the message. *)
Definition int_of_str (printable : Z -> bool) (s : pystr) : res Z :=
  let invalid := Err (ValueError (py "invalid literal for int() with base 10: "
                                  ++ firstn 200 (PyRepr.str_repr printable s))) in
  let a := skip_c_space (map to_ascii_digit s) in
  let '(neg, a1) := match a with
                    | 43 :: r => (false, r)
                    | 45 :: r => (true, r)
                    | _ => (false, a)
                    end in
  match a1 with
  | 95 :: _ => invalid
  | _ =>
      match scan_digits false a1 [] with
      | None => invalid
      | Some (ds, rest) =>
          if (max_str_digits <? List.length ds)%nat then
            Err (ValueError (py "Exceeds the limit (4300 digits) for integer string conversion: value has "
                             ++ str_of_int (Z.of_nat (List.length ds))
                             ++ py " digits; use sys.set_int_max_str_digits() to increase the limit"))
          else if Nat.eqb (List.length ds) 0 then invalid
          else match skip_c_space rest with
               | [] => Ok (if neg then - digits_to_Z ds else digits_to_Z ds)
               | _ => invalid
               end
      end
  end.

(** [int(f)] for a float: towards zero. *)
Definition int_of_float (f : pyfloat) : res Z :=
  match f with
  | FFin neg m e =>
      let a := if 0 <=? e then m * 2 ^ e else m / 2 ^ (- e) in
      Ok (if neg then - a else a)
  | FInf _ => Err (OverflowError (py "cannot convert float infinity to integer"))
  | FNaN => Err (ValueError (py "cannot convert float NaN to integer"))
  end.

(** [int(v)] *)
Definition py_int (printable : Z -> bool) (v : pyval) : res Z :=
  match v with
  | PStr s => int_of_str printable s
  | PInt n => Ok n
  | PBool b => Ok (if b then 1 else 0)
  | PFloat f => int_of_float f
  | _ => Err (TypeError (py "int() argument must be a string, a bytes-like object or a real number, not '"
                         ++ type_name v ++ py "'"))
  end.

End PyInt.

(* ================================================================== *)
(** ** alma_ops/db.py: the spectral windows of a MOUS *)
(* ================================================================== *)

Module DbSpw.
Import PyFloat PyVal Store DbPy PyInt.

(** [get_spw_remap] (db.py 397-436): [None], or the dict [{int(k): int(v)}]. *)
Definition get_spw_remap (rt : runtime) (mous_id : pystr) (d : db) : res (option (list (Z * Z))) :=
  let? row := select_one TPipelineState (Some (py "raw_data_spectral_remap")) mous_id d in
  match row with
  | None => Ok None
  | Some r =>
      if negb (row_truthy r) then Ok None else
      let? value := row_get r (py "raw_data_spectral_remap") in
      match value with
      | SNull => Ok None
      | _ =>
          match Json.json_loads (rec_limit rt) (sql_to_py value) with
          | Err (JSONDecodeError _) => Err (ValueError (py "Invalid JSON in raw_data_spectral_remap"))
          | Err e => Err e
          | Ok (PDict kvs) =>
              let? m := fold_left (fun acc kv =>
                          let? m := acc in
                          let? k := py_int (is_printable rt) (fst kv) in
                          let? v := py_int (is_printable rt) (snd kv) in
                          Ok (dict_set Z.eqb k v m)) kvs (Ok []) in
              Ok (Some m)
          | Ok raw => Err (AttributeError (py "'" ++ type_name raw ++ py "' object has no attribute 'items'"))
          end
      end
  end.

(** [SELECT alma_source_name, obs_id FROM targets WHERE mous_id=?],
    all rows in table order. *)
Definition select_targets (mous_id : pystr) (d : db) : res (list (sqlval * sqlval)) :=
  let tb := t_targets d in
  let? i_src := resolve_col (cols tb) (py "alma_source_name") in
  let? i_obs := resolve_col (cols tb) (py "obs_id") in
  let? ki := resolve_col (cols tb) (py "mous_id") in
  let? _ := utf8_check mous_id in
  Ok (map (fun row => (nth i_src row SNull, nth i_obs row SNull))
          (filter (fun row => key_match (nth ki row SNull) mous_id) (rows tb))).

(** The longest prefix of decimal digits ([\d] of [re] on a [str]). *)
Fixpoint take_decimal (s : pystr) : pystr * pystr :=
  match s with
  | c :: r => if is_decimal c then let '(ds, rest) := take_decimal r in (c :: ds, rest)
              else ([], s)
  | [] => ([], [])
  end.

(** [re.compile(r"\.spw\.(\d+)$")] matched at the start of [s]: the
    greedy [\d+], then [$] (the end, or a final newline); the group. *)
Definition spw_match_at (s : pystr) : option pystr :=
  if startswith s (py ".spw.") then
    match take_decimal (skipn 5 s) with
    | ([], _) => None
    | (ds, []) | (ds, [10]) => Some ds
    | _ => None
    end
  else None.

(** [spw_pattern.search(s)]: the leftmost match, [m.group(1)]. *)
Fixpoint spw_search (s : pystr) : option pystr :=
  match spw_match_at s with
  | Some g => Some g
  | None => match s with [] => None | _ :: r => spw_search r end
  end.

(** [a * 2^e1 == b * 2^e2], exactly. *)
Definition exact_eq (a e1 b e2 : Z) : bool :=
  let e := Z.min e1 e2 in a * 2 ^ (e1 - e) =? b * 2 ^ (e2 - e).

Definition signed (neg : bool) (m : Z) : Z := if neg then - m else m.

(** [==] between a float and an int (CPython compares them exactly). *)
Definition float_eq_int (f : pyfloat) (x : Z) : bool :=
  match f with
  | FFin neg m e => exact_eq (signed neg m) e x 0
  | _ => false
  end.

(** [==] between two floats ([-0.0 == 0.0]). *)
Definition float_num_eq (f g : pyfloat) : bool :=
  match f, g with
  | FFin n1 m1 e1, FFin n2 m2 e2 => exact_eq (signed n1 m1) e1 (signed n2 m2) e2
  | FInf n1, FInf n2 => Bool.eqb n1 n2
  | _, _ => false
  end.

(** Dict key equality on the values [sqlite3] returns. *)
Definition sql_key_eqb (a b : sqlval) : bool :=
  match a, b with
  | SNull, SNull => true
  | SInt x, SInt y => x =? y
  | SInt x, SReal f | SReal f, SInt x => float_eq_int f x
  | SReal f, SReal g => float_num_eq f g
  | SText s, SText t => str_eqb s t
  | _, _ => false
  end.

(** [s.add(x)] on a set of ints kept in insertion order. *)
Definition set_add (l : list Z) (x : Z) : list Z :=
  if existsb (Z.eqb x) l then l else l ++ [x].

(** [spw_map.setdefault(source, set()).add(spw)] *)
Fixpoint setdefault_add (k : sqlval) (x : Z) (m : list (sqlval * list Z)) : list (sqlval * list Z) :=
  match m with
  | [] => [(k, [x])]
  | (k', l) :: r => if sql_key_eqb k' k then (k', set_add l x) :: r
                    else (k', l) :: setdefault_add k x r
  end.

(** [sorted] on ints. *)
Fixpoint insert_sorted (x : Z) (l : list Z) : list Z :=
  match l with
  | [] => [x]
  | y :: r => if x <=? y then x :: l else y :: insert_sorted x r
  end.

Definition sort_ints (l : list Z) : list Z := fold_right insert_sorted [] l.

(** [if spw_remap and spw in spw_remap: spw = spw_remap[spw]] *)
Definition apply_remap (remap : option (list (Z * Z))) (spw : Z) : Z :=
  match remap with
  | Some ((_ :: _) as r) => match dict_get Z.eqb spw r with Some v => v | None => spw end
  | _ => spw
  end.

(** [obs_id or ""] *)
Definition search_subject (obs_id : sqlval) : sqlval :=
  if truthy (sql_to_py obs_id) then obs_id else SText [].

(** One iteration of the loop over [rows]. *)
Definition spw_step (rt : runtime) (remap : option (list (Z * Z)))
  (acc : res (list (sqlval * list Z))) (row : sqlval * sqlval) : res (list (sqlval * list Z)) :=
  let? m := acc in
  let '(source, obs_id) := row in
  let subject := search_subject obs_id in
  match subject with
  | SText s =>
      match spw_search s with
      | None => Ok m
      | Some g =>
          let? spw := int_of_str (is_printable rt) g in
          Ok (setdefault_add source (apply_remap remap spw) m)
      end
  | _ => Err (TypeError (py "expected string or bytes-like object, got '"
                         ++ type_name (sql_to_py subject) ++ py "'"))
  end.

(** [get_mous_spw_mapping] (db.py 349-394) *)
Definition get_mous_spw_mapping (rt : runtime) (mous_id : pystr) (d : db)
  : res (list (sqlval * list Z)) :=
  let? rows := select_targets mous_id d in
  let? spw_remap := get_spw_remap rt mous_id d in
  let? spw_map := fold_left (spw_step rt spw_remap) rows (Ok []) in
  Ok (map (fun kv => (fst kv, sort_ints (snd kv))) spw_map).

(** The spectral window the loop adds for the target row
    [(source, obs_id)]: [int(m.group(1))], remapped. *)
Definition row_spw (rt : runtime) (remap : option (list (Z * Z))) (row : sqlval * sqlval)
  (n : Z) : Prop :=
  exists s g raw, search_subject (snd row) = SText s /\ spw_search s = Some g /\
    int_of_str (is_printable rt) g = Ok raw /\ n = apply_remap remap raw.

End DbSpw.

(* ================================================================== *)
(** ** The stage executor flows *)
(* ================================================================== *)

Module Flows.
Import PyFloat PyVal Store DbPy Validate PPath Config Monitor Utils DbSpw.

(** [json.dump(v, f, indent=4)] (the pure-Python encoder: separators
    [","] and [": "], [ensure_ascii], [allow_nan]); [lvl] is the current
    indentation level. *)
Definition newline_indent (lvl : nat) : pystr := 10 :: repeat 32 (4 * lvl).

Fixpoint json_dump_indent (lvl : nat) (v : pyval) : res pystr :=
  match v with
  | PList [] => Ok (py "[]")
  | PList xs =>
      let? parts := map_res (json_dump_indent (S lvl)) xs in
      Ok ([91] ++ newline_indent (S lvl) ++ join (44 :: newline_indent (S lvl)) parts
          ++ newline_indent lvl ++ [93])
  | PDict [] => Ok (py "{}")
  | PDict kvs =>
      let? parts := map_res (fun kv =>
                       let? k := encode_key (fst kv) in
                       let? v := json_dump_indent (S lvl) (snd kv) in
                       Ok (encode_basestring_ascii k ++ py ": " ++ v)) kvs in
      Ok ([123] ++ newline_indent (S lvl) ++ join (44 :: newline_indent (S lvl)) parts
          ++ newline_indent lvl ++ [125])
  | _ => json_dumps v
  end.

(** [for x in v] *)
Definition py_iter (v : pyval) : res (list pyval) :=
  match v with
  | PList xs => Ok xs
  | PStr s => Ok (map (fun c => PStr [c]) s)
  | PDict kvs => Ok (map fst kvs)
  | _ => Err (TypeError (py "'" ++ type_name v ++ py "' object is not iterable"))
  end.

(** [Path(v)] *)
Definition path_of_val (v : pyval) : res ppath :=
  match v with
  | PStr s => Ok (path_of_str s)
  | _ => Err (TypeError (py "expected str, bytes or os.PathLike object, not " ++ type_name v))
  end.

(** What the flows do outside the database, as the host answers it:
    [datetime.now().strftime(fmt)], [str(PROJECT_ROOT)] (config.py 15),
    [tempfile.mkdtemp(prefix, dir)], the outcome of a filesystem
    operation ([os.makedirs], [Path.mkdir], opening and writing a file),
    and the result of the [n]-th [session.create] call of a task. *)
Record env : Type := mk_env {
  env_strftime : pystr -> pystr;
  env_project_root : pystr;
  env_mkdtemp : pystr -> pystr -> res pystr;
  env_fs : effect -> res unit;
  env_session_create : nat -> pystr -> pystr -> pystr -> pystr -> res pyval
}.

Section Stages.
Variable rt : runtime.
Variable ev : env.

Definition pstr (v : pyval) : res pystr := PyRepr.py_str (is_printable rt) v.

(** A filesystem operation: logged when it succeeds. *)
Definition fs (fx : effect) : M unit :=
  fun w => match env_fs ev fx with
           | Ok _ => (Ok tt, mk_world (w_db w) (w_log w ++ [fx]))
           | Err e => (Err e, w)
           end.

(** A Prefect task with [retries=n] and [retry_delay_seconds=delay]:
    attempt [a] runs [task a]; a raised exception waits and retries. *)
Fixpoint with_retries {A} (n : nat) (a : nat) (delay : Z) (task : nat -> M A) : M A :=
  match n with
  | O => task a
  | S n' => fun w =>
      match task a w with
      | (Err _, w') => (emit (FxSleep delay) ;;; with_retries n' (S a) delay task) w'
      | ok => ok
      end
  end.

(** The body of a [launch_*_headless_session] task: [Session().create]
    and [if not job_id: raise RuntimeError]. *)
Definition headless_session (a : nat) (job_name img cmd args : pystr) : M pyval :=
  emit (FxSessionCreate job_name img cmd args) ;;;
  match env_session_create ev a job_name img cmd args with
  | Ok job_id => if truthy job_id then ret job_id
                 else raise (RuntimeError (py "Unsuccessful job launch."))
  | Err e => raise e
  end.

Definition root_path (parts : list pystr) : ppath :=
  fold_left path_div_s parts (path_of_str (env_project_root ev)).

Definition set_status (mous_id col : pystr) (label : string) : M unit :=
  update_pipeline_state_record rt mous_id [(col, PStr (py label))].

(** [json_write_payload] (both flows) *)
Definition json_write_payload (payload : pyval) (output_path : ppath) : M unit :=
  text <- lift (json_dump_indent O payload) ;;
  fs (FxWriteFile (path_str output_path) text).

(** [x or default] for an optional path argument: [None] and [""] take
    the default. *)
Definition or_default (o : option pystr) (dflt : pystr) : pystr :=
  match o with Some (_ :: _ as s) => s | _ => dflt end.

(** config.py 18-20: [DB_PATH] and [DATASETS_DIR], as [str]. *)
Definition DB_PATH : pystr := path_str (root_path [py "db"; py "serpens_main.db"]).
Definition DATASETS_DIR : pystr := path_str (root_path [py "datasets"]).

Definition script_path (parts : list pystr) : pystr :=
  to_platform_str (path_str (root_path (py "alma-sails-codebase" :: py "alma_ops" :: parts))).

Definition sp (parts : list pystr) : pystr := join [32] parts.

(** *** mous_download.py *)

(** [launch_download_headless_session] (mous_download.py 62-115), one attempt *)
Definition launch_download_headless_session (mous_id db_path job_name img cmd tmpdir : pystr)
  (url : pyval) (a : nat) : M pyval :=
  u <- lift (pstr url) ;;
  headless_session a job_name img cmd (sp [mous_id; db_path; tmpdir; u]).

(** [launch_download_job_task] (mous_download.py 118-189) *)
Definition launch_download_job_task (mous_id : pystr) (url : pyval) (download_dir db_path : pystr)
  : M (pyval * pystr) :=
  dir_id <- lift (to_dir_mous_id mous_id) ;;
  tmpdir <- lift (env_mkdtemp ev (dir_id ++ py "_") download_dir) ;;
  emit (FxMkdtemp tmpdir) ;;;
  fs (FxMakedirs tmpdir) ;;;
  let job_name := py "wget2-" ++ env_strftime ev (py "%Y%m%d_%H%M") in
  let platform_tmpdir := to_platform_str tmpdir in
  let run_download_script_filepath := script_path [py "downloads"; py "run_download.sh"] in
  let platform_db_path := to_platform_str db_path in
  update_pipeline_state_record rt mous_id [(py "mous_directory", PStr platform_tmpdir)] ;;;
  job_id <- with_retries 2 O 60 (launch_download_headless_session mous_id platform_db_path
              job_name WGET2_IMAGE run_download_script_filepath platform_tmpdir url) ;;
  j <- lift (getitem_0 job_id) ;;
  ret (j, tmpdir).

(** [download_mous_flow] (mous_download.py 325-402) *)
Definition download_mous_flow (mous_id : pystr) (db_path0 download_dir0 : option pystr) : M unit :=
  let db_path := or_default db_path0 DB_PATH in
  let download_dir := or_default download_dir0 DATASETS_DIR in
  v <- read_db (validate_mous_download_status mous_id) ;;
  let url := snd v in
  set_status mous_id (py "download_status") "in_progress" ;;;
  try_except (launch_download_job_task mous_id url download_dir db_path ;;; ret tt)
    (fun e => set_status mous_id (py "download_status") "error" ;;; raise e).

(** *** mous_split.py *)

(** The entries of [build_split_job_payload]'s task list, in order. *)
Definition split_entry (cp : pyval) (splits_dir spw_str data_column : pystr) : res pyval :=
  let? cp_s := pstr cp in
  let? p := path_of_val cp in
  let product_name := stem p in
  let out_ms := path_div_s (path_of_str splits_dir) (product_name ++ py "_targets.ms") in
  Ok (PDict [(PStr (py "task"), PStr (py "split"));
             (PStr (py "vis"), PStr cp_s);
             (PStr (py "outputvis"), PStr (path_str out_ms));
             (PStr (py "intent"), PStr (py "*OBSERVE_TARGET*"));
             (PStr (py "spw"), PStr spw_str);
             (PStr (py "datacolumn"), PStr data_column)]).

(** [build_split_job_payload] (mous_split.py 113-210): it only reads the
    database; the payload and the [outputvis] list. *)
Definition build_split_job_payload (mous_id platform_db_path : pystr) (calibrated_products : pyval)
  (mous_dir splits_dir : pystr) (d : db) : res (pyval * list pyval) :=
  let? spws := get_mous_spw_mapping rt mous_id d in
  match spws with
  | [] => Err (RuntimeError (py "No targets found for " ++ mous_id ++ py "."))
  | _ :: _ =>
      let? preferred_datacolumn :=
        get_pipeline_state_record_column_value rt mous_id (py "preferred_datacolumn") d in
      let? data_column := match preferred_datacolumn with
                          | PNone => Ok (py "data")
                          | v => pstr v
                          end in
      let? cps := py_iter calibrated_products in
      let? keys := map_res (fun kv => pstr (sql_to_py (fst kv))) spws in
      let spw_str := join [44] keys in
      let? tasks := map_res (fun cp => split_entry cp splits_dir spw_str data_column) cps in
      let payload := PDict [(PStr (py "mous_id"), PStr mous_id);
                            (PStr (py "db_path"), PStr platform_db_path);
                            (PStr (py "mous_dir"), PStr mous_dir);
                            (PStr (py "tasks"), PList tasks)] in
      let? outs := map_res (fun t => getitem_str t (py "outputvis")) tasks in
      Ok (payload, outs)
  end.

(** [launch_split_headless_session] (mous_split.py 318-377), one attempt *)
Definition launch_split_headless_session (mous_id db_path job_name img run_path terminal driver
  logfile json_payload_path : pystr) (a : nat) : M pyval :=
  headless_session a job_name img run_path
    (sp [mous_id; db_path; terminal; driver; logfile; json_payload_path]).

(** [launch_split_job_task] (mous_split.py 237-315) *)
Definition launch_split_job_task (mous_id db_path mous_dir img json_payload_path : pystr) : M pyval :=
  let job_name := py "casa-" ++ env_strftime ev (py "%Y%m%d-%H%M") ++ py "-splits" in
  let casa_logfile_name := py "casa-" ++ env_strftime ev (py "%Y%m%d-%H%M%S") ++ py "-splits.log" in
  let casa_logfile_path := path_div_s (path_of_str mous_dir) casa_logfile_name in
  dir_id <- lift (to_dir_mous_id mous_id) ;;
  let terminal := path_div_s (path_of_str mous_dir) (dir_id ++ py "_splits_terminal") in
  let run_path := script_path [py "splits"; py "run_split.sh"] in
  let driver := script_path [py "casa_driver.py"] in
  job_id <- with_retries 2 O 30 (launch_split_headless_session mous_id db_path job_name img run_path
              (path_str terminal) driver (path_str casa_logfile_path) json_payload_path) ;;
  lift (getitem_0 job_id).

(** [split_mous_flow] (mous_split.py 385-497) *)
Definition split_mous_flow (mous_id : pystr) (db_path0 download_dir0 : option pystr) : M unit :=
  let db_path := or_default db_path0 DB_PATH in
  let download_dir := or_default download_dir0 DATASETS_DIR in
  read_db (validate_mous_preselfcal_split_status mous_id) ;;;
  set_status mous_id (py "pre_selfcal_split_status") "in_progress" ;;;
  calibrated_products <- read_db (get_pipeline_state_record_column_value rt mous_id
                                    (py "calibrated_products")) ;;
  (if negb (truthy calibrated_products) then
     set_status mous_id (py "pre_selfcal_split_status") "error" ;;;
     raise (ValueError (py "No calibrated products found for MOUS " ++ mous_id ++ py " in database."))
   else ret tt) ;;;
  dir_id <- lift (to_dir_mous_id mous_id) ;;
  let vm_mous_dir := path_div_s (path_of_str download_dir) dir_id in
  let vm_splits_dir := path_div_s vm_mous_dir (py "splits") in
  fs (FxMkdir (path_str vm_splits_dir)) ;;;
  cps <- lift (to_platform_path (is_printable rt) calibrated_products) ;;
  r <- read_db (build_split_job_payload mous_id (to_platform_str db_path) cps
                  (to_platform_str (path_str vm_mous_dir)) (to_platform_str (path_str vm_splits_dir))) ;;
  let payload := fst r in
  let outputvis_path_list := snd r in
  let json_path := path_div_s vm_mous_dir (dir_id ++ py "_splits.json") in
  json_write_payload payload json_path ;;;
  update_pipeline_state_record rt mous_id [(py "split_products_path", PList outputvis_path_list)] ;;;
  try_except (launch_split_job_task mous_id (to_platform_str db_path)
                (to_platform_str (path_str vm_mous_dir)) CASA_IMAGE_PIPE
                (to_platform_str (path_str json_path)) ;;; ret tt)
    (fun e => set_status mous_id (py "pre_selfcal_split_status") "error" ;;; raise e).

(** *** mous_post_split_listobs.py *)

(** One entry of [build_listobs_job_payload]'s task list. *)
Definition listobs_entry (p : pyval) : res pyval :=
  let? ms_path := path_of_val p in
  let? listfile := with_suffix (is_printable rt) ms_path (suffix ms_path ++ py ".listobs.txt") in
  Ok (PDict [(PStr (py "task"), PStr (py "listobs"));
             (PStr (py "vis"), PStr (path_str ms_path));
             (PStr (py "listfile"), PStr (path_str listfile))]).

(** [build_listobs_job_payload] (mous_post_split_listobs.py 88-153) *)
Definition build_listobs_job_payload (mous_id platform_db_path platform_datasets_dir : pystr)
  (cal split : list pyval) : res pyval :=
  let? t1 := map_res listobs_entry cal in
  let? t2 := map_res listobs_entry split in
  Ok (PDict [(PStr (py "mous_id"), PStr mous_id);
             (PStr (py "db_path"), PStr platform_db_path);
             (PStr (py "datasets_dir"), PStr platform_datasets_dir);
             (PStr (py "tasks"), PList (t1 ++ t2))]).

(** [launch_headless_listobs_session] (mous_post_split_listobs.py 252-312), one attempt *)
Definition launch_headless_listobs_session (mous_id db_path job_name img run_path terminal
  logfile driver json_payload_path : pystr) (a : nat) : M pyval :=
  headless_session a job_name img run_path
    (sp [mous_id; db_path; terminal; driver; logfile; json_payload_path]).

(** [launch_listobs_job_task] (mous_post_split_listobs.py 172-249) *)
Definition launch_listobs_job_task (mous_id platform_db_path platform_mous_dir img
  json_payload_path : pystr) : M pyval :=
  let job_name := py "casa-" ++ env_strftime ev (py "%Y%m%d_%H%M") ++ py "-listobs" in
  let casa_logfile_name := py "casa-" ++ env_strftime ev (py "%Y%m%d-%H%M%S") ++ py "-listobs.log" in
  let casa_logfile_path := path_div_s (path_of_str platform_mous_dir) casa_logfile_name in
  dir_id <- lift (to_dir_mous_id mous_id) ;;
  let terminal := path_div_s (path_of_str platform_mous_dir) (dir_id ++ py "_listobs_terminal") in
  let run_path := script_path [py "listobs"; py "run_listobs.sh"] in
  let driver := script_path [py "casa_driver.py"] in
  job_id <- with_retries 2 O 30 (launch_headless_listobs_session mous_id platform_db_path job_name
              img run_path (path_str terminal) (path_str casa_logfile_path) driver json_payload_path) ;;
  lift (getitem_0 job_id).

(** [post_split_listobs_flow] (mous_post_split_listobs.py 320-413) *)
Definition post_split_listobs_flow (mous_id : pystr) (db_path0 datasets_dir0 : option pystr) : M unit :=
  let db_path := or_default db_path0 DB_PATH in
  let datasets_dir := or_default datasets_dir0 DATASETS_DIR in
  read_db (validate_mous_split_status mous_id) ;;;
  set_status mous_id (py "pre_selfcal_listobs_status") "in_progress" ;;;
  calibrated_products_path <- read_db (get_pipeline_state_record_column_value rt mous_id
                                         (py "calibrated_products")) ;;
  split_products_path <- read_db (get_pipeline_state_record_column_value rt mous_id
                                    (py "split_products_path")) ;;
  (if negb (truthy calibrated_products_path) then
     set_status mous_id (py "pre_selfcal_listobs_status") "error" ;;;
     raise (ValueError (py "No calibrated products for MOUS " ++ mous_id))
   else ret tt) ;;;
  (if negb (truthy split_products_path) then
     set_status mous_id (py "pre_selfcal_listobs_status") "error" ;;;
     raise (ValueError (py "No split products for MOUS " ++ mous_id))
   else ret tt) ;;;
  cal <- lift (py_iter calibrated_products_path) ;;
  cal' <- lift (map_res (to_platform_path (is_printable rt)) cal) ;;
  spl <- lift (py_iter split_products_path) ;;
  spl' <- lift (map_res (to_platform_path (is_printable rt)) spl) ;;
  payload <- lift (build_listobs_job_payload mous_id (to_platform_str db_path)
                     (to_platform_str datasets_dir) cal' spl') ;;
  dir_id <- lift (to_dir_mous_id mous_id) ;;
  let vm_mous_dir := path_div_s (path_of_str datasets_dir) dir_id in
  let json_path := path_div_s vm_mous_dir (dir_id ++ py "_listobs.json") in
  json_write_payload payload json_path ;;;
  try_except (launch_listobs_job_task mous_id (to_platform_str db_path)
                (to_platform_str (path_str vm_mous_dir)) CASA_IMAGE_PIPE
                (to_platform_str (path_str json_path)) ;;; ret tt)
    (fun e => set_status mous_id (py "pre_selfcal_listobs_status") "error" ;;; raise e).

End Stages.

(** *** alma_ops/casa_driver.py: the manifest consumer *)

(** A CASA task call: its name and its keyword arguments in order. *)
Definition casa_call : Type := (pystr * list (pystr * pyval))%type.

(** [task.get(k, dflt)] *)
Definition dict_get_str (v : pyval) (k : pystr) (dflt : pyval) : res pyval :=
  match v with
  | PDict kvs => match dict_get (fun k' _ => is_str k k') PNone kvs with
                 | Some x => Ok x
                 | None => Ok dflt
                 end
  | _ => Err (AttributeError (py "'" ++ type_name v ++ py "' object has no attribute 'get'"))
  end.

(** One iteration of the [for task in config["tasks"]] loop: the call it
    makes, if any.  The keyword arguments are evaluated left to right. *)
Definition casa_task (task : pyval) : res (option casa_call) :=
  let? name := getitem_str task (py "task") in
  if is_str (py "split") name then
    let? vis := getitem_str task (py "vis") in
    let? outputvis := getitem_str task (py "outputvis") in
    let? field := getitem_str task (py "field") in
    let? spw := getitem_str task (py "spw") in
    let? datacolumn := dict_get_str task (py "datacolumn") (PStr (py "data")) in
    Ok (Some (py "split", [(py "vis", vis); (py "outputvis", outputvis); (py "field", field);
                          (py "spw", spw); (py "datacolumn", datacolumn)]))
  else if is_str (py "listobs") name then
    let? vis := getitem_str task (py "vis") in
    let? listfile := getitem_str task (py "listfile") in
    let? verbose := dict_get_str task (py "verbose") (PBool true) in
    Ok (Some (py "listobs", [(py "vis", vis); (py "listfile", listfile); (py "verbose", verbose)]))
  else Ok None.

Fixpoint casa_tasks (ts : list pyval) : res (list casa_call) :=
  match ts with
  | [] => Ok []
  | t :: r => let? c := casa_task t in
              let? cs := casa_tasks r in
              Ok (match c with Some x => x :: cs | None => cs end)
  end.

(** The [__main__] block of casa_driver.py on the parsed payload [config]:
    the CASA calls in order, up to the first exception; the CASA tasks
    themselves are taken to return. *)
Definition casa_driver_run (config : pyval) : res (list casa_call) :=
  let? tasks := getitem_str config (py "tasks") in
  let? ts := py_iter tasks in
  casa_tasks ts.

(** [json.load(f)] of the manifest file's text, then the loop. *)
Definition casa_driver_main (rec_limit : nat) (text : pystr) : res (list casa_call) :=
  let? config := Json.json_loads rec_limit (PStr text) in
  casa_driver_run config.

End Flows.

(* ================================================================== *)
(** ** Artifact discovery: alma_ops/downloads/organize.py and the
       organize task of flows/mous_post_download_organize.py *)
(* ================================================================== *)

Module Organize.
Import PyVal Store PPath Utils Flows.

(** The directory tree under a walked directory: each directory lists its
    subdirectories (name and contents) in the order [os.scandir] yields
    them.  Files are never inspected by the code; a symbolic link to a
    directory, which [os.walk] lists in [dirs] but does not enter, is a
    directory without entries. *)
Inductive tree : Type := Node (subdirs : list (pystr * tree)).

Fixpoint depth (t : tree) : nat :=
  match t with
  | Node ds => S ((fix go (ds : list (pystr * tree)) : nat :=
                     match ds with [] => O | (_, s) :: r => Nat.max (depth s) (go r) end) ds)
  end.

(** [list.count]-free duplicate test on names. *)
Fixpoint nodupb (l : list pystr) : bool :=
  match l with
  | [] => true
  | x :: r => negb (existsb (str_eqb x) r) && nodupb r
  end.

(** The names of every directory are distinct, as on a file system. *)
Fixpoint names_unique (t : tree) : bool :=
  match t with
  | Node ds => nodupb (map fst ds) &&
               (fix go (ds : list (pystr * tree)) : bool :=
                  match ds with [] => true | (_, s) :: r => names_unique s && go r end) ds
  end.

(** [os.path.join(a, b)] (posixpath) *)
Definition os_path_join (a b : pystr) : pystr :=
  if startswith b [47] then b
  else if Nat.eqb (List.length a) 0 || endswith a [47] then a ++ b
  else a ++ [47] ++ b.

(** [d.endswith(".ms")] and [d == "weblog_restore"] *)
Definition is_ms (d : pystr) : bool := endswith d (py ".ms").
Definition is_weblog (d : pystr) : bool := str_eqb d (py "weblog_restore").

(** [dirs.remove(d)] *)
Fixpoint list_remove (x : pystr) (l : list pystr) : res (list pystr) :=
  match l with
  | [] => Err (ValueError (py "list.remove(x): x not in list"))
  | y :: r => if str_eqb y x then Ok r else let? r' := list_remove x r in Ok (y :: r')
  end.

(** [for d in list(dirs): ...] on one directory [root]: [copy] is what is
    left of [list(dirs)], [dirs] the list [os.walk] will descend into. *)
Fixpoint scan_dirs (root : pystr) (copy dirs : list pystr) (ms wb : list pystr)
  : res (list pystr * list pystr * list pystr) :=
  match copy with
  | [] => Ok (ms, wb, dirs)
  | d :: r =>
      if is_ms d then
        let? dirs' := list_remove d dirs in scan_dirs root r dirs' (ms ++ [os_path_join root d]) wb
      else if is_weblog d then
        let? dirs' := list_remove d dirs in scan_dirs root r dirs' ms (wb ++ [os_path_join root d])
      else scan_dirs root r dirs ms wb
  end.

(** The subdirectory [n] of a directory. *)
Fixpoint lookup (n : pystr) (ds : list (pystr * tree)) : option tree :=
  match ds with
  | [] => None
  | (m, s) :: r => if str_eqb m n then Some s else lookup n r
  end.

(** The [for root, dirs, files in os.walk(tmpdir)] loop (top-down): the
    body runs on [root], then [os.walk] descends into the names left in
    [dirs], in order; [ms] and [wb] are [ms_dirs] and [weblog_dirs].
    [fuel] bounds the depth ([os_walk] gives enough). *)
Fixpoint walk (fuel : nat) (root : pystr) (t : tree) (ms wb : list pystr)
  : res (list pystr * list pystr) :=
  match fuel with
  | O => Ok (ms, wb)
  | S f =>
      match t with
      | Node ds =>
          let dirs := map fst ds in
          let? r := scan_dirs root dirs dirs ms wb in
          let '(ms', wb', dirs') := r in
          fold_left (fun acc n =>
                       let? a := acc in
                       match lookup n ds with
                       | Some s => walk f (os_path_join root n) s (fst a) (snd a)
                       | None => Ok a
                       end) dirs' (Ok (ms', wb'))
      end
  end.

Definition os_walk (tmpdir : pystr) (t : tree) : res (list pystr * list pystr) :=
  walk (S (depth t)) tmpdir t [] [].

(** [<] on [str] (code point order). *)
Fixpoint str_ltb (a b : pystr) : bool :=
  match a, b with
  | [], [] => false
  | [], _ :: _ => true
  | _ :: _, [] => false
  | x :: a', y :: b' => (x <? y) || ((x =? y) && str_ltb a' b')
  end.

Fixpoint insert_str (x : pystr) (l : list pystr) : list pystr :=
  match l with
  | [] => [x]
  | y :: r => if str_ltb x y then x :: l else if str_eqb x y then l else y :: insert_str x r
  end.

(** [sorted(set(l))] *)
Definition sorted_set (l : list pystr) : list pystr := fold_right insert_str [] l.

Section Moves.
Variable ev : env.

(** [for x in xs: dest = dest_root / Path(x).name; shutil.move(x, dest);
    paths.append(str(dest))] *)
Fixpoint move_all (dest_root : ppath) (xs : list pystr) : M (list pystr) :=
  match xs with
  | [] => ret []
  | x :: r =>
      let dest := path_div_s dest_root (name (path_of_str x)) in
      fs ev (FxMove x (path_str dest)) ;;;
      rest <- move_all dest_root r ;;
      ret (path_str dest :: rest)
  end.

(** [organize_downloaded_files] (alma_ops/downloads/organize.py 9-73),
    with a [logger] given; its [log.warning] calls are effects.  The
    result is [(asdm_paths, moved_ms, moved_weblog, dest_root)]. *)
Definition organize_downloaded_files (mous_id tmpdir download_dir weblog_dir : pystr) (t : tree)
  : M (list pystr * bool * bool * ppath) :=
  mous_dir_name <- lift (to_dir_mous_id mous_id) ;;
  found <- lift (os_walk tmpdir t) ;;
  let ms_dirs := sorted_set (fst found) in
  let weblog_dirs := sorted_set (snd found) in
  let dest_root := path_div_s (path_of_str download_dir) mous_dir_name in
  fs ev (FxMkdir (path_str dest_root)) ;;;
  let weblog_dest_root :=
    path_div_s (path_div_s (path_of_str weblog_dir) mous_dir_name) (py "weblog_restore") in
  fs ev (FxMkdir (path_str weblog_dest_root)) ;;;
  asdm_paths <- (match ms_dirs with
                 | [] => emit (FxWarn (py "[" ++ mous_id ++ py "] No .ms directories found.")) ;;;
                         ret []
                 | _ :: _ => move_all dest_root ms_dirs
                 end) ;;
  (match weblog_dirs with
   | [] => emit (FxWarn (py "[" ++ mous_id ++ py "] No weblog_restore found."))
   | _ :: _ => move_all weblog_dest_root weblog_dirs ;;; ret tt
   end) ;;;
  ret (asdm_paths, negb (Nat.eqb (List.length ms_dirs) 0),
       negb (Nat.eqb (List.length weblog_dirs) 0), dest_root).

(** The task [organize_downloaded_files] of
    flows/mous_post_download_organize.py (56-121): the calibrated product
    paths. *)
Definition organize_downloaded_files_task (mous_id mous_dir tmpdir weblog_dir : pystr) (t : tree)
  : M (list pystr) :=
  found <- lift (os_walk tmpdir t) ;;
  let ms_dirs := sorted_set (fst found) in
  let weblog_dirs := sorted_set (snd found) in
  calibrate_products_paths <- move_all (path_of_str mous_dir) ms_dirs ;;
  move_all (path_of_str weblog_dir) weblog_dirs ;;;
  ret calibrate_products_paths.

End Moves.

(** A directory found by the walk, following the description rather
    than the loop: a subdirectory whose name satisfies [K], at any depth
    below directories that match neither test. *)
Inductive found (K : pystr -> bool) : pystr -> tree -> pystr -> Prop :=
| found_here : forall root ds n s,
    In (n, s) ds -> K n = true -> found K root (Node ds) (os_path_join root n)
| found_below : forall root ds n s p,
    In (n, s) ds -> is_ms n = false -> is_weblog n = false ->
    found K (os_path_join root n) s p -> found K root (Node ds) p.

End Organize.

(* ================================================================== *)
(** ** The values [json] writes and reads back *)
(* ================================================================== *)

Module JsonShape.
Import PyVal DbPy Json.

(** A code point that is a Unicode scalar value (no surrogate). *)
Definition is_scalar (c : Z) : bool := (0 <=? c) && (c <=? 1114111) && negb (is_surrogate c).

(** The values built from [None], [bool], [str] of scalar values, [list]
    and [dict] with distinct [str] keys. *)
Fixpoint json_ok (v : pyval) : bool :=
  match v with
  | PNone | PBool _ => true
  | PStr s => forallb is_scalar s
  | PList xs => (fix go (xs : list pyval) : bool :=
                   match xs with [] => true | x :: r => json_ok x && go r end) xs
  | PDict kvs => (fix go (kvs : list (pyval * pyval)) : bool :=
                    match kvs with
                    | [] => true
                    | (k, x) :: r =>
                        match k with PStr s => forallb is_scalar s | _ => false end
                        && negb (existsb (fun kv => str_key_eqb (fst kv) k) r)
                        && json_ok x && go r
                    end) kvs
  | _ => false
  end.

(** The nesting depth of containers. *)
Fixpoint json_depth (v : pyval) : nat :=
  match v with
  | PList xs => S ((fix go (xs : list pyval) : nat :=
                      match xs with [] => O | x :: r => Nat.max (json_depth x) (go r) end) xs)
  | PDict kvs => S ((fix go (kvs : list (pyval * pyval)) : nat :=
                       match kvs with [] => O | (_, x) :: r => Nat.max (json_depth x) (go r) end) kvs)
  | _ => O
  end.

(** The number of nodes, each item of a container counted once more. *)
Fixpoint json_size (v : pyval) : nat :=
  match v with
  | PList xs => S ((fix go (xs : list pyval) : nat :=
                      match xs with [] => O | x :: r => S (json_size x + go r) end) xs)
  | PDict kvs => S ((fix go (kvs : list (pyval * pyval)) : nat :=
                       match kvs with [] => O | (_, x) :: r => S (json_size x + go r) end) kvs)
  | _ => 1
  end.

(** The first characters of the encoder's output for these values. *)
Definition json_heads : list Z := [110; 116; 102; 34; 91; 123].

End JsonShape.

(* ================================================================== *)
(** ** Facts about the string primitives *)
(* ================================================================== *)

Module PyStrFacts.

Lemma startswith_app : forall p t, startswith (p ++ t) p = true.
Proof. induction p as [|x p IH]; intros t; simpl; [reflexivity|].
  rewrite Z.eqb_refl, IH. reflexivity. Qed.

Lemma startswith_in : forall p s x,
  startswith s p = true -> In x p -> In x s.
Proof.
  induction p as [|y p IH]; intros s x Hs Hin; [destruct Hin|].
  destruct s as [|z s]; simpl in Hs; [discriminate|].
  apply andb_true_iff in Hs as [Hyz Hs]. apply Z.eqb_eq in Hyz. subst z.
  destruct Hin as [<-|Hin]; [left; reflexivity | right; exact (IH s x Hs Hin)].
Qed.

Lemma replace_go_skip : forall old new x t,
  replace_go old new (List.length x) (x ++ t) = replace_go old new O t.
Proof. intros old new x; induction x as [|y x IH]; intros t; simpl; auto. Qed.

Lemma replace_go_prefix : forall old new t, old <> [] ->
  replace_go old new O (old ++ t) = new ++ replace_go old new O t.
Proof.
  intros old new t Hne. destruct old as [|o os]; [congruence|].
  cbn [app replace_go].
  pose proof (startswith_app (o :: os) t) as E. cbn [app] in E. rewrite E.
  cbn [List.length pred]. rewrite replace_go_skip. reflexivity.
Qed.

Lemma replace_go_absent_char : forall old new x t,
  In x old -> ~ In x t -> replace_go old new O t = t.
Proof.
  intros old new x t Hx. induction t as [|c r IH]; intros Ht; [reflexivity|].
  simpl. destruct (startswith (c :: r) old) eqn:E.
  - exfalso. exact (Ht (startswith_in old (c :: r) x E Hx)).
  - f_equal. apply IH. intros H; apply Ht; right; exact H.
Qed.

Lemma no_uu_app : forall a s, (forall x, In x a -> x <> 95) ->
  no_uu s = true -> no_uu (a ++ s) = true.
Proof.
  induction a as [|x a IH]; intros s Ha Hs; simpl; [exact Hs|].
  assert (Hx : (x =? 95) = false) by (apply Z.eqb_neq; apply Ha; left; auto).
  rewrite Hx. simpl. apply IH; auto. intros y Hy; apply Ha; right; auto.
Qed.

Lemma no_uu_us : forall y s, y <> 95 -> no_uu (y :: s) = true ->
  no_uu (95 :: y :: s) = true.
Proof.
  intros y s Hy Hs.
  change (no_uu (95 :: y :: s)) with (negb ((95 =? 95) && (y =? 95)) && no_uu (y :: s)).
  rewrite (proj2 (Z.eqb_neq y 95) Hy). simpl. exact Hs.
Qed.

Lemma replace_go_uid_dir : forall new t, no_uu t = true ->
  replace_go [117; 105; 100; 95; 95; 95] new O t = t.
Proof.
  intros new t. induction t as [|c r IH]; intros Ht; [reflexivity|].
  cbn [replace_go]. destruct (startswith (c :: r) [117; 105; 100; 95; 95; 95]) eqn:E.
  - exfalso.
    do 5 (destruct r as [|? r]; [simpl in E; rewrite ?andb_false_r in E; discriminate|]).
    cbn [startswith] in E. rewrite !andb_true_iff in E.
    destruct E as (_ & _ & _ & E4 & E5 & _).
    apply Z.eqb_eq in E4. apply Z.eqb_eq in E5. subst.
    cbn [no_uu] in Ht. rewrite !andb_true_iff in Ht.
    destruct Ht as (_ & _ & _ & H & _). simpl in H. discriminate.
  - f_equal. apply IH. cbn [no_uu] in Ht. apply andb_true_iff in Ht. tauto.
Qed.

Lemma split_go_char : forall c x cur rest, (forall y, In y x -> y <> c) ->
  split_go [c] O cur (x ++ rest) = split_go [c] O (rev x ++ cur) rest.
Proof.
  intros c x. induction x as [|y x IH]; intros cur rest Hx; [reflexivity|].
  cbn [app split_go startswith].
  assert (Hy : (c =? y) = false) by (apply Z.eqb_neq; intros E; apply (Hx y); [left; reflexivity | symmetry; exact E]).
  rewrite Hy. simpl. rewrite IH by (intros z Hz; apply Hx; right; auto).
  rewrite <- app_assoc. reflexivity.
Qed.

Lemma split_three : forall c a b d,
  (forall y, In y a -> y <> c) -> (forall y, In y b -> y <> c) ->
  (forall y, In y d -> y <> c) ->
  split [c] (a ++ [c] ++ b ++ [c] ++ d) = [a; b; d].
Proof.
  intros c a b d Ha Hb Hd. unfold split.
  rewrite split_go_char by exact Ha. cbn [app split_go startswith].
  rewrite Z.eqb_refl. cbn [andb List.length pred].
  rewrite split_go_char by exact Hb. cbn [app split_go startswith].
  rewrite Z.eqb_refl. cbn [andb List.length pred].
  rewrite <- (app_nil_r d) at 1. rewrite split_go_char by exact Hd.
  cbn [split_go]. rewrite !app_nil_r, !rev_involutive. reflexivity.
Qed.

Lemma lstrip_nonspace : forall c r, is_space c = false -> lstrip (c :: r) = c :: r.
Proof. intros c r H. simpl. rewrite H. reflexivity. Qed.

Lemma rstrip_nonspace_last : forall p z, is_space z = false ->
  rstrip (p ++ [z]) = p ++ [z].
Proof.
  intros p z H. unfold rstrip. rewrite rev_app_distr. simpl.
  rewrite H. simpl. rewrite rev_involutive. reflexivity.
Qed.

End PyStrFacts.

Module UtilsFacts.
Import Utils PyStrFacts.

Lemma alnum_bounds : forall x, is_alnum x = true ->
  48 <= x <= 122 /\ x <> 58 /\ x <> 95 /\ x <> 47.
Proof.
  intros x H. unfold is_alnum in H.
  rewrite !orb_true_iff, !andb_true_iff, !Z.leb_le in H. lia.
Qed.

Lemma alnum_not_space : forall x, is_alnum x = true -> is_space x = false.
Proof.
  intros x H. apply alnum_bounds in H. unfold is_space.
  assert (A : (x <=? 13) = false) by (apply Z.leb_gt; lia).
  assert (B : (x <=? 32) = false) by (apply Z.leb_gt; lia).
  assert (C : (8192 <=? x) = false) by (apply Z.leb_gt; lia).
  rewrite A, B, C, !andb_false_r, andb_false_l.
  repeat match goal with |- context [x =? ?b] => destruct (Z.eqb_spec x b); [lia|] end.
  reflexivity.
Qed.

Lemma valid_part_spec : forall p, valid_part p = true ->
  p <> [] /\ forall x, In x p -> is_alnum x = true.
Proof.
  intros p H. unfold valid_part in H. apply andb_true_iff in H as [H1 H2].
  split.
  - intros ->. discriminate.
  - apply forallb_forall. exact H2.
Qed.

Lemma valid_part_not : forall p y, valid_part p = true -> y = 58 \/ y = 95 \/ y = 47 ->
  forall x, In x p -> x <> y.
Proof.
  intros p y Hp Hy x Hx ->. apply valid_part_spec in Hp as [_ Hp].
  apply Hp, alnum_bounds in Hx. lia.
Qed.

Lemma py_uid_db : py "uid://" = [117; 105; 100; 58; 47; 47].
Proof. reflexivity. Qed.
Lemma py_uid_dir : py "uid___" = [117; 105; 100; 95; 95; 95].
Proof. reflexivity. Qed.
Lemma py_slash : py "/" = [47].
Proof. reflexivity. Qed.
Lemma py_us : py "_" = [95].
Proof. reflexivity. Qed.
Lemma py_empty : py "" = [].
Proof. reflexivity. Qed.

Lemma strip_form : forall pre c, pre <> [] -> is_space (hd 0 pre) = false ->
  valid_part c = true -> strip (pre ++ c) = pre ++ c.
Proof.
  intros pre c Hpre Hhd Hc. apply valid_part_spec in Hc as [Hne Hc].
  unfold strip. destruct pre as [|p0 pre]; [congruence|].
  simpl in Hhd. cbn [app]. rewrite lstrip_nonspace by exact Hhd.
  destruct (exists_last Hne) as (c' & z & ->).
  rewrite app_comm_cons, app_assoc. apply rstrip_nonspace_last.
  apply alnum_not_space, Hc, in_or_app. right; left; reflexivity.
Qed.

Lemma strip_db_form : forall a b c, valid_part c = true ->
  strip (db_form a b c) = db_form a b c.
Proof.
  intros a b c Hc.
  assert (E : db_form a b c = ([117; 105; 100; 58; 47; 47] ++ a ++ [47] ++ b ++ [47]) ++ c)
    by (unfold db_form; rewrite py_uid_db, py_slash, <- !app_assoc; reflexivity).
  rewrite E. apply strip_form; [discriminate | reflexivity | exact Hc].
Qed.

Lemma strip_dir_form : forall a b c, valid_part c = true ->
  strip (dir_form a b c) = dir_form a b c.
Proof.
  intros a b c Hc.
  assert (E : dir_form a b c = ([117; 105; 100; 95; 95; 95] ++ a ++ [95] ++ b ++ [95]) ++ c)
    by (unfold dir_form; rewrite py_uid_dir, py_us, <- !app_assoc; reflexivity).
  rewrite E. apply strip_form; [discriminate | reflexivity | exact Hc].
Qed.

Lemma no_uu_parts : forall a b c, valid_part a = true -> valid_part b = true ->
  valid_part c = true -> no_uu (a ++ [95] ++ b ++ [95] ++ c) = true.
Proof.
  intros a b c Ha Hb Hc.
  pose proof (valid_part_not a 95 Ha (or_intror (or_introl eq_refl))) as Na.
  pose proof (valid_part_not b 95 Hb (or_intror (or_introl eq_refl))) as Nb.
  pose proof (valid_part_not c 95 Hc (or_intror (or_introl eq_refl))) as Nc.
  apply valid_part_spec in Hb as [Hbne _]. apply valid_part_spec in Hc as [Hcne _].
  apply no_uu_app; [exact Na|].
  destruct b as [|y b]; [congruence|]. cbn [app]. apply no_uu_us; [apply Nb; left; auto|].
  apply (no_uu_app (y :: b)); [exact Nb|].
  destruct c as [|z c]; [congruence|]. cbn [app]. apply no_uu_us; [apply Nc; left; auto|].
  rewrite <- (app_nil_r (z :: c)). apply no_uu_app; [exact Nc | reflexivity].
Qed.

Lemma to_db_of_db : forall a b c, valid_part c = true ->
  to_db_mous_id (db_form a b c) = Ok (db_form a b c).
Proof.
  intros a b c Hc. unfold to_db_mous_id. rewrite strip_db_form by exact Hc.
  unfold db_form at 1. rewrite startswith_app. reflexivity.
Qed.

Lemma to_dir_of_dir : forall a b c, valid_part c = true ->
  to_dir_mous_id (dir_form a b c) = Ok (dir_form a b c).
Proof.
  intros a b c Hc. unfold to_dir_mous_id. rewrite strip_dir_form by exact Hc.
  unfold dir_form at 1. rewrite startswith_app. reflexivity.
Qed.

Lemma not_in_parts : forall a b c y s, valid_part a = true -> valid_part b = true ->
  valid_part c = true -> y = 58 \/ y = 95 \/ y = 47 -> ~ In y s -> (s = [47] \/ s = [95]) ->
  ~ In y (a ++ s ++ b ++ s ++ c).
Proof.
  intros a b c y s Ha Hb Hc Hy Hs _ Hin. rewrite !in_app_iff in Hin.
  destruct Hin as [H|[H|[H|[H|H]]]].
  - exact (valid_part_not a y Ha Hy y H eq_refl).
  - exact (Hs H).
  - exact (valid_part_not b y Hb Hy y H eq_refl).
  - exact (Hs H).
  - exact (valid_part_not c y Hc Hy y H eq_refl).
Qed.

Lemma to_dir_of_db : forall a b c, valid_part a = true -> valid_part b = true ->
  valid_part c = true -> to_dir_mous_id (db_form a b c) = Ok (dir_form a b c).
Proof.
  intros a b c Ha Hb Hc. unfold to_dir_mous_id. rewrite strip_db_form by exact Hc.
  set (t := a ++ [47] ++ b ++ [47] ++ c).
  assert (E : db_form a b c = [117; 105; 100; 58; 47; 47] ++ t)
    by (unfold db_form, t; rewrite py_uid_db, py_slash; reflexivity).
  rewrite E, py_uid_dir, py_uid_db, py_empty.
  replace (startswith ([117; 105; 100; 58; 47; 47] ++ t) [117; 105; 100; 95; 95; 95])
    with false by reflexivity.
  rewrite startswith_app. unfold replace.
  rewrite replace_go_prefix by discriminate. rewrite app_nil_l.
  rewrite (replace_go_absent_char _ _ 58 t) by
    (simpl; tauto || (apply not_in_parts; auto; simpl; lia)).
  unfold t. rewrite py_slash, split_three.
  - unfold dir_form. rewrite py_uid_dir, py_us. reflexivity.
  - exact (valid_part_not a 47 Ha (or_intror (or_intror eq_refl))).
  - exact (valid_part_not b 47 Hb (or_intror (or_intror eq_refl))).
  - exact (valid_part_not c 47 Hc (or_intror (or_intror eq_refl))).
Qed.

Lemma to_db_of_dir : forall a b c, valid_part a = true -> valid_part b = true ->
  valid_part c = true -> to_db_mous_id (dir_form a b c) = Ok (db_form a b c).
Proof.
  intros a b c Ha Hb Hc. unfold to_db_mous_id. rewrite strip_dir_form by exact Hc.
  set (t := a ++ [95] ++ b ++ [95] ++ c).
  assert (E : dir_form a b c = [117; 105; 100; 95; 95; 95] ++ t)
    by (unfold dir_form, t; rewrite py_uid_dir, py_us; reflexivity).
  rewrite E, py_uid_dir, py_uid_db, py_empty.
  replace (startswith ([117; 105; 100; 95; 95; 95] ++ t) [117; 105; 100; 58; 47; 47])
    with false by reflexivity.
  rewrite startswith_app. unfold replace.
  rewrite replace_go_prefix by discriminate. rewrite app_nil_l.
  rewrite replace_go_uid_dir by exact (no_uu_parts a b c Ha Hb Hc).
  unfold t. rewrite py_us, split_three.
  - unfold db_form. rewrite py_uid_db, py_slash. reflexivity.
  - exact (valid_part_not a 95 Ha (or_intror (or_introl eq_refl))).
  - exact (valid_part_not b 95 Hb (or_intror (or_introl eq_refl))).
  - exact (valid_part_not c 95 Hc (or_intror (or_introl eq_refl))).
Qed.

(** Claim C8: for every valid MOUS ID [a], [b], [c] (non-empty alphanumeric
    components), in either encoding [x] ([uid://a/b/c] or [uid___a_b_c]),
    converting to the database form and then to the directory form gives
    the same result as converting to the directory form directly, and
    vice versa; and each converter returns an ID already in its target
    form unchanged. *)
Theorem mous_id_roundtrip : forall a b c,
  valid_part a = true -> valid_part b = true -> valid_part c = true ->
  (forall x, x = db_form a b c \/ x = dir_form a b c ->
     res_bind (to_db_mous_id x) to_dir_mous_id = to_dir_mous_id x
     /\ res_bind (to_dir_mous_id x) to_db_mous_id = to_db_mous_id x)
  /\ to_db_mous_id (db_form a b c) = Ok (db_form a b c)
  /\ to_dir_mous_id (dir_form a b c) = Ok (dir_form a b c).
Proof.
  intros a b c Ha Hb Hc.
  pose proof (to_db_of_db a b c Hc) as E1. pose proof (to_dir_of_dir a b c Hc) as E2.
  pose proof (to_dir_of_db a b c Ha Hb Hc) as E3. pose proof (to_db_of_dir a b c Ha Hb Hc) as E4.
  split; [|split; assumption].
  intros x [-> | ->].
  - rewrite E1, E3. cbn [res_bind]. rewrite ?E3, ?E4. split; reflexivity.
  - rewrite E4, E2. cbn [res_bind]. rewrite ?E3, ?E4. split; reflexivity.
Qed.

Lemma mous_id_roundtrip_witness :
  valid_part (py "A001") = true /\ valid_part (py "X123") = true
  /\ valid_part (py "Xabc") = true
  /\ to_db_mous_id (dir_form (py "A001") (py "X123") (py "Xabc"))
     = Ok (db_form (py "A001") (py "X123") (py "Xabc")).
Proof.
  refine (conj eq_refl (conj eq_refl (conj eq_refl _))).
  destruct (mous_id_roundtrip (py "A001") (py "X123") (py "Xabc")
              eq_refl eq_refl eq_refl) as [H _].
  destruct (H (dir_form (py "A001") (py "X123") (py "Xabc")) (or_intror eq_refl)) as [_ H2].
  rewrite <- H2. reflexivity.
Defined.

End UtilsFacts.

Example to_db_example :
  Utils.to_db_mous_id (py " uid___A001_X123_Xabc ")
  = Ok (py "uid://A001/X123/Xabc").
Proof. vm_compute. reflexivity. Qed.

Example to_dir_example :
  Utils.to_dir_mous_id (py "uid://A001/X123/Xabc")
  = Ok (py "uid___A001_X123_Xabc").
Proof. vm_compute. reflexivity. Qed.


(* ================================================================== *)
(** ** Facts about the database updates *)
(* ================================================================== *)

Module DbFacts.
Import PyFloat PyVal Store DbPy.

Lemma list_set_length {A} (l : list A) i v : List.length (list_set l i v) = List.length l.
Proof. revert i; induction l as [|x r IH]; intros [|i]; simpl; auto. Qed.

Lemma list_set_other {A} (l : list A) i v j :
  i <> j -> nth_error (list_set l i v) j = nth_error l j.
Proof.
  revert i j; induction l as [|x r IH]; intros [|i] [|j] Hij; simpl; auto.
  all: try congruence.
  all: apply IH; congruence.
Qed.

Lemma assign_row_length assigns row :
  List.length (assign_row assigns row) = List.length row.
Proof.
  unfold assign_row. revert row; induction assigns as [|a r IH]; intros row; simpl; auto.
  rewrite IH. apply list_set_length.
Qed.

Lemma assign_row_other assigns row j :
  ~ In j (map fst assigns) -> nth_error (assign_row assigns row) j = nth_error row j.
Proof.
  unfold assign_row. revert row; induction assigns as [|a r IH]; intros row Hj; simpl; auto.
  simpl in Hj. rewrite IH by tauto. apply list_set_other. tauto.
Qed.

Lemma combine_fst_in {A B} (l : list A) (l' : list B) x :
  In x (map fst (combine l l')) -> In x l.
Proof.
  revert l'; induction l as [|a r IH]; intros [|b l'] H; simpl in *; try tauto.
  destruct H as [H | H]; [left; exact H | right; exact (IH _ H)].
Qed.

Lemma map_res_resolve_in cs keys idxs :
  map_res (resolve_col cs) keys = Ok idxs ->
  forall i, In i idxs -> exists k, In k keys /\ find_col k O cs = Some i.
Proof.
  revert idxs; induction keys as [|k ks IH]; intros idxs H i Hi; simpl in H.
  - inversion H; subst. destruct Hi.
  - unfold resolve_col at 1 in H.
    destruct (find_col k O cs) as [i0|] eqn:Ek; cbn [res_bind] in H; [|discriminate].
    destruct (map_res (resolve_col cs) ks) as [is|e] eqn:Er; cbn [res_bind] in H; [|discriminate].
    inversion H; subst. destruct Hi as [<- | Hi].
    + exists k. split; [left; reflexivity | exact Ek].
    + destruct (IH is eq_refl i Hi) as [k' [Hk' Ek']]. exists k'. split; [right; exact Hk' | exact Ek'].
Qed.

Lemma not_named_not_in cs keys j idxs :
  map_res (resolve_col cs) keys = Ok idxs -> named_col cs keys j = false -> ~ In j idxs.
Proof.
  intros H Hn Hj. destruct (map_res_resolve_in cs keys idxs H j Hj) as [k [Hk Ek]].
  unfold named_col in Hn.
  assert (existsb (fun k => match find_col k O cs with Some i => Nat.eqb i j | None => false end)
            keys = true) as Ht.
  { apply existsb_exists. exists k. split; [exact Hk|]. rewrite Ek. apply Nat.eqb_refl. }
  congruence.
Qed.

Lemma get_set_same d t tb : get_table (set_table d t tb) t = tb.
Proof. destruct t; reflexivity. Qed.

Lemma get_set_other d t t' tb : t' <> t -> get_table (set_table d t tb) t' = get_table d t'.
Proof. destruct t, t'; simpl; congruence. Qed.

Lemma row_frame_refl cs keys mous_id row : row_frame cs keys mous_id row row.
Proof. repeat split; auto. Qed.

Lemma Forall2_refl_of {A} (R : A -> A -> Prop) l : (forall x, R x x) -> Forall2 R l l.
Proof. intros H; induction l; constructor; auto. Qed.

Lemma Forall2_map_r {A} (R : A -> A -> Prop) (f : A -> A) l :
  (forall x, In x l -> R x (f x)) -> Forall2 R l (map f l).
Proof.
  induction l as [|x r IH]; intros H; simpl; constructor.
  - apply H; left; reflexivity.
  - apply IH; intros y Hy; apply H; right; exact Hy.
Qed.

(** The statement run on plain names changes only the named columns of
    the selected rows of its own table. *)
Lemma exec_update_frame t keys vals mous_id d d' :
  exec_update t keys vals mous_id d = Ok d' ->
  (forall t', t' <> t -> get_table d' t' = get_table d t') /\
  cols (get_table d' t) = cols (get_table d t) /\
  Forall2 (row_frame (cols (get_table d t)) keys mous_id) (rows (get_table d t)) (rows (get_table d' t)).
Proof.
  unfold exec_update.
  destruct (map_res (resolve_col (cols (get_table d t))) keys) as [idxs|e] eqn:Hidx;
    cbn [res_bind]; [|discriminate].
  destruct (resolve_col (cols (get_table d t)) (py "mous_id")) as [ki|e] eqn:Hki;
    cbn [res_bind]; [|discriminate].
  destruct (bind_params (vals ++ [PStr mous_id])) as [bound|e]; cbn [res_bind]; [|discriminate].
  intros H; inversion H; subst d'; clear H.
  split; [intros t' Ht'; apply get_set_other; exact Ht'|].
  rewrite get_set_same. simpl. split; [reflexivity|].
  apply Forall2_map_r. intros row _.
  unfold resolve_col in Hki.
  destruct (find_col (py "mous_id") O (cols (get_table d t))) as [ki'|] eqn:Ek; [|discriminate].
  inversion Hki; subst ki'; clear Hki.
  unfold row_frame, row_matches. rewrite Ek.
  destruct (key_match (nth ki row SNull) mous_id).
  - split; [apply assign_row_length|]. split; [discriminate|].
    intros j Hj. apply assign_row_other. intros Hin.
    apply (not_named_not_in _ _ j idxs Hidx Hj). exact (combine_fst_in _ _ _ Hin).
  - repeat split; auto.
Qed.

Lemma serialize_keys fields ser :
  map_res serialize fields = Ok ser -> map fst ser = map fst fields.
Proof.
  revert ser; induction fields as [|[k v] r IH]; intros ser H; simpl in H.
  - inversion H; reflexivity.
  - destruct (serialize (k, v)) as [[k' v']|e] eqn:Es; cbn [res_bind] in H; [|discriminate].
    destruct (map_res serialize r) as [ser'|e] eqn:Er; cbn [res_bind] in H; [|discriminate].
    inversion H; subst. simpl. rewrite (IH ser' eq_refl).
    f_equal. unfold serialize in Es. simpl in Es.
    destruct v; try (inversion Es; reflexivity);
      destruct (json_dumps _); cbn [res_bind] in Es; inversion Es; reflexivity.
Qed.

(** C9: updating a [pipeline_state] (or [mous]) record, with fields whose
    names are plain column names, changes nothing but the named columns
    of the rows of that table whose [mous_id] matches: the other tables,
    the column list, the number of rows, every other row and every other
    column of the matched rows are unchanged; a raised exception leaves
    the database (and the log) untouched; and with no field at all the
    world is not touched. *)
Theorem update_record_frame rt t mous_id fields w :
  forallb plain_column_name (map fst fields) = true ->
  let '(r, w') := update_record rt t mous_id fields w in
  let tb := get_table (w_db w) t in
  let tb' := get_table (w_db w') t in
  (fields = [] -> w' = w) /\
  (forall e, r = Err e -> w' = w) /\
  (forall t', t' <> t -> get_table (w_db w') t' = get_table (w_db w) t') /\
  cols tb' = cols tb /\
  Forall2 (row_frame (cols tb) (map fst fields) mous_id) (rows tb) (rows tb').
Proof.
  intros Hplain.
  assert (Hid : (forall e : exn, (Err e : res unit) = Err e -> w = w) /\
    (forall t', t' <> t -> get_table (w_db w) t' = get_table (w_db w) t') /\
    cols (get_table (w_db w) t) = cols (get_table (w_db w) t) /\
    Forall2 (row_frame (cols (get_table (w_db w) t)) (map fst fields) mous_id)
      (rows (get_table (w_db w) t)) (rows (get_table (w_db w) t))).
  { split; [auto|]. split; [auto|]. split; [reflexivity|].
    apply Forall2_refl_of. apply row_frame_refl. }
  destruct Hid as [_ [Ho [Hc Hr]]].
  unfold update_record.
  destruct (kwarg_clash t fields) as [e|].
  { simpl. split; [auto|]. split; [auto|]. split; [exact Ho|]. split; [exact Hc | exact Hr]. }
  destruct fields as [|f fs] eqn:Hf.
  { simpl. split; [auto|]. split; [intros e H; discriminate|].
    split; [exact Ho|]. split; [exact Hc | exact Hr]. }
  rewrite <- Hf in *.
  destruct (map_res serialize fields) as [ser|e] eqn:Hs.
  2:{ split; [auto|]. split; [auto|]. split; [exact Ho|]. split; [exact Hc | exact Hr]. }
  pose proof (serialize_keys fields ser Hs) as Hk.
  rewrite Hk, Hplain.
  destruct (exec_update t (map fst fields) (map snd ser) mous_id (w_db w)) as [d'|e] eqn:He.
  2:{ simpl. split; [auto|]. split; [auto|]. split; [exact Ho|]. split; [exact Hc | exact Hr]. }
  simpl. split; [intros H; rewrite Hf in H; discriminate|].
  split; [intros e H; discriminate|].
  exact (exec_update_frame _ _ _ _ _ _ He).
Qed.

(** A run of [update_record_frame]: two fields of one of two rows. *)
Lemma update_record_frame_witness :
  let tb := mk_table [py "mous_id"; py "download_status"; py "mous_directory"]
              [[SText (py "A"); SText (py "pending"); SNull];
               [SText (py "B"); SText (py "pending"); SNull]] in
  let w := mk_world (mk_db tb (mk_table [] []) (mk_table [] [])) [] in
  let rt := mk_runtime 1000 (fun _ _ d => Ok d) (fun _ => true) in
  let fields := [(py "download_status", PStr (py "in_progress"));
                 (py "mous_directory", PStr (py "/tmp/x"))] in
  forallb plain_column_name (map fst fields) = true /\
  (let '(r, w') := update_record rt TPipelineState (py "A") fields w in
   let tb := get_table (w_db w) TPipelineState in
   let tb' := get_table (w_db w') TPipelineState in
   (fields = [] -> w' = w) /\
   (forall e, r = Err e -> w' = w) /\
   (forall t', t' <> TPipelineState -> get_table (w_db w') t' = get_table (w_db w) t') /\
   cols tb' = cols tb /\
   Forall2 (row_frame (cols tb) (map fst fields) (py "A")) (rows tb) (rows tb')).
Proof.
  intros tb w rt fields. split.
  - vm_compute. reflexivity.
  - apply update_record_frame. vm_compute. reflexivity.
Defined.

(** C10: the column getter raises on a malformed stored text.  A
    [pipeline_state] row whose column holds 4301 digits followed by [x]
    (not a JSON document) makes [json.loads] raise the plain [ValueError]
    of the integer-digit limit, which [parse_json_safe] does not catch:
    the getter raises instead of returning the raw text. *)
Theorem column_getter_raises_on_digit_limit rt :
  (1 <= rec_limit rt)%nat ->
  get_pipeline_state_record_column_value rt (py "A") (py "calibrated_products")
    (mk_db (mk_table [py "mous_id"; py "calibrated_products"]
              [[SText (py "A"); SText (repeat 49 4301 ++ [120])]])
           (mk_table [] []) (mk_table [] []))
  = Err (ValueError (py "Exceeds the limit (4300 digits) for integer string conversion: value has 4301 digits; use sys.set_int_max_str_digits() to increase the limit")).
Proof.
  intros H. destruct rt as [[|n] so pr]; simpl in H; [lia|].
  vm_compute. reflexivity.
Qed.

(** A run of [column_getter_raises_on_digit_limit] at the default
    recursion limit. *)
Lemma column_getter_raises_on_digit_limit_witness :
  (1 <= rec_limit (mk_runtime 1000 (fun _ _ d => Ok d) (fun _ => true)))%nat /\
  get_pipeline_state_record_column_value (mk_runtime 1000 (fun _ _ d => Ok d) (fun _ => true))
    (py "A") (py "calibrated_products")
    (mk_db (mk_table [py "mous_id"; py "calibrated_products"]
              [[SText (py "A"); SText (repeat 49 4301 ++ [120])]])
           (mk_table [] []) (mk_table [] []))
  = Err (ValueError (py "Exceeds the limit (4300 digits) for integer string conversion: value has 4301 digits; use sys.set_int_max_str_digits() to increase the limit")).
Proof.
  split.
  - simpl. lia.
  - apply column_getter_raises_on_digit_limit. simpl. lia.
Defined.

End DbFacts.

(* ================================================================== *)
(** ** Facts about the job monitor *)
(* ================================================================== *)

Module MonitorFacts.
Import PyFloat PyVal Store Monitor.

Lemma after_after w a b : after (after w a) b = after w (a ++ b).
Proof. unfold after; simpl. rewrite app_assoc. reflexivity. Qed.

Lemma emit_after fx w : emit fx w = (Ok tt, after w [fx]).
Proof. reflexivity. Qed.

Lemma pass_empty job_id info c w :
  truthy info = false -> 0 <= c -> c + 1 < max_empty_responses ->
  monitor_pass job_id (RespInfo info) c w = (Ok (PassAgain (c + 1)), after w [FxSessionInfo job_id; FxSleep 60]).
Proof.
  intros Ht H0 H1. unfold monitor_pass, Store.bind. cbv beta. rewrite emit_after, Ht. simpl negb.
  cbv iota beta.
  replace (max_empty_responses <=? c + 1) with false by (symmetry; apply Z.leb_gt; exact H1).
  cbn [negb]; cbv beta iota. rewrite emit_after, after_after. reflexivity.
Qed.

Lemma pass_empty_last job_id info w :
  truthy info = false ->
  monitor_pass job_id (RespInfo info) (max_empty_responses - 1) w
  = (Err (RuntimeError (lost_msg job_id)), after w [FxSessionInfo job_id]).
Proof.
  intros Ht. unfold monitor_pass, Store.bind. cbv beta. rewrite emit_after, Ht. reflexivity.
Qed.

Lemma pass_status job_id x more c w status :
  getitem_str x (py "status") = Ok status ->
  monitor_pass job_id (RespInfo (PList (x :: more))) c w
  = (if is_str (py "Succeeded") status then (Ok (PassReturn true), after w [FxSessionInfo job_id])
     else if is_str (py "Failed") status || is_str (py "Terminated") status then
       (Err (RuntimeError (py "Job failed with status: "
               ++ match status with PStr s => s | _ => [] end)), after w [FxSessionInfo job_id])
     else (Ok (PassAgain 0), after w [FxSessionInfo job_id; FxSleep 60])).
Proof.
  intros Hs. unfold monitor_pass, Store.bind. cbv beta. rewrite emit_after.
  cbn [truthy negb List.length Nat.eqb getitem_0 res_bind]. rewrite Hs.
  destruct (is_str (py "Succeeded") status); [reflexivity|].
  destruct (is_str (py "Failed") status || is_str (py "Terminated") status); [reflexivity|].
  cbv beta iota. rewrite emit_after, after_after. reflexivity.
Qed.

Lemma is_str_self s : is_str s (PStr s) = true.
Proof. unfold is_str, str_eqb. destruct (list_eq_dec Z.eq_dec s s); congruence. Qed.

Lemma is_str_diff s t : s <> t -> is_str s (PStr t) = false.
Proof. intros H. unfold is_str, str_eqb. destruct (list_eq_dec Z.eq_dec t s); congruence. Qed.

Lemma loop_cons job_id r rs c w :
  monitor_loop job_id (r :: rs) c w
  = match monitor_pass job_id r c w with
    | (Ok (PassReturn b), w') => (Ok (Some b), w')
    | (Ok (PassAgain c'), w') => monitor_loop job_id rs c' w'
    | (Err e, w') => (Err e, w')
    end.
Proof.
  simpl. unfold Store.bind. destruct (monitor_pass job_id r c w) as [[[b|c']|e] w']; reflexivity.
Qed.

(** C6: the job monitor's contract.  With [c] consecutive empty (falsy)
    responses so far, one more is tolerated (wait 60 s, poll again) while
    [c + 1 < 3], and the third raises the fatal [RuntimeError]; three
    empty responses in a row from the start make it raise.  A first job
    entry whose status is [Succeeded] makes it return [True]; [Failed] or
    [Terminated] raise a [RuntimeError] whose message ends with the
    status; any other status waits 60 s and polls again, with the counter
    reset. *)
Theorem monitor_contract job_id mous_id w :
  (forall info c rs, truthy info = false -> 0 <= c -> c + 1 < max_empty_responses ->
     monitor_loop job_id (RespInfo info :: rs) c w
     = monitor_loop job_id rs (c + 1) (after w [FxSessionInfo job_id; FxSleep 60])) /\
  (forall info rs, truthy info = false ->
     monitor_loop job_id (RespInfo info :: rs) (max_empty_responses - 1) w
     = (Err (RuntimeError (lost_msg job_id)), after w [FxSessionInfo job_id])) /\
  (forall rs, fst (monitor_download_headless_session job_id mous_id
                     (repeat (RespInfo (PList [])) 3 ++ rs) w)
              = Err (RuntimeError (lost_msg job_id))) /\
  (forall x more c rs, getitem_str x (py "status") = Ok (PStr (py "Succeeded")) ->
     monitor_loop job_id (RespInfo (PList (x :: more)) :: rs) c w
     = (Ok (Some true), after w [FxSessionInfo job_id])) /\
  (forall x more c rs st, getitem_str x (py "status") = Ok (PStr st) ->
     st = py "Failed" \/ st = py "Terminated" ->
     monitor_loop job_id (RespInfo (PList (x :: more)) :: rs) c w
     = (Err (RuntimeError (py "Job failed with status: " ++ st)), after w [FxSessionInfo job_id])) /\
  (forall x more c rs status, getitem_str x (py "status") = Ok status ->
     is_str (py "Succeeded") status = false -> is_str (py "Failed") status = false ->
     is_str (py "Terminated") status = false ->
     monitor_loop job_id (RespInfo (PList (x :: more)) :: rs) c w
     = monitor_loop job_id rs 0 (after w [FxSessionInfo job_id; FxSleep 60])).
Proof.
  split; [|split; [|split; [|split; [|split]]]].
  - intros info c rs Ht H0 H1. rewrite loop_cons, pass_empty by assumption. reflexivity.
  - intros info rs Ht. rewrite loop_cons, pass_empty_last by assumption. reflexivity.
  - intros rs. unfold monitor_download_headless_session, Store.bind. cbv beta.
    rewrite emit_after. cbv iota. simpl app.
    rewrite loop_cons, pass_empty by (reflexivity || unfold max_empty_responses; lia).
    rewrite loop_cons, pass_empty by (reflexivity || unfold max_empty_responses; lia).
    rewrite loop_cons. change (0 + 1 + 1) with (max_empty_responses - 1).
    rewrite pass_empty_last by reflexivity. reflexivity.
  - intros x more c rs Hs. rewrite loop_cons, (pass_status _ _ _ _ _ _ Hs). reflexivity.
  - intros x more c rs st Hs Hst. rewrite loop_cons, (pass_status _ _ _ _ _ _ Hs).
    destruct Hst as [-> | ->]; reflexivity.
  - intros x more c rs status Hs H1 H2 H3. rewrite loop_cons, (pass_status _ _ _ _ _ _ Hs).
    rewrite H1, H2, H3. reflexivity.
Qed.

(** A run of [monitor_contract]: job [j1] answering [Failed]. *)
Lemma monitor_contract_witness :
  let w := mk_world (mk_db (mk_table [] []) (mk_table [] []) (mk_table [] [])) [] in
  getitem_str (PDict [(PStr (py "status"), PStr (py "Failed"))]) (py "status")
    = Ok (PStr (py "Failed")) /\
  monitor_loop (py "j1") [RespInfo (PList [PDict [(PStr (py "status"), PStr (py "Failed"))]])] 0 w
  = (Err (RuntimeError (py "Job failed with status: " ++ py "Failed")),
     after w [FxSessionInfo (py "j1")]).
Proof.
  intros w. split; [reflexivity|].
  destruct (monitor_contract (py "j1") (py "m1") w) as (_ & _ & _ & _ & H & _).
  apply H; [reflexivity | left; reflexivity].
Defined.

End MonitorFacts.

(* ================================================================== *)
(** ** Facts about the spectral-window mapping *)
(* ================================================================== *)

Module SpwFacts.
Import PyStr PyFloat PyVal Store DbPy PyInt DbSpw PyStrFacts.

Lemma startswith_split : forall p s, startswith s p = true -> s = p ++ skipn (List.length p) s.
Proof.
  induction p as [|c p IH]; intros s H; [reflexivity|].
  destruct s as [|d s]; simpl in H; [discriminate|].
  apply andb_prop in H as [H1 H2]. apply Z.eqb_eq in H1. subst d.
  simpl. f_equal. now apply IH.
Qed.

Lemma take_decimal_spec : forall t ds rest, take_decimal t = (ds, rest) ->
  t = ds ++ rest /\ Forall (fun c => is_decimal c = true) ds /\
  (forall c r, rest = c :: r -> is_decimal c = false).
Proof.
  induction t as [|c t IH]; intros ds rest H; simpl in H.
  - inversion H; subst. repeat split; auto. intros ? ? E; discriminate.
  - destruct (is_decimal c) eqn:Ec.
    + destruct (take_decimal t) as [ds' rest'] eqn:Et. inversion H; subst.
      destruct (IH _ _ eq_refl) as (-> & Hf & Hr). repeat split; auto.
    + inversion H; subst. repeat split; auto. intros c' r E; inversion E; subst; auto.
Qed.

Lemma take_decimal_app : forall ds rest, Forall (fun c => is_decimal c = true) ds ->
  (forall c r, rest = c :: r -> is_decimal c = false) ->
  take_decimal (ds ++ rest) = (ds, rest).
Proof.
  induction ds as [|d ds IH]; intros rest Hf Hr; simpl.
  - destruct rest as [|c r]; [reflexivity|]. simpl. now rewrite (Hr c r eq_refl).
  - inversion Hf; subst. rewrite H1, IH; auto.
Qed.

Lemma dot_not_decimal : is_decimal 46 = false.
Proof. reflexivity. Qed.

Lemma nl_not_decimal : is_decimal 10 = false.
Proof. reflexivity. Qed.

Lemma py_spw : py ".spw." = [46; 115; 112; 119; 46].
Proof. reflexivity. Qed.

Lemma match_at_spec : forall s g, spw_match_at s = Some g <->
  exists t, s = py ".spw." ++ g ++ t /\ (t = [] \/ t = [10]) /\ g <> [] /\
            Forall (fun c => is_decimal c = true) g.
Proof.
  intros s g; split.
  - unfold spw_match_at. destruct (startswith s (py ".spw.")) eqn:Hs; [|discriminate].
    apply startswith_split in Hs. rewrite py_spw in Hs |- *.
    change (List.length _) with 5%nat in Hs.
    destruct (take_decimal (skipn 5 s)) as [ds rest] eqn:Ht.
    apply take_decimal_spec in Ht as (Ht & Hf & _).
    destruct ds as [|c ds]; [discriminate|].
    destruct rest as [|x [|y r]].
    + intros E; inversion E; subst. exists []. rewrite Hs at 1. rewrite Ht.
      repeat split; auto. discriminate.
    + destruct (Z.eq_dec x 10) as [->|Hx].
      * intros E; inversion E; subst. exists [10]. rewrite Hs at 1. rewrite Ht.
        repeat split; auto. discriminate.
      * intros E. exfalso. apply Hx.
        destruct x as [|p|p]; try discriminate E;
          repeat (destruct p as [p|p|]; try discriminate E); reflexivity.
    + intros E. destruct x as [|p|p]; try discriminate E;
        repeat (destruct p as [p|p|]; try discriminate E).
  - intros (t & -> & Ht & Hg & Hf). unfold spw_match_at.
    rewrite startswith_app. rewrite py_spw. simpl.
    rewrite take_decimal_app; auto.
    + destruct g as [|c g]; [congruence|]. destruct Ht as [-> | ->]; reflexivity.
    + intros c r E. destruct Ht as [-> | ->]; inversion E; subst. apply nl_not_decimal.
Qed.

Lemma no_early_match : forall p g t, p <> [] ->
  spw_match_at (p ++ py ".spw." ++ g ++ t) = None.
Proof.
  intros p g t Hp.
  destruct (spw_match_at (p ++ py ".spw." ++ g ++ t)) as [g'|] eqn:E; [|reflexivity].
  exfalso. apply match_at_spec in E as (t' & E & Ht' & _ & Hf).
  assert (Hs : skipn 5 (p ++ py ".spw." ++ g ++ t) = g' ++ t')
    by (rewrite E, py_spw; reflexivity).
  assert (Hl : skipn 5 (p ++ py ".spw." ++ g ++ t)
               = skipn 5 (p ++ [46; 115; 112; 119]) ++ 46 :: g ++ t).
  { rewrite py_spw.
    replace (p ++ [46; 115; 112; 119; 46] ++ g ++ t)
      with ((p ++ [46; 115; 112; 119]) ++ 46 :: g ++ t)
      by (rewrite <- app_assoc; reflexivity).
    rewrite skipn_app, length_app.
    destruct p as [|a p]; [congruence|]. simpl List.length.
    replace (5 - (S (List.length p) + 4))%nat with 0%nat by lia. reflexivity. }
  assert (Hin : In 46 (g' ++ t')).
  { rewrite <- Hs, Hl. apply in_or_app. right. left. reflexivity. }
  apply in_app_or in Hin as [Hin | Hin].
  - rewrite Forall_forall in Hf. specialize (Hf _ Hin). now rewrite dot_not_decimal in Hf.
  - destruct Ht' as [-> | ->]; simpl in Hin; [contradiction|].
    destruct Hin as [Hin | []]; discriminate.
Qed.

Lemma spw_search_eq : forall s, spw_search s =
  match spw_match_at s with
  | Some g => Some g
  | None => match s with [] => None | _ :: r => spw_search r end
  end.
Proof. destruct s; reflexivity. Qed.

Lemma spw_search_spec : forall s g, spw_search s = Some g <->
  exists pre t, s = pre ++ py ".spw." ++ g ++ t /\ (t = [] \/ t = [10]) /\ g <> [] /\
                Forall (fun c => is_decimal c = true) g.
Proof.
  intros s g; split.
  - induction s as [|c r IH]; rewrite spw_search_eq.
    + intros E. discriminate E.
    + destruct (spw_match_at (c :: r)) as [g0|] eqn:Em.
      * intros E; inversion E; subst g0.
        apply match_at_spec in Em as (t & Hs & Ht & Hg & Hf).
        exists [], t. auto.
      * intros E. destruct (IH E) as (pre & t & Hr & Ht & Hg & Hf).
        exists (c :: pre), t. rewrite Hr. auto.
  - intros (pre & t & -> & Ht & Hg & Hf). induction pre as [|c pre IH].
    + assert (E : spw_match_at (py ".spw." ++ g ++ t) = Some g)
        by (apply match_at_spec; eauto).
      rewrite app_nil_l, spw_search_eq, E. reflexivity.
    + rewrite spw_search_eq.
      rewrite (no_early_match (c :: pre) g t) by discriminate. exact IH.
Qed.

(** *** Key equality is an equivalence (away from NaN) *)

Lemma exact_at : forall a e1 b e2 E, E <= e1 -> E <= e2 ->
  (exact_eq a e1 b e2 = true <-> a * 2 ^ (e1 - E) = b * 2 ^ (e2 - E)).
Proof.
  intros a e1 b e2 E H1 H2. unfold exact_eq. rewrite Z.eqb_eq.
  set (M := Z.min e1 e2).
  assert (HM : E <= M) by (unfold M; lia).
  assert (HP : 2 ^ (M - E) <> 0) by (apply Z.pow_nonzero; lia).
  replace (e1 - E) with ((e1 - M) + (M - E)) by lia.
  replace (e2 - E) with ((e2 - M) + (M - E)) by lia.
  rewrite !Z.pow_add_r by (unfold M; lia).
  rewrite !Z.mul_assoc. split; intros H.
  - now rewrite H.
  - now apply Z.mul_cancel_r in H.
Qed.

Lemma exact_refl : forall a e, exact_eq a e a e = true.
Proof. intros. unfold exact_eq. apply Z.eqb_refl. Qed.

Lemma exact_sym : forall a e1 b e2, exact_eq a e1 b e2 = exact_eq b e2 a e1.
Proof. intros. unfold exact_eq. rewrite Z.min_comm. apply Z.eqb_sym. Qed.

Lemma exact_trans : forall a e1 b e2 c e3,
  exact_eq a e1 b e2 = true -> exact_eq b e2 c e3 = true -> exact_eq a e1 c e3 = true.
Proof.
  intros a e1 b e2 c e3 H1 H2.
  set (E := Z.min e1 (Z.min e2 e3)).
  rewrite (exact_at a e1 b e2 E) in H1 by (unfold E; lia).
  rewrite (exact_at b e2 c e3 E) in H2 by (unfold E; lia).
  rewrite (exact_at a e1 c e3 E) by (unfold E; lia). congruence.
Qed.

Lemma int_exact : forall x y, (x =? y) = exact_eq x 0 y 0.
Proof. intros. unfold exact_eq. simpl. now rewrite !Z.mul_1_r. Qed.

Lemma str_eqb_true : forall s t, str_eqb s t = true <-> s = t.
Proof.
  intros s t. unfold str_eqb. destruct (list_eq_dec Z.eq_dec s t); split; congruence.
Qed.

Lemma sql_key_eqb_refl : forall a, a <> SReal FNaN -> sql_key_eqb a a = true.
Proof.
  intros [|x|[n m e|n|]|s] H; simpl.
  - reflexivity.
  - apply Z.eqb_refl.
  - apply exact_refl.
  - apply Bool.eqb_reflx.
  - congruence.
  - now apply str_eqb_true.
Qed.

Lemma float_num_eq_sym : forall f g, float_num_eq f g = float_num_eq g f.
Proof.
  intros [n1 m1 e1|n1|] [n2 m2 e2|n2|]; simpl; try reflexivity.
  - apply exact_sym.
  - destruct n1, n2; reflexivity.
Qed.

Lemma sql_key_eqb_sym : forall a b, sql_key_eqb a b = sql_key_eqb b a.
Proof.
  intros [|x|f|s] [|y|g|t]; simpl; try reflexivity.
  - apply Z.eqb_sym.
  - apply float_num_eq_sym.
  - unfold str_eqb. destruct (list_eq_dec Z.eq_dec s t), (list_eq_dec Z.eq_dec t s); congruence.
Qed.

Ltac exact_chain :=
  first [ eapply exact_trans; eassumption
        | eapply exact_trans; [eassumption | rewrite exact_sym; eassumption]
        | eapply exact_trans; [rewrite exact_sym; eassumption | eassumption]
        | rewrite exact_sym; eapply exact_trans; eassumption
        | rewrite exact_sym; eapply exact_trans; [eassumption | rewrite exact_sym; eassumption]
        | rewrite exact_sym; eapply exact_trans; [rewrite exact_sym; eassumption | eassumption] ].

Lemma sql_key_eqb_trans : forall a b c,
  sql_key_eqb a b = true -> sql_key_eqb b c = true -> sql_key_eqb a c = true.
Proof.
  intros [|x|f|s] [|y|g|t] [|z|h|u]; simpl; intros H1 H2; try discriminate; try reflexivity;
    try (destruct f; try discriminate); try (destruct g; try discriminate);
    try (destruct h; try discriminate); unfold float_eq_int, float_num_eq in *;
    rewrite ?int_exact in *; try exact_chain.
  - apply Bool.eqb_prop in H1, H2. subst. apply Bool.eqb_reflx.
  - apply str_eqb_true in H1, H2. subst. now apply str_eqb_true.
Qed.

(** *** The dictionary of sets *)

Lemma set_add_in : forall l x n, In n (set_add l x) <-> In n l \/ n = x.
Proof.
  intros l x n. unfold set_add. destruct (existsb (Z.eqb x) l) eqn:E.
  - apply existsb_exists in E as (y & Hy & Exy). apply Z.eqb_eq in Exy. subst y.
    split; [auto|]. intros [H | ->]; auto.
  - rewrite in_app_iff. simpl. split; intros [H|H]; auto.
    + destruct H as [H|[]]; auto.
Qed.

Lemma set_add_nodup : forall l x, NoDup l -> NoDup (set_add l x).
Proof.
  intros l x H. unfold set_add. destruct (existsb (Z.eqb x) l) eqn:E; [exact H|].
  apply NoDup_app; [exact H | constructor; [intros []|constructor] |].
  intros y Hy [->|[]]. assert (existsb (Z.eqb y) l = true)
      by (apply existsb_exists; exists y; split; [exact Hy | apply Z.eqb_refl]).
    congruence.
Qed.

Lemma setdefault_add_in : forall src x m k l, In (k, l) (setdefault_add src x m) ->
  In (k, l) m \/ (exists l0, In (k, l0) m /\ sql_key_eqb k src = true /\ l = set_add l0 x)
  \/ (k = src /\ l = [x]).
Proof.
  intros src x. induction m as [|[k' l'] r IH]; intros k l H; simpl in H.
  - destruct H as [H|[]]. inversion H; subst. auto.
  - destruct (sql_key_eqb k' src) eqn:E; simpl in H.
    + destruct H as [H|H].
      * inversion H; subst. right; left. exists l'. simpl. auto.
      * left. simpl. auto.
    + destruct H as [H|H].
      * left. simpl. auto.
      * destruct (IH _ _ H) as [H'|[(l0 & H1 & H2 & H3)|H']].
        -- left. simpl. auto.
        -- right; left. exists l0. simpl. auto.
        -- auto.
Qed.

Lemma setdefault_add_keep : forall src x m k l, In (k, l) m ->
  exists l', In (k, l') (setdefault_add src x m) /\ incl l l'.
Proof.
  intros src x. induction m as [|[k' l'] r IH]; intros k l H; [destruct H|].
  simpl. destruct H as [H|H].
  - inversion H; subst. destruct (sql_key_eqb k src).
    + exists (set_add l x). split; [left; reflexivity|].
      intros n Hn. apply set_add_in. auto.
    + exists l. split; [left; reflexivity|apply incl_refl].
  - destruct (sql_key_eqb k' src).
    + exists l. split; [right; exact H|apply incl_refl].
    + destruct (IH _ _ H) as (l2 & H1 & H2). exists l2. split; [right; exact H1|exact H2].
Qed.

Lemma setdefault_add_new : forall src x m, src <> SReal FNaN ->
  exists k l, In (k, l) (setdefault_add src x m) /\ sql_key_eqb k src = true /\ In x l.
Proof.
  intros src x m Hs. induction m as [|[k' l'] r IH]; simpl.
  - exists src, [x]. split; [left; reflexivity|]. split; [now apply sql_key_eqb_refl|left; reflexivity].
  - destruct (sql_key_eqb k' src) eqn:E.
    + exists k', (set_add l' x). split; [left; reflexivity|]. split; [exact E|].
      apply set_add_in. auto.
    + destruct IH as (k & l & H1 & H2 & H3). exists k, l. simpl. auto.
Qed.

Lemma setdefault_add_keys : forall src x m y, In y (setdefault_add src x m) ->
  fst y = src \/ exists y0, In y0 m /\ fst y0 = fst y.
Proof.
  intros src x. induction m as [|[k' l'] r IH]; intros y H; simpl in H.
  - destruct H as [<-|[]]. auto.
  - destruct (sql_key_eqb k' src) eqn:E; destruct H as [<-|H].
    + right. exists (k', l'). simpl. auto.
    + right. exists y. simpl. auto.
    + right. exists (k', l'). simpl. auto.
    + destruct (IH _ H) as [H'|(y0 & H1 & H2)]; auto.
      right. exists y0. simpl. auto.
Qed.

Lemma setdefault_add_distinct : forall src x m,
  ForallOrdPairs (fun a b => sql_key_eqb (fst a) (fst b) = false) m -> ForallOrdPairs (fun a b => sql_key_eqb (fst a) (fst b) = false) (setdefault_add src x m).
Proof.
  intros src x. induction m as [|[k' l'] r IH]; intros H; simpl.
  - repeat constructor.
  - inversion H as [|a b Hf Hr]; subst.
    destruct (sql_key_eqb k' src) eqn:E; constructor; auto.
    rewrite Forall_forall in Hf |- *. intros y Hy.
    destruct (setdefault_add_keys src x r y Hy) as [Hk|(y0 & H1 & H2)].
    + simpl. now rewrite Hk.
    + specialize (Hf _ H1). simpl in *. now rewrite <- H2.
Qed.

(** *** The loop over the target rows *)

Section Loop.
Variable rt : runtime.
Variable remap : option (list (Z * Z)).

Lemma fold_spw_err : forall rs e, fold_left (spw_step rt remap) rs (Err e) = Err e.
Proof. intros rs; induction rs as [|a rs IH]; intros e; [reflexivity|exact (IH e)]. Qed.

Lemma fold_spw_inv : forall rs done m0 m,
  (forall row, In row rs -> fst row <> SReal FNaN) ->
  (forall k l, In (k, l) m0 -> NoDup l /\
     forall n, In n l -> exists row, In row done /\ sql_key_eqb k (fst row) = true /\
                                    row_spw rt remap row n) ->
  (forall row n, In row done -> row_spw rt remap row n ->
     exists k l, In (k, l) m0 /\ sql_key_eqb k (fst row) = true /\ In n l) ->
  ForallOrdPairs (fun a b => sql_key_eqb (fst a) (fst b) = false) m0 ->
  fold_left (spw_step rt remap) rs (Ok m0) = Ok m ->
  (forall k l, In (k, l) m -> NoDup l /\
     forall n, In n l -> exists row, In row (done ++ rs) /\ sql_key_eqb k (fst row) = true /\
                                    row_spw rt remap row n) /\
  (forall row n, In row (done ++ rs) -> row_spw rt remap row n ->
     exists k l, In (k, l) m /\ sql_key_eqb k (fst row) = true /\ In n l) /\
  ForallOrdPairs (fun a b => sql_key_eqb (fst a) (fst b) = false) m.
Proof.
  induction rs as [|[src obs] rs IH]; intros done m0 m Hnan H1 H2 H3 Hf.
  - simpl in Hf. inversion Hf; subst. rewrite app_nil_r. auto.
  - change (fold_left (spw_step rt remap) rs (spw_step rt remap (Ok m0) (src, obs)) = Ok m) in Hf.
    destruct (spw_step rt remap (Ok m0) (src, obs)) as [m1|e] eqn:Estep;
      [|rewrite fold_spw_err in Hf; discriminate].
    unfold spw_step in Estep. simpl in Estep.
    replace (done ++ (src, obs) :: rs) with ((done ++ [(src, obs)]) ++ rs)
      by (rewrite <- app_assoc; reflexivity).
    assert (Hn' : forall row, In row rs -> fst row <> SReal FNaN) by (intros; apply Hnan; right; auto).
    assert (Hsrc : src <> SReal FNaN) by (apply (Hnan (src, obs)); left; reflexivity).
    destruct (search_subject obs) as [| | |s] eqn:Es; try discriminate Estep.
    destruct (spw_search s) as [g|] eqn:Eg.
    + destruct (int_of_str (is_printable rt) g) as [raw|e] eqn:Ei; [|discriminate Estep].
      simpl in Estep. inversion Estep; subst m1. set (x := apply_remap remap raw) in Hf.
      assert (Hrow : forall n, row_spw rt remap (src, obs) n <-> n = x).
      { intros n. split.
        - intros (s' & g' & raw' & E1 & E2 & E3 & ->). simpl in E1.
          rewrite Es in E1. inversion E1; subst s'. rewrite Eg in E2. inversion E2; subst g'.
          rewrite Ei in E3. inversion E3; subst raw'. reflexivity.
        - intros ->. exists s, g, raw. auto. }
      apply (IH (done ++ [(src, obs)]) (setdefault_add src x m0) m Hn'); [| | |exact Hf].
      * intros k l Hin. apply setdefault_add_in in Hin as [Hin|[(l0 & Hin & Hk & ->)|(-> & ->)]].
        -- destruct (H1 _ _ Hin) as [Hd Hl]. split; [exact Hd|].
           intros n Hn. destruct (Hl n Hn) as (row & R1 & R2 & R3).
           exists row. rewrite in_app_iff. auto.
        -- destruct (H1 _ _ Hin) as [Hd Hl]. split; [now apply set_add_nodup|].
           intros n Hn. apply set_add_in in Hn as [Hn | ->].
           ++ destruct (Hl n Hn) as (row & R1 & R2 & R3).
              exists row. rewrite in_app_iff. auto.
           ++ exists (src, obs). rewrite in_app_iff. simpl. split; [auto|].
              split; [exact Hk|now apply Hrow].
        -- split; [constructor; [intros []|constructor]|].
           intros n [<-|[]]. exists (src, obs). rewrite in_app_iff. simpl. split; [auto|].
           split; [now apply sql_key_eqb_refl|now apply Hrow].
      * intros row n Hin Hr. apply in_app_iff in Hin as [Hin|[<-|[]]].
        -- destruct (H2 _ _ Hin Hr) as (k & l & K1 & K2 & K3).
           destruct (setdefault_add_keep src x m0 k l K1) as (l' & L1 & L2).
           exists k, l'. auto.
        -- apply Hrow in Hr. subst n. simpl. now apply setdefault_add_new.
      * now apply setdefault_add_distinct.
    + inversion Estep; subst m1.
      apply (IH (done ++ [(src, obs)]) m0 m Hn'); [| |exact H3|exact Hf].
      * intros k l Hin. destruct (H1 _ _ Hin) as [Hd Hl]. split; [exact Hd|].
        intros n Hn. destruct (Hl n Hn) as (row & R1 & R2 & R3).
        exists row. rewrite in_app_iff. auto.
      * intros row n Hin Hr. apply in_app_iff in Hin as [Hin|[<-|[]]]; [now apply H2|].
        destruct Hr as (s' & g' & raw' & E1 & E2 & _). simpl in E1.
        rewrite Es in E1. inversion E1; subst s'. congruence.
Qed.

End Loop.

(** *** [sorted] and the result *)

Lemma insert_sorted_in : forall x l n, In n (insert_sorted x l) <-> n = x \/ In n l.
Proof.
  intros x l n. induction l as [|y r IH]; simpl.
  - intuition.
  - destruct (x <=? y); simpl; [intuition|]. rewrite IH. intuition.
Qed.

Lemma sort_ints_in : forall l n, In n (sort_ints l) <-> In n l.
Proof.
  induction l as [|a l IH]; intros n; simpl; [reflexivity|].
  unfold sort_ints in *. simpl. rewrite insert_sorted_in, IH. intuition.
Qed.

Lemma insert_sorted_ss : forall x l, StronglySorted Z.lt l -> ~ In x l ->
  StronglySorted Z.lt (insert_sorted x l).
Proof.
  intros x l. induction l as [|y r IH]; intros Hs Hn; simpl.
  - repeat constructor.
  - inversion Hs as [|a b Hr Hf]; subst.
    assert (Hxy : x <> y) by (intros ->; apply Hn; left; reflexivity).
    destruct (x <=? y) eqn:E.
    + apply Z.leb_le in E. constructor; [exact Hs|].
      constructor; [lia|]. rewrite Forall_forall in Hf |- *.
      intros z Hz. specialize (Hf z Hz). lia.
    + apply Z.leb_gt in E. constructor.
      * apply IH; [exact Hr|]. intros H; apply Hn; right; exact H.
      * rewrite Forall_forall in Hf |- *. intros z Hz.
        apply insert_sorted_in in Hz as [->|Hz]; [lia|auto].
Qed.

Lemma sort_ints_ss : forall l, NoDup l -> StronglySorted Z.lt (sort_ints l).
Proof.
  induction l as [|a l IH]; intros Hd; [constructor|].
  inversion Hd as [|b c Ha Hl]; subst. unfold sort_ints in *. simpl.
  apply insert_sorted_ss; [now apply IH|]. rewrite sort_ints_in. exact Ha.
Qed.

Lemma fop_map_keys : forall (m : list (sqlval * list Z)),
  ForallOrdPairs (fun a b => sql_key_eqb (fst a) (fst b) = false) m ->
  ForallOrdPairs (fun a b => sql_key_eqb (fst a) (fst b) = false)
    (map (fun kv => (fst kv, sort_ints (snd kv))) m).
Proof.
  induction m as [|a m IH]; intros H; simpl; [constructor|].
  inversion H as [|b c Hf Hr]; subst. constructor; [|now apply IH].
  rewrite Forall_forall in Hf |- *. intros y Hy.
  apply in_map_iff in Hy as (z & <- & Hz). simpl. now apply Hf.
Qed.

Lemma fop_cases : forall {A} (R : A -> A -> Prop) m a b, ForallOrdPairs R m ->
  In a m -> In b m -> a = b \/ R a b \/ R b a.
Proof.
  intros A R m a b H. induction H as [|x l Hf Hr IH]; intros Ha Hb; [destruct Ha|].
  rewrite Forall_forall in Hf.
  destruct Ha as [<-|Ha], Hb as [<-|Hb]; auto.
Qed.

Lemma select_targets_src : forall mous_id d rs,
  (forall row, In row (rows (t_targets d)) -> ~ In (SReal FNaN) row) ->
  select_targets mous_id d = Ok rs -> forall r, In r rs -> fst r <> SReal FNaN.
Proof.
  intros mous_id d rs Hd H r Hr. unfold select_targets in H.
  destruct (resolve_col _ (py "alma_source_name")) as [i|]; [|discriminate]. simpl in H.
  destruct (resolve_col _ (py "obs_id")) as [j|]; [|discriminate]. simpl in H.
  destruct (resolve_col _ (py "mous_id")) as [ki|]; [|discriminate]. simpl in H.
  destruct (utf8_check mous_id); [|discriminate]. simpl in H. inversion H; subst rs.
  apply in_map_iff in Hr as (row & <- & Hrow). apply filter_In in Hrow as [Hrow _].
  simpl. destruct (Nat.lt_ge_cases i (List.length row)) as [Hi|Hi].
  - intros E. apply (Hd row Hrow). rewrite <- E. now apply nth_In.
  - rewrite nth_overflow by exact Hi. discriminate.
Qed.

(** C5: the mapping that [get_mous_spw_mapping] returns.  The group of
    [\.spw\.(\d+)$] is the decimal run after the last [.spw.] at the
    end of [obs_id or ""] (a final newline allowed); each key lists,
    strictly ascending and without repetition, exactly the integers of
    the groups of the rows whose source equals it, each passed through
    the stored remap ([spw_remap[spw]] when the remap is a nonempty dict
    with that key, [spw] itself otherwise); every row with a match has
    its source among the keys, and no two keys are equal.  A NaN source
    (which SQLite never stores) is excluded. *)
Theorem spw_mapping_spec rt mous_id d m :
  (forall row, In row (rows (t_targets d)) -> ~ In (SReal FNaN) row) ->
  get_mous_spw_mapping rt mous_id d = Ok m ->
  (forall s g, spw_search s = Some g <->
     exists pre t, s = pre ++ py ".spw." ++ g ++ t /\ (t = [] \/ t = [10]) /\ g <> [] /\
                   Forall (fun c => is_decimal c = true) g) /\
  exists rs remap,
    select_targets mous_id d = Ok rs /\ get_spw_remap rt mous_id d = Ok remap /\
    (forall n, apply_remap remap n =
       match remap with
       | Some r => match dict_get Z.eqb n r with Some v => v | None => n end
       | None => n
       end) /\
    (forall k l, In (k, l) m -> StronglySorted Z.lt l /\
       forall n, In n l <-> exists row, In row rs /\ sql_key_eqb k (fst row) = true /\
                                       row_spw rt remap row n) /\
    (forall row n, In row rs -> row_spw rt remap row n ->
       exists k l, In (k, l) m /\ sql_key_eqb k (fst row) = true) /\
    ForallOrdPairs (fun a b => sql_key_eqb (fst a) (fst b) = false) m.
Proof.
  intros Hd H. split; [exact spw_search_spec|].
  unfold get_mous_spw_mapping in H.
  destruct (select_targets mous_id d) as [rs|e] eqn:Er; [|discriminate]. simpl in H.
  destruct (get_spw_remap rt mous_id d) as [remap|e] eqn:Em; [|discriminate]. simpl in H.
  destruct (fold_left (spw_step rt remap) rs (Ok [])) as [sm|e] eqn:Ef; [|discriminate].
  simpl in H. inversion H; subst m. clear H.
  destruct (fold_spw_inv rt remap rs [] [] sm (select_targets_src mous_id d rs Hd Er))
    as (I1 & I2 & I3); try (intros; contradiction); [constructor|exact Ef|].
  exists rs, remap. split; [reflexivity|]. split; [reflexivity|].
  split; [intros n; destruct remap as [[|a r]|]; reflexivity|].
  split; [|split].
  - intros k l Hin. apply in_map_iff in Hin as ([k0 l0] & E & Hin). simpl in E.
    inversion E; subst k0 l. destruct (I1 _ _ Hin) as [Hnd Hl].
    split; [now apply sort_ints_ss|]. intros n. rewrite sort_ints_in. split.
    + intros Hn. exact (Hl n Hn).
    + intros (row & R1 & R2 & R3).
      destruct (I2 row n R1 R3) as (k' & l' & K1 & K2 & K3).
      destruct (fop_cases _ sm (k, l0) (k', l') I3 Hin K1) as [Ee|[Ee|Ee]].
      * inversion Ee; subst. exact K3.
      * simpl in Ee. rewrite sql_key_eqb_sym in K2.
        rewrite (sql_key_eqb_trans _ _ _ R2 K2) in Ee. discriminate.
      * simpl in Ee. rewrite sql_key_eqb_sym in R2.
        rewrite (sql_key_eqb_trans _ _ _ K2 R2) in Ee. discriminate.
  - intros row n R1 R3. destruct (I2 row n R1 R3) as (k & l & K1 & K2 & K3).
    exists k, (sort_ints l). split; [|exact K2].
    apply in_map_iff. exists (k, l). auto.
  - now apply fop_map_keys.
Qed.

(** Scenario: the stored remap [{"16":"0","18":"1"}]; the target [A]
    has [x.spw.16] and [x.spw.3], the target [B] has [y.spw.18]. *)
Lemma spw_mapping_spec_witness :
  let d := mk_db
    (mk_table [py "mous_id"; py "raw_data_spectral_remap"]
       [[SText (py "M"); SText (map (fun c => if c =? 39 then 34 else c) (py "{'16':'0','18':'1'}"))]])
    (mk_table [] [])
    (mk_table [py "mous_id"; py "alma_source_name"; py "obs_id"]
       [[SText (py "M"); SText (py "A"); SText (py "x.spw.16")];
        [SText (py "M"); SText (py "A"); SText (py "x.spw.3")];
        [SText (py "M"); SText (py "B"); SText (py "y.spw.18")]]) in
  let rt := mk_runtime 1000 (fun _ _ d => Ok d) (fun _ => true) in
  let m := [(SText (py "A"), [0; 3]); (SText (py "B"), [1])] in
  (forall row, In row (rows (t_targets d)) -> ~ In (SReal FNaN) row) /\
  get_mous_spw_mapping rt (py "M") d = Ok m /\
  exists rs remap,
    select_targets (py "M") d = Ok rs /\ get_spw_remap rt (py "M") d = Ok remap /\
    (forall k l, In (k, l) m -> StronglySorted Z.lt l /\
       forall n, In n l <-> exists row, In row rs /\ sql_key_eqb k (fst row) = true /\
                                       row_spw rt remap row n).
Proof.
  intros d rt m.
  assert (Hd : forall row, In row (rows (t_targets d)) -> ~ In (SReal FNaN) row).
  { intros row Hrow. simpl in Hrow.
    destruct Hrow as [<-|[<-|[<-|[]]]]; simpl; intuition discriminate. }
  assert (Hm : get_mous_spw_mapping rt (py "M") d = Ok m) by (vm_compute; reflexivity).
  split; [exact Hd|]. split; [exact Hm|].
  destruct (spw_mapping_spec rt (py "M") d m Hd Hm)
    as (_ & rs & remap & E1 & E2 & _ & E3 & _).
  exists rs, remap. auto.
Defined.

End SpwFacts.

(* ================================================================== *)
(** ** Facts about the stage validators and the flows *)
(* ================================================================== *)

Module FlowFacts.
Import PyStr PyFloat PyVal Store DbPy Validate PPath Config Monitor Utils DbSpw Flows.

Lemma sql_is_str_true : forall s v, sql_is_str s v = true <-> v = SText s.
Proof.
  intros s v. destruct v; simpl; split; intro H; try discriminate.
  - apply SpwFacts.str_eqb_true in H. subst. reflexivity.
  - injection H as ->. apply SpwFacts.str_eqb_true. reflexivity.
Qed.

Lemma sql_is_str_false : forall s v, v <> SText s -> sql_is_str s v = false.
Proof.
  intros s v H. destruct (sql_is_str s v) eqn:E; [|reflexivity].
  apply sql_is_str_true in E. contradiction.
Qed.

(** C3 (counterexample): a row whose [pre_selfcal_split_status] is
    ['split'], with [pre_selfcal_listobs_status = 'pending'], is rejected
    by the listobs stage validator. *)
Lemma listobs_validator_rejects_split :
  let d := mk_db
    (mk_table [py "mous_id"; py "pre_selfcal_split_status"; py "pre_selfcal_listobs_status"]
       [[SText (py "U1"); SText (py "split"); SText (py "pending")]])
    (mk_table [] []) (mk_table [] []) in
  validate_mous_split_status (py "U1") d
  = Err (ValueError (py "MOUS U1 has status 'split', expected 'complete'.")).
Proof. vm_compute. reflexivity. Qed.

(** C3 (amended): the listobs stage validator returns exactly when the
    unit has a row whose [pre_selfcal_split_status] is the string
    ['complete'] and whose [pre_selfcal_listobs_status] is the string
    ['pending']; ['split'] is not accepted.  Any other split status [v]
    of an existing row is rejected with [ValueError("MOUS <id> has status
    '<v>', expected 'complete'.")], so a row with split status ['split']
    raises [ValueError("MOUS <id> has status 'split', expected
    'complete'.")]. *)
Theorem listobs_validator_spec : forall mous_id d,
  (validate_mous_split_status mous_id d = Ok tt <->
   exists r, get_pipeline_state_record mous_id d = Ok (Some r) /\
             row_get r (py "pre_selfcal_split_status") = Ok (SText (py "complete")) /\
             row_get r (py "pre_selfcal_listobs_status") = Ok (SText (py "pending"))) /\
  (forall r v, get_pipeline_state_record mous_id d = Ok (Some r) ->
     row_get r (py "pre_selfcal_split_status") = Ok v -> v <> SText (py "complete") ->
     validate_mous_split_status mous_id d
     = Err (ValueError (py "MOUS " ++ mous_id ++ py " has status '" ++ sql_fstr v
                        ++ py "', expected 'complete'."))) /\
  (forall r, get_pipeline_state_record mous_id d = Ok (Some r) ->
     row_get r (py "pre_selfcal_split_status") = Ok (SText (py "split")) ->
     validate_mous_split_status mous_id d
     = Err (ValueError (py "MOUS " ++ mous_id ++ py " has status 'split', expected 'complete'."))).
Proof.
  intros mous_id d.
  assert (Hrej : forall r v, get_pipeline_state_record mous_id d = Ok (Some r) ->
     row_get r (py "pre_selfcal_split_status") = Ok v -> v <> SText (py "complete") ->
     validate_mous_split_status mous_id d
     = Err (ValueError (py "MOUS " ++ mous_id ++ py " has status '" ++ sql_fstr v
                        ++ py "', expected 'complete'."))).
  { intros r v Hr Hv Hne. unfold validate_mous_split_status. rewrite Hr. cbn [res_bind].
    rewrite Hv. cbn [res_bind]. rewrite (sql_is_str_false _ _ Hne). reflexivity. }
  split; [|split; [exact Hrej|]].
  - unfold validate_mous_split_status. split.
    + destruct (get_pipeline_state_record mous_id d) as [[r|]|e]; simpl; try discriminate.
      destruct (row_get r (py "pre_selfcal_split_status")) as [s|e] eqn:Es; simpl; [|discriminate].
      destruct (sql_is_str (py "complete") s) eqn:Hs; simpl; [|discriminate].
      destruct (row_get r (py "pre_selfcal_listobs_status")) as [l|e] eqn:El; simpl; [|discriminate].
      destruct (sql_is_str (py "pending") l) eqn:Hl; simpl; [|discriminate].
      intros _. apply sql_is_str_true in Hs, Hl. subst. exists r. auto.
    + intros (r & -> & Es & El). simpl. rewrite Es. simpl.
      replace (sql_is_str (py "complete") (SText (py "complete"))) with true
        by (symmetry; apply sql_is_str_true; reflexivity).
      simpl. rewrite El. simpl.
      replace (sql_is_str (py "pending") (SText (py "pending"))) with true
        by (symmetry; apply sql_is_str_true; reflexivity).
      reflexivity.
  - intros r Hr Hv. rewrite (Hrej r (SText (py "split")) Hr Hv) by discriminate.
    reflexivity.
Qed.

Lemma listobs_validator_spec_witness :
  let r := ([py "mous_id"; py "pre_selfcal_split_status"; py "pre_selfcal_listobs_status"],
            [SText (py "U3"); SText (py "split"); SText (py "pending")]) in
  let d := mk_db (mk_table (fst r) [snd r]) (mk_table [] []) (mk_table [] []) in
  get_pipeline_state_record (py "U3") d = Ok (Some r) /\
  row_get r (py "pre_selfcal_split_status") = Ok (SText (py "split")) /\
  validate_mous_split_status (py "U3") d
  = Err (ValueError (py "MOUS U3 has status 'split', expected 'complete'.")).
Proof.
  intros r d.
  assert (Hr : get_pipeline_state_record (py "U3") d = Ok (Some r)) by (vm_compute; reflexivity).
  assert (Hv : row_get r (py "pre_selfcal_split_status") = Ok (SText (py "split")))
    by (vm_compute; reflexivity).
  split; [exact Hr|]. split; [exact Hv|].
  destruct (listobs_validator_spec (py "U3") d) as (_ & _ & H3).
  exact (H3 r Hr Hv).
Defined.

(** C7 (counterexample): unit [U2] with [download_status = 'in_progress']
    is rejected, but the message names the MOUS and the status value, not
    the field [download_status]. *)
Lemma download_validator_message_omits_field :
  let d := mk_db
    (mk_table [py "mous_id"; py "download_status"; py "download_url"]
       [[SText (py "U2"); SText (py "in_progress"); SText (py "https://example.org/U2")]])
    (mk_table [] []) (mk_table [] []) in
  exists msg, validate_mous_download_status (py "U2") d = Err (ValueError msg) /\
              msg = py "MOUS U2 has status 'in_progress', expected 'pending'" /\
              contains msg (py "download_status") = false.
Proof.
  intros d. eexists. split; [vm_compute; reflexivity|]. split; [reflexivity|].
  vm_compute. reflexivity.
Qed.

(** C7 (amended): the download stage validator returns the pair
    [(download_status, download_url)] exactly when the unit has a row
    whose [download_status] is the string ['pending'] and whose
    [download_url] is truthy; otherwise it raises [ValueError] with
    ["MOUS ID <id> not found"], ["MOUS <id> has status '<s>', expected
    'pending'"] or ["No download URL for <id>"] (no message names the
    column).  It only reads the database: when it raises, the download
    flow raises the same exception with the world (database and effects)
    unchanged. *)
Theorem download_validator_spec : forall mous_id d,
  (forall st url, validate_mous_download_status mous_id d = Ok (st, url) <->
     exists r u, get_pipeline_state_record mous_id d = Ok (Some r) /\
       row_get r (py "download_status") = Ok (SText (py "pending")) /\
       row_get r (py "download_url") = Ok u /\ sql_truthy u = true /\
       st = PStr (py "pending") /\ url = sql_to_py u) /\
  (get_pipeline_state_record mous_id d = Ok None ->
     validate_mous_download_status mous_id d
     = Err (ValueError (py "MOUS ID " ++ mous_id ++ py " not found"))) /\
  (forall r v, get_pipeline_state_record mous_id d = Ok (Some r) ->
     row_get r (py "download_status") = Ok v -> v <> SText (py "pending") ->
     validate_mous_download_status mous_id d
     = Err (ValueError (py "MOUS " ++ mous_id ++ py " has status '" ++ sql_fstr v
                        ++ py "', expected 'pending'"))) /\
  (forall r u, get_pipeline_state_record mous_id d = Ok (Some r) ->
     row_get r (py "download_status") = Ok (SText (py "pending")) ->
     row_get r (py "download_url") = Ok u -> sql_truthy u = false ->
     validate_mous_download_status mous_id d
     = Err (ValueError (py "No download URL for " ++ mous_id))) /\
  (forall rt ev db_path download_dir w e, w_db w = d ->
     validate_mous_download_status mous_id d = Err e ->
     download_mous_flow rt ev mous_id db_path download_dir w = (Err e, w)).
Proof.
  intros mous_id d.
  assert (Hp : sql_is_str (py "pending") (SText (py "pending")) = true)
    by (apply sql_is_str_true; reflexivity).
  unfold validate_mous_download_status. split; [|split; [|split; [|split]]].
  - intros st url. split.
    + destruct (get_pipeline_state_record mous_id d) as [[r|]|e]; simpl; try discriminate.
      destruct (row_get r (py "download_status")) as [s|e] eqn:Es; simpl; [|discriminate].
      destruct (sql_is_str (py "pending") s) eqn:Hs; simpl; [|discriminate].
      destruct (row_get r (py "download_url")) as [u|e] eqn:Eu; simpl; [|discriminate].
      destruct (sql_truthy u) eqn:Hu; simpl; [|discriminate].
      intros H. injection H as <- <-. apply sql_is_str_true in Hs. subst.
      exists r, u. repeat split; auto.
    + intros (r & u & -> & Es & Eu & Hu & -> & ->). cbn [res_bind]. rewrite Es.
      cbn [res_bind]. rewrite Hp. cbn [negb]. rewrite Eu. cbn [res_bind]. rewrite Hu.
      reflexivity.
  - intros ->. reflexivity.
  - intros r v -> Es Hv. cbn [res_bind]. rewrite Es. cbn [res_bind].
    rewrite (sql_is_str_false _ _ Hv). reflexivity.
  - intros r u -> Es Eu Hu. cbn [res_bind]. rewrite Es. cbn [res_bind]. rewrite Hp.
    cbn [negb]. rewrite Eu. cbn [res_bind]. rewrite Hu. reflexivity.
  - intros rt ev db_path download_dir w e Hw He.
    unfold download_mous_flow, bind, read_db, validate_mous_download_status.
    rewrite Hw, He. reflexivity.
Qed.

Lemma download_validator_spec_witness :
  let d := mk_db
    (mk_table [py "mous_id"; py "download_status"; py "download_url"]
       [[SText (py "U2"); SText (py "in_progress"); SText (py "https://example.org/U2")]])
    (mk_table [] []) (mk_table [] []) in
  let rt := mk_runtime 1000 (fun _ _ d => Ok d) (fun _ => true) in
  let ev := mk_env (fun _ => py "20260101_0000") (py "/p") (fun p dir => Ok dir)
                   (fun _ => Ok tt) (fun _ _ _ _ _ => Ok (PList [PStr (py "j")])) in
  let e := ValueError (py "MOUS U2 has status 'in_progress', expected 'pending'") in
  validate_mous_download_status (py "U2") d = Err e /\
  download_mous_flow rt ev (py "U2") None None (mk_world d []) = (Err e, mk_world d []).
Proof.
  intros d rt ev e.
  destruct (download_validator_spec (py "U2") d) as (_ & _ & H3 & _ & H5).
  assert (E : validate_mous_download_status (py "U2") d = Err e).
  { apply (H3 ([py "mous_id"; py "download_status"; py "download_url"],
               [SText (py "U2"); SText (py "in_progress"); SText (py "https://example.org/U2")])
              (SText (py "in_progress"))).
    - vm_compute. reflexivity.
    - vm_compute. reflexivity.
    - intros H. discriminate H. }
  split; [exact E|]. apply H5; [reflexivity|exact E].
Defined.

(** C1 (code bug): with a valid split-eligible row and no [targets] rows,
    [split_mous_flow] sets [pre_selfcal_split_status] to ['in_progress'],
    then [build_split_job_payload] raises [RuntimeError("No targets found
    for ...")] outside the [try], and the flow ends with the status still
    ['in_progress'] (here every host call succeeds). *)
Theorem split_no_targets_left_in_progress :
  let rt := mk_runtime 1000 (fun _ _ d => Ok d) (fun _ => true) in
  let ev := mk_env (fun _ => py "20260101-0000") (py "/p") (fun p dir => Ok dir)
                   (fun _ => Ok tt) (fun _ _ _ _ _ => Ok (PList [PStr (py "j")])) in
  let d := mk_db
    (mk_table [py "mous_id"; py "download_status"; py "pre_selfcal_split_status";
               py "calibrated_products"; py "raw_data_spectral_remap"]
       [[SText (py "uid://A001/X1/X2"); SText (py "complete"); SText (py "pending");
         SText (map (fun c => if c =? 39 then 34 else c) (py "['/data/x/a.ms']")); SNull]])
    (mk_table [] [])
    (mk_table [py "mous_id"; py "alma_source_name"; py "obs_id"] []) in
  let r := split_mous_flow rt ev (py "uid://A001/X1/X2") (Some (py "/db.sqlite")) (Some (py "/data"))
             (mk_world d []) in
  fst r = Err (RuntimeError (py "No targets found for uid://A001/X1/X2.")) /\
  get_pipeline_state_record_column_value rt (py "uid://A001/X1/X2") (py "pre_selfcal_split_status")
    (w_db (snd r)) = Ok (PStr (py "in_progress")).
Proof. vm_compute. split; reflexivity. Qed.

Lemma map_res_forall2 : forall {A B} (f : A -> res B) xs ys,
  map_res f xs = Ok ys -> Forall2 (fun x y => f x = Ok y) xs ys.
Proof.
  intros A B f xs. induction xs as [|x xs IH]; intros ys H; simpl in H.
  - injection H as <-. constructor.
  - destruct (f x) as [y|e] eqn:Ex; simpl in H; [|discriminate].
    destruct (map_res f xs) as [ys'|e] eqn:Exs; simpl in H; [|discriminate].
    injection H as <-. constructor; auto.
Qed.

Lemma split_entry_shape : forall rt cp sdir spw dc t,
  split_entry rt cp sdir spw dc = Ok t ->
  exists vis outv, t = PDict [(PStr (py "task"), PStr (py "split")); (PStr (py "vis"), PStr vis);
                             (PStr (py "outputvis"), PStr outv);
                             (PStr (py "intent"), PStr (py "*OBSERVE_TARGET*"));
                             (PStr (py "spw"), PStr spw); (PStr (py "datacolumn"), PStr dc)].
Proof.
  intros rt cp sdir spw dc t H. unfold split_entry in H.
  destruct (pstr rt cp) as [a|e]; simpl in H; [|discriminate].
  destruct (path_of_val cp) as [p|e]; simpl in H; [|discriminate].
  injection H as <-. eexists _, _. reflexivity.
Qed.

Lemma casa_task_split_entry : forall vis outv spw dc,
  casa_task (PDict [(PStr (py "task"), PStr (py "split")); (PStr (py "vis"), PStr vis);
                    (PStr (py "outputvis"), PStr outv);
                    (PStr (py "intent"), PStr (py "*OBSERVE_TARGET*"));
                    (PStr (py "spw"), PStr spw); (PStr (py "datacolumn"), PStr dc)])
  = Err (KeyError (py "'field'")).
Proof. intros. vm_compute. reflexivity. Qed.

(** C2 (code bug): every task entry of a split manifest built by
    [build_split_job_payload] has exactly the keys [task], [vis],
    [outputvis], [intent], [spw], [datacolumn] (no [field]), and
    casa_driver.py's loop raises [KeyError('field')] on the first one. *)
Theorem split_manifest_lacks_field : forall rt mous_id pdb cps mdir sdir d payload outs,
  build_split_job_payload rt mous_id pdb cps mdir sdir d = Ok (payload, outs) ->
  exists tasks,
    payload = PDict [(PStr (py "mous_id"), PStr mous_id); (PStr (py "db_path"), PStr pdb);
                     (PStr (py "mous_dir"), PStr mdir); (PStr (py "tasks"), PList tasks)] /\
    Forall (fun t => exists kvs, t = PDict kvs /\
              map fst kvs = map (fun k => PStr (py k))
                              ["task"; "vis"; "outputvis"; "intent"; "spw"; "datacolumn"]%string)
           tasks /\
    (tasks <> [] -> casa_driver_run payload = Err (KeyError (py "'field'"))).
Proof.
  intros rt mous_id pdb cps mdir sdir d payload outs H. unfold build_split_job_payload in H.
  destruct (get_mous_spw_mapping rt mous_id d) as [spws|e]; cbn [res_bind] in H; [|discriminate].
  destruct spws as [|kv spws]; [discriminate|].
  destruct (get_pipeline_state_record_column_value rt mous_id _ d) as [pc|e]; cbn [res_bind] in H; [|discriminate].
  destruct (match pc with PNone => Ok (py "data") | _ => pstr rt pc end) as [dc|e];
    cbn [res_bind] in H; [|discriminate].
  destruct (py_iter cps) as [cpl|e]; cbn [res_bind] in H; [|discriminate].
  destruct (map_res _ (kv :: spws)) as [keys|e]; cbn [res_bind] in H; [|discriminate].
  destruct (map_res _ cpl) as [tasks|e] eqn:Et; cbn [res_bind] in H; [|discriminate].
  destruct (map_res _ tasks) as [os|e]; cbn [res_bind] in H; [|discriminate].
  injection H as <- _. exists tasks. split; [reflexivity|].
  apply map_res_forall2 in Et.
  assert (Hs : Forall (fun t => exists vis outv, t = PDict
             [(PStr (py "task"), PStr (py "split")); (PStr (py "vis"), PStr vis);
              (PStr (py "outputvis"), PStr outv);
              (PStr (py "intent"), PStr (py "*OBSERVE_TARGET*"));
              (PStr (py "spw"), PStr (join [44] keys)); (PStr (py "datacolumn"), PStr dc)]) tasks).
  { clear -Et. induction Et as [|x y xs ys Hxy _ IH]; constructor; [|exact IH].
    exact (split_entry_shape _ _ _ _ _ _ Hxy). }
  split.
  - eapply Forall_impl; [|exact Hs]. intros t (vis & outv & ->). eexists; split; reflexivity.
  - intros Hne. destruct tasks as [|t tasks]; [contradiction|].
    inversion Hs as [|? ? (vis & outv & ->) _]; subst.
    unfold casa_driver_run. vm_compute. reflexivity.
Qed.

Lemma split_manifest_lacks_field_witness :
  let rt := mk_runtime 1000 (fun _ _ d => Ok d) (fun _ => true) in
  let d := mk_db
    (mk_table [py "mous_id"; py "raw_data_spectral_remap"; py "preferred_datacolumn"]
       [[SText (py "M"); SNull; SNull]])
    (mk_table [] [])
    (mk_table [py "mous_id"; py "alma_source_name"; py "obs_id"]
       [[SText (py "M"); SText (py "A"); SText (py "x.spw.16")]]) in
  exists payload outs,
    build_split_job_payload rt (py "M") (py "/db") (PList [PStr (py "/d/a.ms")]) (py "/d") (py "/d/splits") d
    = Ok (payload, outs) /\
    casa_driver_run payload = Err (KeyError (py "'field'")).
Proof.
  intros rt d.
  destruct (build_split_job_payload rt (py "M") (py "/db") (PList [PStr (py "/d/a.ms")]) (py "/d")
              (py "/d/splits") d) as [[payload outs]|e] eqn:H;
    [|vm_compute in H; discriminate H].
  exists payload, outs. split; [reflexivity|].
  destruct (split_manifest_lacks_field _ _ _ _ _ _ _ _ _ H) as (tasks & Hp & _ & Hf).
  apply Hf. intros ->. subst payload. vm_compute in H. discriminate H.
Defined.

End FlowFacts.

(* ================================================================== *)
(** ** Facts about the download organizer *)
(* ================================================================== *)

Module OrganizeFacts.
Import PyStr PyVal Store PPath Utils Flows Monitor Organize.

Lemma str_eqb_refl : forall s, str_eqb s s = true.
Proof. intros s. apply SpwFacts.str_eqb_true. reflexivity. Qed.

Lemma weblog_not_ms : forall n, is_weblog n = true -> is_ms n = false.
Proof.
  intros n H. unfold is_weblog in H. apply SpwFacts.str_eqb_true in H. subst. reflexivity.
Qed.

Lemma list_remove_app : forall d K rest, (forall y, In y K -> y <> d) ->
  list_remove d (K ++ d :: rest) = Ok (K ++ rest).
Proof.
  intros d K rest. induction K as [|y K IH]; intros HK; simpl.
  - rewrite str_eqb_refl. reflexivity.
  - destruct (str_eqb y d) eqn:E.
    + apply SpwFacts.str_eqb_true in E. exfalso. apply (HK y); [left; reflexivity|exact E].
    + rewrite IH; [reflexivity|]. intros z Hz. apply HK. right. exact Hz.
Qed.

Lemma scan_dirs_spec : forall root rest K ms wb,
  (forall y, In y K -> is_ms y = false /\ is_weblog y = false) ->
  scan_dirs root rest (K ++ rest) ms wb =
  Ok (ms ++ map (os_path_join root) (filter is_ms rest),
      wb ++ map (os_path_join root) (filter (fun n => negb (is_ms n) && is_weblog n) rest),
      K ++ filter (fun n => negb (is_ms n) && negb (is_weblog n)) rest).
Proof.
  intros root rest. induction rest as [|d rest IH]; intros K ms wb HK; simpl.
  - rewrite !app_nil_r. reflexivity.
  - assert (Hne : forall y, In y K -> y <> d -> True) by auto.
    destruct (is_ms d) eqn:Em; simpl.
    + rewrite list_remove_app.
      2:{ intros y Hy ->. destruct (HK d Hy) as [H _]. congruence. }
      simpl. rewrite IH by exact HK. rewrite <- app_assoc. reflexivity.
    + destruct (is_weblog d) eqn:Ew; simpl.
      * rewrite list_remove_app.
        2:{ intros y Hy ->. destruct (HK d Hy) as [_ H]. congruence. }
        simpl. rewrite IH by exact HK. rewrite <- app_assoc. reflexivity.
      * replace (K ++ d :: rest) with ((K ++ [d]) ++ rest) by (rewrite <- app_assoc; reflexivity).
        rewrite IH.
        -- rewrite <- app_assoc. reflexivity.
        -- intros y Hy. apply in_app_or in Hy. destruct Hy as [Hy|[<-|[]]]; auto.
Qed.

Lemma lookup_in : forall n ds s, lookup n ds = Some s -> In (n, s) ds.
Proof.
  intros n ds. induction ds as [|[m t] ds IH]; intros s H; simpl in H; [discriminate|].
  destruct (str_eqb m n) eqn:E.
  - injection H as <-. apply SpwFacts.str_eqb_true in E. subst. left. reflexivity.
  - right. apply IH. exact H.
Qed.

Lemma nodupb_cons : forall x r, nodupb (x :: r) = true -> ~ In x r /\ nodupb r = true.
Proof.
  intros x r H. simpl in H. apply andb_prop in H as [H1 H2]. split; [|exact H2].
  intros Hin. apply negb_true_iff in H1.
  assert (existsb (str_eqb x) r = true) by (apply existsb_exists; exists x; split; [exact Hin|apply str_eqb_refl]).
  congruence.
Qed.

Lemma lookup_nodup : forall ds n s, nodupb (map fst ds) = true -> In (n, s) ds -> lookup n ds = Some s.
Proof.
  intros ds. induction ds as [|[m t] ds IH]; intros n s Hu Hin; [destruct Hin|].
  simpl in Hu. apply nodupb_cons in Hu as [Hm Hu]. simpl.
  destruct Hin as [E|Hin].
  - injection E as -> ->. rewrite str_eqb_refl. reflexivity.
  - destruct (str_eqb m n) eqn:E.
    + apply SpwFacts.str_eqb_true in E. subst m. exfalso. apply Hm.
      apply (in_map fst) in Hin. exact Hin.
    + apply IH; assumption.
Qed.

Lemma depth_child : forall ds n s, In (n, s) ds -> (depth s < depth (Node ds))%nat.
Proof.
  intros ds. induction ds as [|[m t] ds IH]; intros n s Hin; [destruct Hin|].
  destruct Hin as [E|Hin].
  - injection E as -> ->. simpl. lia.
  - specialize (IH n s Hin). simpl in IH |- *. lia.
Qed.

Lemma names_unique_node : forall ds, names_unique (Node ds) = true ->
  nodupb (map fst ds) = true /\ forall n s, In (n, s) ds -> names_unique s = true.
Proof.
  intros ds H. simpl in H. apply andb_prop in H as [H1 H2]. split; [exact H1|].
  clear H1. induction ds as [|[m t] ds IH]; intros n s Hin; [destruct Hin|].
  apply andb_prop in H2 as [H2 H3]. destruct Hin as [E|Hin].
  - injection E as -> ->. exact H2.
  - exact (IH H3 n s Hin).
Qed.

Lemma lookup_some_of_in_names : forall n ds, In n (map fst ds) -> exists s, lookup n ds = Some s.
Proof.
  intros n ds. induction ds as [|[m t] ds IH]; simpl; intros H; [destruct H|].
  destruct (str_eqb m n) eqn:E; [eauto|].
  destruct H as [<-|H]; [rewrite str_eqb_refl in E; discriminate|apply IH, H].
Qed.

Lemma walk_fold : forall f root ds,
  (forall n s ms wb, In (n, s) ds -> exists A B,
     walk f (os_path_join root n) s ms wb = Ok (ms ++ A, wb ++ B) /\
     (forall p, In p A <-> found is_ms (os_path_join root n) s p) /\
     (forall p, In p B <-> found is_weblog (os_path_join root n) s p)) ->
  forall L ms wb, (forall n, In n L -> In n (map fst ds)) ->
  exists A B,
    fold_left (fun acc n =>
                 let? a := acc in
                 match lookup n ds with
                 | Some s => walk f (os_path_join root n) s (fst a) (snd a)
                 | None => Ok a
                 end) L (Ok (ms, wb)) = Ok (ms ++ A, wb ++ B) /\
    (forall p, In p A <-> exists n s, In n L /\ lookup n ds = Some s /\ found is_ms (os_path_join root n) s p) /\
    (forall p, In p B <-> exists n s, In n L /\ lookup n ds = Some s /\ found is_weblog (os_path_join root n) s p).
Proof.
  intros f root ds IHc L. induction L as [|n L IHL]; intros ms wb HL.
  - exists [], []. simpl. rewrite !app_nil_r. split; [reflexivity|].
    split; intros p; split; first [intros (n & s & [] & _) | intros []].
  - destruct (lookup_some_of_in_names n ds (HL n (or_introl eq_refl))) as [s Hs].
    destruct (IHc n s ms wb (lookup_in _ _ _ Hs)) as (A1 & B1 & E1 & HA1 & HB1).
    destruct (IHL (ms ++ A1) (wb ++ B1)) as (A2 & B2 & E2 & HA2 & HB2).
    { intros m Hm. apply HL. right. exact Hm. }
    exists (A1 ++ A2), (B1 ++ B2). cbn [fold_left res_bind]. rewrite Hs. cbn [fst snd].
    rewrite E1, E2, !app_assoc. split; [reflexivity|].
    split; intros p; rewrite in_app_iff.
    + rewrite HA1, HA2. split.
      * intros [H|(m & t & Hm & Ht & H)]; [exists n, s; split; [left; reflexivity|auto]|exists m, t; split; [right; exact Hm|auto]].
      * intros (m & t & [<-|Hm] & Ht & H); [left|right; exists m, t; auto].
        rewrite Hs in Ht. injection Ht as <-. exact H.
    + rewrite HB1, HB2. split.
      * intros [H|(m & t & Hm & Ht & H)]; [exists n, s; split; [left; reflexivity|auto]|exists m, t; split; [right; exact Hm|auto]].
      * intros (m & t & [<-|Hm] & Ht & H); [left|right; exists m, t; auto].
        rewrite Hs in Ht. injection Ht as <-. exact H.
Qed.

Lemma walk_spec : forall f t root ms wb, (depth t < f)%nat -> names_unique t = true ->
  exists A B, walk f root t ms wb = Ok (ms ++ A, wb ++ B) /\
    (forall p, In p A <-> found is_ms root t p) /\
    (forall p, In p B <-> found is_weblog root t p).
Proof.
  induction f as [|f IH]; intros [ds] root ms wb Hd Hu; [lia|].
  destruct (names_unique_node ds Hu) as [Hnd Hcu].
  pose proof (scan_dirs_spec root (map fst ds) [] ms wb (fun y H => match H with end)) as Hs.
  cbn [app] in Hs.
  cbn [walk]. rewrite Hs. cbn [res_bind].
  destruct (walk_fold f root ds
              (fun n s ms wb Hin => IH s (os_path_join root n) ms wb
                 (ltac:(pose proof (depth_child ds n s Hin); lia)) (Hcu n s Hin))
              (filter (fun n => negb (is_ms n) && negb (is_weblog n)) (map fst ds))
              (ms ++ map (os_path_join root) (filter is_ms (map fst ds)))
              (wb ++ map (os_path_join root) (filter (fun n => negb (is_ms n) && is_weblog n) (map fst ds))))
    as (A & B & E & HA & HB).
  { intros n Hn. apply filter_In in Hn. apply Hn. }
  rewrite E.
  exists (map (os_path_join root) (filter is_ms (map fst ds)) ++ A),
         (map (os_path_join root) (filter (fun n => negb (is_ms n) && is_weblog n) (map fst ds)) ++ B).
  rewrite !app_assoc. split; [reflexivity|].
  split; intros p; rewrite in_app_iff; [rewrite HA|rewrite HB]; split.
  - intros [H|(n & s & Hn & Hl & H)].
    + apply in_map_iff in H as (n & <- & H). apply filter_In in H as [H Hm].
      apply in_map_iff in H as ([n' s] & E' & Hin). simpl in E'. subst n'.
      eapply found_here; eauto.
    + apply filter_In in Hn as [_ Hk]. apply andb_prop in Hk as [H1 H2].
      apply negb_true_iff in H1, H2. eapply found_below; eauto using lookup_in.
  - intros Hf. inversion Hf as [? ? n s Hin HK|? ? n s p' Hin Hm Hw Hf']; subst.
    + left. apply in_map. apply filter_In. split; [|exact HK].
      apply in_map_iff. exists (n, s). auto.
    + right. exists n, s. split.
      * apply filter_In. split; [apply in_map_iff; exists (n, s); auto|rewrite Hm, Hw; reflexivity].
      * split; [apply lookup_nodup; auto|exact Hf'].
  - intros [H|(n & s & Hn & Hl & H)].
    + apply in_map_iff in H as (n & <- & H). apply filter_In in H as [H Hm].
      apply andb_prop in Hm as [_ Hm].
      apply in_map_iff in H as ([n' s] & E' & Hin). simpl in E'. subst n'.
      eapply found_here; eauto.
    + apply filter_In in Hn as [_ Hk]. apply andb_prop in Hk as [H1 H2].
      apply negb_true_iff in H1, H2. eapply found_below; eauto using lookup_in.
  - intros Hf. inversion Hf as [? ? n s Hin HK|? ? n s p' Hin Hm Hw Hf']; subst.
    + left. apply in_map. apply filter_In. split; [|rewrite (weblog_not_ms n HK), HK; reflexivity].
      apply in_map_iff. exists (n, s). auto.
    + right. exists n, s. split.
      * apply filter_In. split; [apply in_map_iff; exists (n, s); auto|rewrite Hm, Hw; reflexivity].
      * split; [apply lookup_nodup; auto|exact Hf'].
Qed.

Lemma str_ltb_irrefl : forall a, str_ltb a a = false.
Proof. induction a as [|x a IH]; simpl; [reflexivity|]. rewrite Z.ltb_irrefl, Z.eqb_refl, IH. reflexivity. Qed.

Lemma str_ltb_trans : forall a b c, str_ltb a b = true -> str_ltb b c = true -> str_ltb a c = true.
Proof.
  induction a as [|x a IH]; intros [|y b] [|z c]; simpl; try discriminate; auto.
  intros H1 H2. rewrite orb_true_iff, andb_true_iff, Z.ltb_lt, Z.eqb_eq in *.
  destruct H1 as [H1|[H1 H1']], H2 as [H2|[H2 H2']]; try (left; lia).
  right. split; [lia|eapply IH; eauto].
Qed.

Lemma str_ltb_total : forall a b, str_ltb a b = false -> str_ltb b a = false -> a = b.
Proof.
  induction a as [|x a IH]; intros [|y b]; simpl; try discriminate; auto.
  intros H1 H2. destruct (Z.compare_spec x y) as [<-|Hl|Hl].
  - rewrite Z.ltb_irrefl, Z.eqb_refl in H1, H2. simpl in H1, H2. f_equal. apply IH; assumption.
  - apply Z.ltb_lt in Hl. rewrite Hl in H1. discriminate.
  - apply Z.ltb_lt in Hl. rewrite Hl in H2. discriminate.
Qed.

Lemma insert_str_in : forall x l y, In y (insert_str x l) <-> y = x \/ In y l.
Proof.
  intros x l y. induction l as [|z l IH]; simpl.
  - split; [intros [<-|[]]; auto|intros [->|[]]; auto].
  - destruct (str_ltb x z); [simpl; split; intros; intuition|].
    destruct (str_eqb x z) eqn:E.
    + apply SpwFacts.str_eqb_true in E. subst. simpl. intuition.
    + simpl. rewrite IH. intuition.
Qed.

Lemma insert_str_hd : forall y x l, str_ltb y x = true -> HdRel (fun a b => str_ltb a b = true) y l -> HdRel (fun a b => str_ltb a b = true) y (insert_str x l).
Proof.
  intros y x [|z l] H1 H2; simpl; [constructor; exact H1|].
  destruct (str_ltb x z); [constructor; exact H1|].
  destruct (str_eqb x z); [exact H2|]. constructor. inversion H2; assumption.
Qed.

Lemma insert_str_sorted : forall x l, Sorted (fun a b => str_ltb a b = true) l -> Sorted (fun a b => str_ltb a b = true) (insert_str x l).
Proof.
  intros x l. induction l as [|z l IH]; intros Hs; simpl; [constructor; constructor|].
  destruct (str_ltb x z) eqn:Elt; [constructor; [exact Hs|constructor; exact Elt]|].
  destruct (str_eqb x z) eqn:Eeq; [exact Hs|].
  inversion Hs as [|? ? Hs' Hd]; subst. constructor; [apply IH; exact Hs'|].
  apply insert_str_hd; [|exact Hd].
  destruct (str_ltb z x) eqn:E; [reflexivity|].
  rewrite (str_ltb_total x z Elt E), str_eqb_refl in Eeq. discriminate.
Qed.

Lemma sorted_set_in : forall l y, In y (sorted_set l) <-> In y l.
Proof.
  induction l as [|x l IH]; intros y; simpl; [reflexivity|].
  rewrite insert_str_in, IH. intuition.
Qed.

Lemma sorted_set_sorted : forall l, StronglySorted (fun a b => str_ltb a b = true) (sorted_set l).
Proof.
  intros l. apply Sorted_StronglySorted; [intros a b c; apply str_ltb_trans|].
  induction l as [|x l IH]; simpl; [constructor|]. apply insert_str_sorted, IH.
Qed.

Lemma after_nil : forall w, after w [] = w.
Proof. intros [d l]. unfold after. simpl. rewrite app_nil_r. reflexivity. Qed.

Section HostOk.
Variable ev : env.
Hypothesis Hfs : forall fx, env_fs ev fx = Ok tt.

Lemma fs_ok : forall fx w, fs ev fx w = (Ok tt, after w [fx]).
Proof. intros fx w. unfold fs. rewrite Hfs. reflexivity. Qed.

Lemma move_all_ok : forall dest_root xs w,
  move_all ev dest_root xs w =
  (Ok (map (fun x => path_str (path_div_s dest_root (name (path_of_str x)))) xs),
   after w (map (fun x => FxMove x (path_str (path_div_s dest_root (name (path_of_str x))))) xs)).
Proof.
  intros dest_root xs. induction xs as [|x r IH]; intros w; cbn [move_all map].
  - rewrite after_nil. reflexivity.
  - unfold Store.bind. rewrite fs_ok, IH. unfold ret. rewrite MonitorFacts.after_after. reflexivity.
Qed.
End HostOk.
(** C4 (counterexample): three [.ms] directories [a/z.ms], [b/a.ms] and
    [c/z.ms] under the staging directory.  The returned paths are the
    destinations [dest_root / name], in the order of the sorted sources:
    [z.ms, a.ms, z.ms], neither sorted nor free of duplicates. *)
Lemma organize_paths_unsorted_duplicated :
  let ev := mk_env (fun _ => py "20260101_0000") (py "/p") (fun p dir => Ok dir)
                   (fun _ => Ok tt) (fun _ _ _ _ _ => Ok (PList [])) in
  let t := Node [(py "a", Node [(py "z.ms", Node [])]);
                 (py "b", Node [(py "a.ms", Node [])]);
                 (py "c", Node [(py "z.ms", Node [])])] in
  exists paths moved_ms moved_wb dest_root w',
    organize_downloaded_files ev (py "uid://A001/X1/X2") (py "/t") (py "/D") (py "/W") t
      (mk_world (mk_db (mk_table [] []) (mk_table [] []) (mk_table [] [])) [])
    = (Ok (paths, moved_ms, moved_wb, dest_root), w') /\
    paths = [py "/D/uid___A001_X1_X2/z.ms"; py "/D/uid___A001_X1_X2/a.ms";
             py "/D/uid___A001_X1_X2/z.ms"] /\
    nodupb paths = false /\ str_ltb (nth 1 paths []) (nth 0 paths []) = true.
Proof.
  intros ev t. eexists _, _, _, _, _. split; [vm_compute; reflexivity|].
  split; [reflexivity|]. split; vm_compute; reflexivity.
Qed.

(** C4 (amended): when every file-system call succeeds, the MOUS id
    converts to [dir_id] and the directory names are distinct, the walk
    finds [ms], the [.ms] directories, and [wb], the [weblog_restore]
    directories, below directories matching neither test and never inside a
    matched one; both lists are sorted and distinct.
    [organize_downloaded_files] creates [download_dir/dir_id] and
    [weblog_dir/dir_id/weblog_restore], moves each directory of [ms] to
    [download_dir/dir_id/<name>] and each of [wb] to
    [weblog_dir/dir_id/weblog_restore/<name>], warns (and goes on) for an
    empty bucket, and returns the list of destinations in the order of
    [ms] (so one path per found directory, not necessarily sorted nor
    distinct), whether [ms] and [wb] are non-empty, and the first root.
    The flow's task of the same name moves to [mous_dir] and [weblog_dir]
    directly: it creates no directory and never warns. *)
Lemma organize_spec : forall ev mous_id dir_id tmpdir download_dir weblog_dir t w,
  (forall fx, env_fs ev fx = Ok tt) ->
  to_dir_mous_id mous_id = Ok dir_id ->
  names_unique t = true ->
  exists ms wb,
    (forall p, In p ms <-> found is_ms tmpdir t p) /\
    StronglySorted (fun a b => str_ltb a b = true) ms /\
    (forall p, In p wb <-> found is_weblog tmpdir t p) /\
    StronglySorted (fun a b => str_ltb a b = true) wb /\
    organize_downloaded_files ev mous_id tmpdir download_dir weblog_dir t w =
    (Ok (map (fun x => path_str (path_div_s (path_div_s (path_of_str download_dir) dir_id)
                                            (name (path_of_str x)))) ms,
         negb (Nat.eqb (List.length ms) 0), negb (Nat.eqb (List.length wb) 0),
         path_div_s (path_of_str download_dir) dir_id),
     after w ([FxMkdir (path_str (path_div_s (path_of_str download_dir) dir_id));
               FxMkdir (path_str (path_div_s (path_div_s (path_of_str weblog_dir) dir_id)
                                             (py "weblog_restore")))] ++
              match ms with
              | [] => [FxWarn (py "[" ++ mous_id ++ py "] No .ms directories found.")]
              | _ :: _ => map (fun x => FxMove x (path_str (path_div_s
                              (path_div_s (path_of_str download_dir) dir_id)
                              (name (path_of_str x))))) ms
              end ++
              match wb with
              | [] => [FxWarn (py "[" ++ mous_id ++ py "] No weblog_restore found.")]
              | _ :: _ => map (fun x => FxMove x (path_str (path_div_s
                              (path_div_s (path_div_s (path_of_str weblog_dir) dir_id)
                                          (py "weblog_restore"))
                              (name (path_of_str x))))) wb
              end)) /\
    forall mous_dir weblog_dir',
      organize_downloaded_files_task ev mous_id mous_dir tmpdir weblog_dir' t w =
      (Ok (map (fun x => path_str (path_div_s (path_of_str mous_dir) (name (path_of_str x)))) ms),
       after w (map (fun x => FxMove x (path_str (path_div_s (path_of_str mous_dir)
                                                   (name (path_of_str x))))) ms ++
                map (fun x => FxMove x (path_str (path_div_s (path_of_str weblog_dir')
                                                   (name (path_of_str x))))) wb)).
Proof.
  intros ev mous_id dir_id tmpdir download_dir weblog_dir t w Hfs Hid Hu.
  destruct (walk_spec (S (depth t)) t tmpdir [] [] (Nat.lt_succ_diag_r _) Hu)
    as (A & B & Hw & HA & HB).
  cbn [app] in Hw.
  exists (sorted_set A), (sorted_set B).
  split; [intros p; rewrite sorted_set_in; apply HA|].
  split; [apply sorted_set_sorted|].
  split; [intros p; rewrite sorted_set_in; apply HB|].
  split; [apply sorted_set_sorted|].
  assert (Hos : os_walk tmpdir t = Ok (A, B)) by exact Hw.
  split.
  - unfold organize_downloaded_files, Store.bind, lift. rewrite Hid, Hos. cbn [fst snd].
    rewrite !(fs_ok ev Hfs), MonitorFacts.after_after.
    destruct (sorted_set A) as [|x r] eqn:EA; destruct (sorted_set B) as [|y q] eqn:EB;
      repeat (first [rewrite MonitorFacts.emit_after | rewrite (move_all_ok ev Hfs)
                    | rewrite MonitorFacts.after_after]; unfold ret; cbv beta iota);
      unfold ret, emit, after; cbn [w_db w_log map app]; rewrite <- ?app_assoc;
      cbn [app]; reflexivity.
  - intros mous_dir weblog_dir'.
    unfold organize_downloaded_files_task, Store.bind, lift. rewrite Hos. cbn [fst snd].
    rewrite !(move_all_ok ev Hfs), MonitorFacts.after_after. reflexivity.
Qed.

Lemma organize_spec_witness :
  let ev := mk_env (fun _ => py "20260101_0000") (py "/p") (fun p dir => Ok dir)
                   (fun _ => Ok tt) (fun _ _ _ _ _ => Ok (PList [])) in
  let t := Node [(py "foo.ms", Node [(py "inner.ms", Node [])]);
                 (py "weblog_restore", Node [])] in
  (forall fx, env_fs ev fx = Ok tt) /\
  to_dir_mous_id (py "uid://A001/X1/X2") = Ok (py "uid___A001_X1_X2") /\
  names_unique t = true /\
  exists ms wb, (forall p, In p ms <-> found is_ms (py "/t") t p) /\
                (forall p, In p wb <-> found is_weblog (py "/t") t p).
Proof.
  intros ev t.
  assert (Hfs : forall fx, env_fs ev fx = Ok tt) by reflexivity.
  assert (Hid : to_dir_mous_id (py "uid://A001/X1/X2") = Ok (py "uid___A001_X1_X2"))
    by (vm_compute; reflexivity).
  assert (Hu : names_unique t = true) by (vm_compute; reflexivity).
  split; [exact Hfs|]. split; [exact Hid|]. split; [exact Hu|].
  destruct (organize_spec ev (py "uid://A001/X1/X2") (py "uid___A001_X1_X2") (py "/t")
              (py "/D") (py "/W") t (mk_world (mk_db (mk_table [] []) (mk_table [] []) (mk_table [] [])) [])
              Hfs Hid Hu) as (ms & wb & H1 & _ & H2 & _).
  exists ms, wb. split; assumption.
Defined.

End OrganizeFacts.

(* ================================================================== *)
(** ** Round trips of the JSON encoder and decoder *)
(* ================================================================== *)

Module JsonFacts.
Import PyStr PyVal DbPy Json JsonShape.

Ltac sok_index := match goal with
  | |- SOk (_, ?x, _) = SOk (_, ?y, _) => replace x with y by lia; reflexivity
  end.

Lemma hex_val_digit : forall d, 0 <= d < 16 -> hex_val (hex_digit d) = Some d.
Proof.
  intros d Hd.
  assert (d = 0 \/ d = 1 \/ d = 2 \/ d = 3 \/ d = 4 \/ d = 5 \/ d = 6 \/ d = 7 \/ d = 8 \/
          d = 9 \/ d = 10 \/ d = 11 \/ d = 12 \/ d = 13 \/ d = 14 \/ d = 15) as H by lia.
  repeat destruct H as [->|H]; try reflexivity. subst. reflexivity.
Qed.

Lemma hex4_val_hex4 : forall c, 0 <= c < 65536 ->
  hex4_val (hex_digit (c / 4096 mod 16)) (hex_digit (c / 256 mod 16))
           (hex_digit (c / 16 mod 16)) (hex_digit (c mod 16)) = Some c.
Proof.
  intros c Hc. unfold hex4_val.
  rewrite !hex_val_digit by (apply Z.mod_pos_bound; lia).
  f_equal. Z.div_mod_to_equations. lia.
Qed.

Lemma scan_char : forall doc b i c t acc, is_scalar c = true -> t <> [] ->
  scanstring_go doc b i (ascii_escape_char c ++ t) acc =
  scanstring_go doc b (i + List.length (ascii_escape_char c)) t (c :: acc).
Proof.
  intros doc b i c t acc Hs Ht.
  unfold is_scalar, is_surrogate in Hs.
  apply andb_prop in Hs as [Hs Hsur]. apply andb_prop in Hs as [H0 H1].
  apply Z.leb_le in H0. apply Z.leb_le in H1. apply negb_true_iff in Hsur.
  destruct t as [|x t]; [congruence|]. clear Ht.
  unfold ascii_escape_char.
  destruct (Z.eqb_spec c 92) as [->|N92].
  { simpl. replace (i + 2)%nat with (S (S i)) by lia. reflexivity. }
  destruct (Z.eqb_spec c 34) as [->|N34].
  { simpl. replace (i + 2)%nat with (S (S i)) by lia. reflexivity. }
  destruct ((32 <=? c) && (c <=? 126)) eqn:Epr.
  { apply andb_prop in Epr as [E1 E2]. apply Z.leb_le in E1.
    cbn [app scanstring_go].
    rewrite (proj2 (Z.eqb_neq c 34) N34), (proj2 (Z.eqb_neq c 92) N92).
    replace (c <=? 31) with false by (symmetry; apply Z.leb_gt; lia).
    cbn [List.length]. replace (i + 1)%nat with (S i) by lia. reflexivity. }
  destruct (Z.eqb_spec c 8) as [->|N8].
  { simpl. replace (i + 2)%nat with (S (S i)) by lia. reflexivity. }
  destruct (Z.eqb_spec c 12) as [->|N12].
  { simpl. replace (i + 2)%nat with (S (S i)) by lia. reflexivity. }
  destruct (Z.eqb_spec c 10) as [->|N10].
  { simpl. replace (i + 2)%nat with (S (S i)) by lia. reflexivity. }
  destruct (Z.eqb_spec c 13) as [->|N13].
  { simpl. replace (i + 2)%nat with (S (S i)) by lia. reflexivity. }
  destruct (Z.eqb_spec c 9) as [->|N9].
  { simpl. replace (i + 2)%nat with (S (S i)) by lia. reflexivity. }
  destruct (Z.ltb_spec c 65536) as [Lt|Ge].
  - unfold hex4. cbn [app scanstring_go Z.eqb Pos.eqb].
    cbn [List.length Nat.leb].
    rewrite hex4_val_hex4 by lia.
    replace (is_high_surrogate c) with false.
    2:{ unfold is_high_surrogate. revert Hsur.
        destruct (Z.leb_spec 55296 c); destruct (Z.leb_spec c 56319);
          destruct (Z.leb_spec c 57343); simpl; intros; try reflexivity; try discriminate; lia. }
    cbn [andb List.length]. reflexivity.
  - set (v := c - 65536).
    assert (Hv : 0 <= v < 1048576) by (unfold v; lia).
    assert (Hhi : 55296 <= 55296 + v / 1024 <= 56319) by (Z.div_mod_to_equations; lia).
    assert (Hlo : 56320 <= 56320 + v mod 1024 <= 57343) by (Z.div_mod_to_equations; lia).
    unfold hex4. cbn [app scanstring_go Z.eqb Pos.eqb].
    cbn [List.length Nat.leb].
    rewrite hex4_val_hex4 by lia.
    replace (is_high_surrogate (55296 + v / 1024)) with true
      by (unfold is_high_surrogate; symmetry; apply andb_true_iff; split; apply Z.leb_le; lia).
    cbn [andb List.length Nat.ltb Nat.leb].
    rewrite hex4_val_hex4 by lia.
    replace (is_low_surrogate (56320 + v mod 1024)) with true
      by (unfold is_low_surrogate; symmetry; apply andb_true_iff; split; apply Z.leb_le; lia).
    replace (65536 + (55296 + v / 1024 - 55296) * 1024 + (56320 + v mod 1024 - 56320)) with c
      by (unfold v; Z.div_mod_to_equations; lia).
    cbn [List.length]. replace (i + 12)%nat with (i + 12)%nat by reflexivity. reflexivity.
Qed.

Lemma scan_string : forall doc b s i rest acc, forallb is_scalar s = true ->
  scanstring_go doc b i (concat (map ascii_escape_char s) ++ 34 :: rest) acc =
  SOk (rev acc ++ s, S (i + List.length (concat (map ascii_escape_char s))), rest).
Proof.
  intros doc b s. induction s as [|c s IH]; intros i rest acc Hs.
  - simpl. rewrite app_nil_r, Nat.add_0_r. reflexivity.
  - simpl in Hs. apply andb_prop in Hs as [Hc Hs].
    cbn [map concat]. rewrite <- app_assoc, scan_char; [|exact Hc|].
    + rewrite IH by exact Hs. simpl rev. rewrite <- app_assoc. simpl app.
      rewrite length_app. rewrite Nat.add_assoc. reflexivity.
    + intros H. apply app_eq_nil in H as [_ H]. discriminate.
Qed.

Lemma skip_ws_app : forall w i r, forallb is_ws w = true ->
  skip_ws i (w ++ r) = skip_ws (i + List.length w) r.
Proof.
  induction w as [|c w IH]; intros i r Hw; simpl.
  - rewrite Nat.add_0_r. reflexivity.
  - simpl in Hw. apply andb_prop in Hw as [Hc Hw]. rewrite Hc, IH by exact Hw.
    f_equal. lia.
Qed.

Lemma skip_ws_stop : forall i c r, is_ws c = false -> skip_ws i (c :: r) = (i, c :: r).
Proof. intros i c r H. simpl. rewrite H. reflexivity. Qed.

Lemma scan_once_string : forall rl doc f depth i s r, forallb is_scalar s = true ->
  scan_once rl doc (S f) depth i (encode_basestring_ascii s ++ r) =
  SOk (PStr s, (i + List.length (encode_basestring_ascii s))%nat, r).
Proof.
  intros rl doc f depth i s r Hs. unfold encode_basestring_ascii.
  rewrite <- !app_assoc. cbn [app scan_once].
  rewrite scan_string by exact Hs. simpl. rewrite length_app. simpl. sok_index.
Qed.

Lemma dict_set_append : forall (k v : pyval) acc,
  (forall kv, In kv acc -> str_key_eqb (fst kv) k = false) ->
  dict_set str_key_eqb k v acc = acc ++ [(k, v)].
Proof.
  intros k v acc. induction acc as [|[k' v'] acc IH]; intros H; simpl; [reflexivity|].
  rewrite (H (k', v') (or_introl eq_refl) : str_key_eqb k' k = false). f_equal. apply IH.
  intros kv Hkv. apply H. right. exact Hkv.
Qed.

Lemma join_cons_prefix : forall (sep t : pystr) ts, exists s, join sep (t :: ts) = t ++ s.
Proof.
  intros sep t [|t2 ts]; [exists []; simpl; rewrite app_nil_r; reflexivity|].
  eexists. reflexivity.
Qed.

Lemma skip_ws_stop_app : forall i t r, (exists c t', t = c :: t' /\ is_ws c = false) ->
  skip_ws i (t ++ r) = (i, t ++ r).
Proof. intros i t r (c & t' & -> & Hc). simpl. rewrite Hc. reflexivity. Qed.

Lemma join_length_cons2 : forall (sep t t2 : pystr) ts,
  List.length (join sep (t :: t2 :: ts)) =
  (List.length t + List.length sep + List.length (join sep (t2 :: ts)))%nat.
Proof. intros. cbn [join]. rewrite !length_app. lia. Qed.

(** Texts whose first character is not white space. *)
Lemma array_items_gen : forall rl doc depth (w1 w2 : pystr) F,
  forallb is_ws w1 = true -> forallb is_ws w2 = true ->
  forall xs ts f i rest acc,
  Forall2 (fun x t => (exists c t', t = c :: t' /\ is_ws c = false) /\
             forall f' i' r, (json_size x <= f')%nat -> (f' < F)%nat ->
               scan_once rl doc f' depth i' (t ++ r) = SOk (x, (i' + List.length t)%nat, r)) xs ts ->
  xs <> [] ->
  (fold_right (fun x n => S (json_size x + n)) O xs <= f)%nat -> (f <= F)%nat ->
  array_items rl doc f depth i (join (44 :: w1) ts ++ w2 ++ 93 :: rest) acc =
  SOk (PList (rev acc ++ xs), S (i + List.length (join (44 :: w1) ts) + List.length w2), rest).
Proof.
  intros rl doc depth w1 w2 F Hw1 Hw2 xs. induction xs as [|x xs IH];
    intros ts f i rest acc H2 Hne Hf HF; [congruence|].
  inversion H2 as [|? t ? ts' [_ Hx] H2']; subst.
  destruct f as [|f]; [simpl in Hf; lia|]. simpl in Hf.
  destruct xs as [|x2 xs].
  - inversion H2'; subst. cbn [join array_items].
    rewrite Hx by lia. cbn [sbind].
    rewrite skip_ws_app by exact Hw2. simpl. sok_index.
  - inversion H2' as [|? t2 ? ts'' [Ht2 Hx2] H2'']; subst.
    rewrite join_length_cons2.
    replace (join (44 :: w1) (t :: t2 :: ts'') ++ w2 ++ 93 :: rest)
      with (t ++ 44 :: w1 ++ join (44 :: w1) (t2 :: ts'') ++ w2 ++ 93 :: rest)
      by (cbn [join]; rewrite <- !app_assoc; reflexivity).
    cbn [array_items]. rewrite Hx by lia. cbn [sbind].
    rewrite skip_ws_stop by reflexivity.
    rewrite skip_ws_app by exact Hw1.
    destruct (join_cons_prefix (44 :: w1) t2 ts'') as [s Hs].
    assert (Hj : exists c t', join (44 :: w1) (t2 :: ts'') = c :: t' /\ is_ws c = false).
    { destruct Ht2 as (c & t' & -> & Hc). exists c, (t' ++ s). split; [exact Hs|exact Hc]. }
    rewrite (skip_ws_stop_app _ _ _ Hj).
    rewrite IH; [| exact H2' | discriminate | simpl in *; lia | lia].
    replace (rev (x :: acc) ++ x2 :: xs) with (rev acc ++ x :: x2 :: xs)
      by (simpl; rewrite <- app_assoc; reflexivity).
    cbn [List.length]. unfold pystr in *. sok_index.
Qed.

Lemma str_key_eqb_sym : forall a b, str_key_eqb a b = str_key_eqb b a.
Proof.
  intros [] []; try reflexivity. unfold str_key_eqb, str_eqb.
  destruct (list_eq_dec Z.eq_dec s s0), (list_eq_dec Z.eq_dec s0 s); congruence.
Qed.

Lemma ordpairs_last : forall {A} (R : A -> A -> Prop) l1 x l2,
  ForallOrdPairs R (l1 ++ x :: l2) -> forall y, In y l1 -> R y x.
Proof.
  intros A R l1. induction l1 as [|a l1 IH]; intros x l2 H y Hy; [destruct Hy|].
  inversion H as [|? ? Hall H']; subst. destruct Hy as [->|Hy].
  - rewrite Forall_forall in Hall. apply Hall. apply in_or_app. right. left. reflexivity.
  - exact (IH x l2 H' y Hy).
Qed.

Lemma object_items_gen : forall rl doc depth (w1 w2 : pystr) F,
  forallb is_ws w1 = true -> forallb is_ws w2 = true ->
  forall kvs ts f i rest acc,
  Forall2 (fun kv t => exists s vt, fst kv = PStr s /\ forallb is_scalar s = true /\
             t = encode_basestring_ascii s ++ [58; 32] ++ vt /\
             (exists c t', vt = c :: t' /\ is_ws c = false) /\
             forall f' i' r, (json_size (snd kv) <= f')%nat -> (f' < F)%nat ->
               scan_once rl doc f' depth i' (vt ++ r) = SOk (snd kv, (i' + List.length vt)%nat, r)) kvs ts ->
  kvs <> [] ->
  ForallOrdPairs (fun a b => str_key_eqb (fst a) (fst b) = false) (acc ++ kvs) ->
  (fold_right (fun kv n => S (json_size (snd kv) + n)) O kvs <= f)%nat -> (f <= F)%nat ->
  object_items rl doc f depth i (join (44 :: w1) ts ++ w2 ++ 125 :: rest) acc =
  SOk (PDict (acc ++ kvs), S (i + List.length (join (44 :: w1) ts) + List.length w2), rest).
Proof.
  intros rl doc depth w1 w2 F Hw1 Hw2 kvs. induction kvs as [|[k v] kvs IH];
    intros ts f i rest acc H2 Hne Hord Hf HF; [congruence|].
  inversion H2 as [|? t ? ts' (s & vt & Hk & Hs & -> & Hvt & Hx) H2']; subst.
  cbn [fst snd] in *. subst k.
  destruct f as [|f]; [simpl in Hf; lia|]. simpl in Hf.
  assert (Hset : dict_set str_key_eqb (PStr s) v acc = acc ++ [(PStr s, v)]).
  { apply dict_set_append. intros kv Hkv.
    exact (ordpairs_last (fun a b => str_key_eqb (fst a) (fst b) = false) acc _ kvs Hord kv Hkv). }
  assert (Hord' : ForallOrdPairs (fun a b => str_key_eqb (fst a) (fst b) = false)
                    ((acc ++ [(PStr s, v)]) ++ kvs)) by (rewrite <- app_assoc; exact Hord).
  assert (Hstep : forall R, object_items rl doc (S f) depth i
      ((encode_basestring_ascii s ++ [58; 32] ++ vt) ++ R) acc =
      let '(l, r5) := skip_ws (Nat.add i (List.length (encode_basestring_ascii s ++ [58; 32] ++ vt))) R in
      match r5 with
      | 125 :: r6 => SOk (PDict (acc ++ [(PStr s, v)]), S l, r6)
      | 44 :: r6 => let '(m, r7) := skip_ws (S l) r6 in object_items rl doc f depth m r7 (acc ++ [(PStr s, v)])
      | _ => SRaise (decode_error (py "Expecting ',' delimiter") doc l)
      end).
  { intros R. unfold encode_basestring_ascii. rewrite <- !app_assoc. cbn [app object_items].
    rewrite scan_string by exact Hs. cbn [sbind skip_ws is_ws Z.eqb Pos.eqb orb].
    rewrite skip_ws_stop_app by exact Hvt.
    rewrite Hx by lia. cbn [sbind]. cbn [rev app]. rewrite Hset.
    cbn [List.length]. rewrite length_app. cbn [List.length].
    set (L := Datatypes.length (concat (map ascii_escape_char s))).
    set (V := Datatypes.length vt).
    replace (S (S (S (S i + L))) + V)%nat with (i + S (L + S (S (S V))))%nat by lia.
    reflexivity. }
  destruct kvs as [|kv2 kvs].
  - inversion H2'; subst. cbn [join]. rewrite Hstep.
    rewrite skip_ws_app by exact Hw2. simpl. unfold pystr in *. sok_index.
  - inversion H2' as [|? t2 ? ts'' Hrel2 H2'']; subst.
    destruct Hrel2 as (s2 & vt2 & Hk2 & Hs2 & Et2 & Hvt2 & Hx2).
    rewrite join_length_cons2.
    replace (join (44 :: w1) ((encode_basestring_ascii s ++ [58; 32] ++ vt) :: t2 :: ts'') ++ w2 ++ 125 :: rest)
      with ((encode_basestring_ascii s ++ [58; 32] ++ vt) ++ 44 :: w1 ++ join (44 :: w1) (t2 :: ts'') ++ w2 ++ 125 :: rest)
      by (cbn [join]; rewrite <- !app_assoc; reflexivity).
    rewrite Hstep. rewrite skip_ws_stop by reflexivity.
    rewrite skip_ws_app by exact Hw1.
    destruct (join_cons_prefix (44 :: w1) t2 ts'') as [s' Hs'].
    assert (Hj : exists c t', join (44 :: w1) (t2 :: ts'') = c :: t' /\ is_ws c = false).
    { subst t2. exists 34, (concat (map ascii_escape_char s2) ++ [34] ++ ([58; 32] ++ vt2) ++ s').
      split; [|reflexivity]. unfold pystr in *; rewrite Hs'. unfold encode_basestring_ascii.
      rewrite <- !app_assoc. reflexivity. }
    rewrite (skip_ws_stop_app _ _ _ Hj).
    rewrite IH; [| exact H2' | discriminate | exact Hord' | simpl in *; lia | lia].
    rewrite <- app_assoc. cbn [app]. unfold pystr in *. rewrite !length_app. cbn [List.length]. sok_index.
Qed.

Lemma heads_not_ws : forall c, In c json_heads -> is_ws c = false.
Proof. intros c H. repeat destruct H as [<-|H]; try reflexivity. destruct H. Qed.

Lemma scan_once_open_list : forall rl doc f depth i r' j c t, (depth < rl)%nat ->
  skip_ws (S i) r' = (j, c :: t) -> In c json_heads ->
  scan_once rl doc (S f) depth i (91 :: r') = array_items rl doc f (S depth) j (c :: t) [].
Proof.
  intros rl doc f depth i r' j c t Hd Hs Hc.
  transitivity (if Nat.leb rl depth then SRaise (RecursionError []) else
    let '(j, r1) := skip_ws (S i) r' in
    match r1 with
    | 93 :: r2 => SOk (PList [], S j, r2)
    | _ => array_items rl doc f (S depth) j r1 []
    end).
  { cbn [scan_once]. rewrite (proj2 (Nat.leb_gt rl depth) Hd). reflexivity. }
  rewrite (proj2 (Nat.leb_gt rl depth) Hd), Hs.
  repeat destruct Hc as [<-|Hc]; try reflexivity. destruct Hc.
Qed.

Lemma scan_once_open_dict : forall rl doc f depth i r' j c t, (depth < rl)%nat ->
  skip_ws (S i) r' = (j, c :: t) -> In c json_heads ->
  scan_once rl doc (S f) depth i (123 :: r') = object_items rl doc f (S depth) j (c :: t) [].
Proof.
  intros rl doc f depth i r' j c t Hd Hs Hc.
  transitivity (if Nat.leb rl depth then SRaise (RecursionError []) else
    let '(j, r1) := skip_ws (S i) r' in
    match r1 with
    | 125 :: r2 => SOk (PDict [], S j, r2)
    | _ => object_items rl doc f (S depth) j r1 []
    end).
  { cbn [scan_once]. rewrite (proj2 (Nat.leb_gt rl depth) Hd). reflexivity. }
  rewrite (proj2 (Nat.leb_gt rl depth) Hd), Hs.
  repeat destruct Hc as [<-|Hc]; try reflexivity. destruct Hc.
Qed.

Lemma map_res_Forall2 : forall {A B} (g : A -> res B) xs ys,
  map_res g xs = Ok ys -> Forall2 (fun x y => g x = Ok y) xs ys.
Proof.
  intros A B g xs. induction xs as [|x xs IH]; intros ys H; cbn [map_res] in H.
  - inversion H. constructor.
  - destruct (g x) eqn:Ex; cbn [res_bind] in H; [|discriminate].
    destruct (map_res g xs) eqn:Exs; cbn [res_bind] in H; [|discriminate].
    inversion H; subst. constructor; [exact Ex | apply IH; reflexivity].
Qed.

Lemma Forall2_strengthen : forall {A B} (P : A -> Prop) (R R' : A -> B -> Prop) xs ys,
  Forall2 R xs ys -> Forall P xs -> (forall x y, P x -> R x y -> R' x y) -> Forall2 R' xs ys.
Proof.
  intros A B P R R' xs ys H HP Himp. induction H; [constructor|].
  inversion HP; subst. constructor; auto.
Qed.

Lemma list_ok : forall xs, json_ok (PList xs) = true -> Forall (fun x => json_ok x = true) xs.
Proof.
  induction xs as [|x xs IH]; intros H; [constructor|].
  cbn [json_ok] in H. apply andb_prop in H as [H1 H2]. constructor; [exact H1|].
  apply IH. exact H2.
Qed.

Lemma dict_ok : forall kvs, json_ok (PDict kvs) = true ->
  Forall (fun kv => exists s, fst kv = PStr s /\ forallb is_scalar s = true /\ json_ok (snd kv) = true) kvs /\
  ForallOrdPairs (fun a b => str_key_eqb (fst a) (fst b) = false) kvs.
Proof.
  induction kvs as [|[k x] kvs IH]; intros H; [split; constructor|].
  cbn [json_ok] in H. apply andb_prop in H as [H H4]. apply andb_prop in H as [H H3].
  apply andb_prop in H as [H1 H2].
  destruct (IH H4) as [IH1 IH2].
  split.
  - constructor; [|exact IH1]. destruct k; try discriminate. exists s. auto.
  - constructor; [|exact IH2]. apply Forall_forall. intros kv Hin.
    apply negb_true_iff in H2. cbn [fst]. rewrite str_key_eqb_sym.
    destruct (str_key_eqb (fst kv) k) eqn:E; [|reflexivity].
    rewrite <- H2. symmetry. apply existsb_exists. exists kv. auto.
Qed.

Lemma list_depth : forall xs x, In x xs -> (json_depth x < json_depth (PList xs))%nat.
Proof.
  induction xs as [|y xs IH]; intros x Hin; [destruct Hin|].
  cbn [json_depth]. destruct Hin as [->|Hin]; [lia|].
  specialize (IH x Hin). cbn [json_depth] in IH. lia.
Qed.

Lemma dict_depth : forall kvs kv, In kv kvs -> (json_depth (snd kv) < json_depth (PDict kvs))%nat.
Proof.
  induction kvs as [|[k y] kvs IH]; intros kv Hin; [destruct Hin|].
  cbn [json_depth]. destruct Hin as [<-|Hin]; [cbn [snd]; lia|].
  specialize (IH kv Hin). cbn [json_depth] in IH. lia.
Qed.

Lemma list_size : forall xs,
  json_size (PList xs) = S (fold_right (fun x n => S (json_size x + n)) O xs).
Proof.
  induction xs as [|x xs IH]; [reflexivity|]. cbn [json_size fold_right] in *.
  lia.
Qed.

Lemma dict_size : forall kvs,
  json_size (PDict kvs) = S (fold_right (fun kv n => S (json_size (snd kv) + n)) O kvs).
Proof.
  induction kvs as [|[k x] kvs IH]; [reflexivity|]. cbn [json_size fold_right snd] in *.
  lia.
Qed.

Lemma dumps_head : forall v t, json_ok v = true -> json_dumps v = Ok t ->
  exists c t', t = c :: t' /\ In c json_heads.
Proof.
  intros v t Hok H. destruct v as [| [] | | | | xs | kvs]; try discriminate; cbn [json_dumps] in H.
  - inversion H. eexists _, _. split; [reflexivity|]. cbn; auto.
  - inversion H. eexists _, _. split; [reflexivity|]. cbn; auto 6.
  - inversion H. eexists _, _. split; [reflexivity|]. cbn; auto 6.
  - inversion H. eexists _, _. split; [reflexivity|]. cbn; auto 6.
  - destruct (map_res json_dumps xs); cbn [res_bind] in H; [|discriminate].
    inversion H. eexists _, _. split; [reflexivity|]. cbn; auto 6.
  - destruct (map_res _ kvs); cbn [res_bind] in H; [|discriminate].
    inversion H. eexists _, _. split; [reflexivity|]. cbn; auto 7.
Qed.

Lemma indent_head : forall lvl v t, json_ok v = true -> Flows.json_dump_indent lvl v = Ok t ->
  exists c t', t = c :: t' /\ In c json_heads.
Proof.
  intros lvl v t Hok H. destruct v as [| | | | | [|x xs] | [|kv kvs]];
    try (apply (dumps_head _ _ Hok); exact H); cbn [Flows.json_dump_indent] in H.
  all: match type of H with
       | res_bind ?m _ = _ => destruct m; cbn [res_bind] in H; [|discriminate]
       | _ => idtac end;
       inversion H; eexists _, _; (split; [reflexivity|]); cbn; auto 7.
Qed.

Lemma scan_list_gen : forall rl doc F depth (w0 w1 w2 : pystr) xs parts f i r,
  forallb is_ws w0 = true -> forallb is_ws w1 = true -> forallb is_ws w2 = true ->
  Forall2 (fun x p => (exists c t', p = c :: t' /\ In c json_heads) /\
     forall f' i' r', (json_size x <= f')%nat -> (f' < F)%nat ->
       scan_once rl doc f' (S depth) i' (p ++ r') = SOk (x, (i' + List.length p)%nat, r')) xs parts ->
  xs <> [] -> (depth < rl)%nat -> (json_size (PList xs) <= f)%nat -> (f <= S F)%nat ->
  scan_once rl doc f depth i (([91] ++ w0 ++ join (44 :: w1) parts ++ w2 ++ [93]) ++ r) =
  SOk (PList xs, Nat.add i (List.length ([91] ++ w0 ++ join (44 :: w1) parts ++ w2 ++ [93])), r).
Proof.
  intros rl doc F depth w0 w1 w2 xs parts f i r Hw0 Hw1 Hw2 H2 Hne Hd Hf HF.
  rewrite list_size in Hf. destruct f as [|f]; [lia|].
  destruct parts as [|p ps]; [inversion H2; subst; congruence|].
  pose proof H2 as H2c. inversion H2c as [|x0 ? xs' ? [(c & t' & Ep & Hc) _] _]; subst.
  destruct (join_cons_prefix (44 :: w1) (c :: t') ps) as [s Hs].
  assert (Hj : join (44 :: w1) ((c :: t') :: ps) ++ w2 ++ 93 :: r = c :: (t' ++ s) ++ w2 ++ 93 :: r).
  { unfold pystr in *. rewrite Hs. cbn [app]. rewrite <- !app_assoc. reflexivity. }
  rewrite <- !app_assoc. cbn [app].
  rewrite (scan_once_open_list rl doc f depth i _ (S i + List.length w0) c ((t' ++ s) ++ w2 ++ 93 :: r) Hd)
    by (try exact Hc; rewrite skip_ws_app by exact Hw0; rewrite Hj;
        apply skip_ws_stop, heads_not_ws; exact Hc).
  rewrite <- Hj.
  rewrite (array_items_gen rl doc (S depth) w1 w2 F Hw1 Hw2 (x0 :: xs') ((c :: t') :: ps) f).
  - cbn [rev app List.length]. unfold pystr in *. rewrite !length_app. cbn [List.length]. sok_index.
  - refine (Forall2_impl _ _ H2). intros a b [(c' & t'' & -> & Hc') Hab]. split; [|exact Hab].
    exists c', t''. split; [reflexivity|]. apply heads_not_ws. exact Hc'.
  - exact Hne.
  - lia.
  - lia.
Qed.

Lemma scan_dict_gen : forall rl doc F depth (w0 w1 w2 : pystr) kvs parts f i r,
  forallb is_ws w0 = true -> forallb is_ws w1 = true -> forallb is_ws w2 = true ->
  Forall2 (fun kv p => exists s vt, fst kv = PStr s /\ forallb is_scalar s = true /\
             p = encode_basestring_ascii s ++ [58; 32] ++ vt /\
             (exists c t', vt = c :: t' /\ In c json_heads) /\
             forall f' i' r', (json_size (snd kv) <= f')%nat -> (f' < F)%nat ->
               scan_once rl doc f' (S depth) i' (vt ++ r') = SOk (snd kv, (i' + List.length vt)%nat, r')) kvs parts ->
  kvs <> [] -> ForallOrdPairs (fun a b => str_key_eqb (fst a) (fst b) = false) kvs ->
  (depth < rl)%nat -> (json_size (PDict kvs) <= f)%nat -> (f <= S F)%nat ->
  scan_once rl doc f depth i (([123] ++ w0 ++ join (44 :: w1) parts ++ w2 ++ [125]) ++ r) =
  SOk (PDict kvs, Nat.add i (List.length ([123] ++ w0 ++ join (44 :: w1) parts ++ w2 ++ [125])), r).
Proof.
  intros rl doc F depth w0 w1 w2 kvs parts f i r Hw0 Hw1 Hw2 H2 Hne Hord Hd Hf HF.
  rewrite dict_size in Hf. destruct f as [|f]; [lia|].
  destruct parts as [|p ps]; [inversion H2; subst; congruence|].
  pose proof H2 as H2c.
  inversion H2c as [|kv0 ? kvs' ? (s0 & vt0 & _ & _ & Ep & _) _]; subst.
  destruct (join_cons_prefix (44 :: w1) (encode_basestring_ascii s0 ++ [58; 32] ++ vt0) ps) as [s Hs].
  set (t' := concat (map ascii_escape_char s0) ++ [34] ++ ([58; 32] ++ vt0) ++ s).
  assert (Hj : join (44 :: w1) ((encode_basestring_ascii s0 ++ 58 :: 32 :: vt0) :: ps) ++ w2 ++ 125 :: r
               = 34 :: t' ++ w2 ++ 125 :: r).
  { unfold pystr in *. change (58 :: 32 :: vt0) with ([58; 32] ++ vt0). rewrite Hs. unfold t', encode_basestring_ascii. cbn [app].
    rewrite <- !app_assoc; cbn [app]; rewrite <- !app_assoc; cbn [app]; reflexivity. }
  rewrite <- !app_assoc. cbn [app].
  rewrite (scan_once_open_dict rl doc f depth i _ (S i + List.length w0) 34 (t' ++ w2 ++ 125 :: r) Hd)
    by (try (solve [cbn; auto 7]); rewrite skip_ws_app by exact Hw0; unfold pystr in *; rewrite Hj; reflexivity).
  rewrite <- Hj.
  rewrite (object_items_gen rl doc (S depth) w1 w2 F Hw1 Hw2 (kv0 :: kvs') _ f).
  - cbn [app List.length]. unfold pystr in *. rewrite !length_app. cbn [List.length]. sok_index.
  - refine (Forall2_impl _ _ H2). intros a b (s1 & vt & Ha & Hs1 & Eb & (c' & t'' & Ev & Hc') & Hab).
    exists s1, vt. repeat split; try assumption. exists c', t''. split; [exact Ev|].
    apply heads_not_ws. exact Hc'.
  - exact Hne.
  - exact Hord.
  - lia.
  - lia.
Qed.

Lemma json_size_pos : forall v, (1 <= json_size v)%nat.
Proof. intros []; cbn [json_size]; lia. Qed.

Lemma items_enc : forall (g : pyval -> res pystr),
  (forall x p, json_ok x = true -> g x = Ok p -> exists c t', p = c :: t' /\ In c json_heads) ->
  forall rl doc F depth xs parts,
  (forall x p f' i' r', json_ok x = true -> (S depth + json_depth x <= rl)%nat ->
     g x = Ok p -> (json_size x <= f')%nat -> (f' <= F)%nat ->
     scan_once rl doc f' (S depth) i' (p ++ r') = SOk (x, Nat.add i' (List.length p), r')) ->
  Forall (fun x => json_ok x = true /\ (S depth + json_depth x <= rl)%nat) xs ->
  map_res g xs = Ok parts ->
  Forall2 (fun x p => (exists c t', p = c :: t' /\ In c json_heads) /\
     forall f' i' r', (json_size x <= f')%nat -> (f' < S F)%nat ->
       scan_once rl doc f' (S depth) i' (p ++ r') = SOk (x, (i' + List.length p)%nat, r')) xs parts.
Proof.
  intros g Hhead rl doc F depth xs parts IH Hall Hm.
  apply (Forall2_strengthen _ _ _ xs parts (map_res_Forall2 _ _ _ Hm) Hall).
  intros x p [Hok Hd] Hx. split; [exact (Hhead x p Hok Hx)|].
  intros f' i' r' Hs Hf. apply IH; auto. lia.
Qed.

Lemma kv_items_enc : forall (g : pyval -> res pystr),
  (forall x p, json_ok x = true -> g x = Ok p -> exists c t', p = c :: t' /\ In c json_heads) ->
  forall rl doc F depth kvs parts,
  (forall x p f' i' r', json_ok x = true -> (S depth + json_depth x <= rl)%nat ->
     g x = Ok p -> (json_size x <= f')%nat -> (f' <= F)%nat ->
     scan_once rl doc f' (S depth) i' (p ++ r') = SOk (x, Nat.add i' (List.length p), r')) ->
  Forall (fun kv => (exists s, fst kv = PStr s /\ forallb is_scalar s = true /\ json_ok (snd kv) = true)
                    /\ (S depth + json_depth (snd kv) <= rl)%nat) kvs ->
  map_res (fun kv => let? k := encode_key (fst kv) in let? v := g (snd kv) in
                     Ok (encode_basestring_ascii k ++ py ": " ++ v)) kvs = Ok parts ->
  Forall2 (fun kv p => exists s vt, fst kv = PStr s /\ forallb is_scalar s = true /\
             p = encode_basestring_ascii s ++ [58; 32] ++ vt /\
             (exists c t', vt = c :: t' /\ In c json_heads) /\
             forall f' i' r', (json_size (snd kv) <= f')%nat -> (f' < S F)%nat ->
               scan_once rl doc f' (S depth) i' (vt ++ r') = SOk (snd kv, (i' + List.length vt)%nat, r')) kvs parts.
Proof.
  intros g Hhead rl doc F depth kvs parts IH Hall Hm.
  apply (Forall2_strengthen _ _ _ kvs parts (map_res_Forall2 _ _ _ Hm) Hall).
  intros [k x] p [(s & Hk & Hs & Hok) Hd] Hx. cbn [fst snd] in *. subst k.
  cbn [encode_key res_bind] in Hx.
  destruct (g x) as [vt|e] eqn:Ed; cbn [res_bind] in Hx; [|discriminate].
  injection Hx as <-. exists s, vt. repeat split; try assumption.
  - exact (Hhead x vt Hok Ed).
  - intros f' i' r' Hsz Hf. apply IH; auto. lia.
Qed.

Lemma scan_dumps : forall rl doc F v t f depth i r,
  json_ok v = true -> (depth + json_depth v <= rl)%nat -> json_dumps v = Ok t ->
  (json_size v <= f)%nat -> (f <= F)%nat ->
  scan_once rl doc f depth i (t ++ r) = SOk (v, Nat.add i (List.length t), r).
Proof.
  intros rl doc F. induction F as [|F IH]; intros v t f depth i r Hok Hd Ht Hf HF.
  { pose proof (json_size_pos v). lia. }
  destruct f as [|f']; [pose proof (json_size_pos v); lia|].
  destruct v as [| [] | n | x | s | xs | kvs]; try (exfalso; cbn [json_ok] in Hok; discriminate);
    cbn [json_dumps] in Ht.
  - injection Ht as <-. reflexivity.
  - injection Ht as <-. reflexivity.
  - injection Ht as <-. reflexivity.
  - injection Ht as <-. rewrite scan_once_string by exact Hok. reflexivity.
  - destruct xs as [|x xs'].
    + injection Ht as <-. cbn [json_depth] in Hd. cbn.
      rewrite (proj2 (Nat.leb_gt rl depth) ltac:(lia)). sok_index.
    + destruct (map_res json_dumps (x :: xs')) as [parts|e] eqn:Em; cbn [res_bind] in Ht; [|discriminate].
      injection Ht as <-.
      change (91 :: join (py ", ") parts ++ [93]) with ([91] ++ [] ++ join (44 :: [32]) parts ++ [] ++ [93]).
      apply (scan_list_gen rl doc (S F)); try reflexivity.
      * apply (items_enc json_dumps dumps_head rl doc F depth); [|apply Forall_forall|exact Em].
        { intros; apply IH; assumption. }
        intros y Hy. split.
        -- exact (proj1 (Forall_forall _ _) (list_ok _ Hok) y Hy).
        -- pose proof (list_depth _ _ Hy). lia.
      * discriminate.
      * cbn [json_depth] in Hd. lia.
      * exact Hf.
      * lia.
  - destruct kvs as [|kv kvs'].
    + injection Ht as <-. cbn [json_depth] in Hd. cbn.
      rewrite (proj2 (Nat.leb_gt rl depth) ltac:(lia)). sok_index.
    + match type of Ht with res_bind ?m _ = _ => destruct m as [parts|e] eqn:Em end;
        cbn [res_bind] in Ht; [|discriminate].
      injection Ht as <-.
      change (123 :: join (py ", ") parts ++ [125]) with ([123] ++ [] ++ join (44 :: [32]) parts ++ [] ++ [125]).
      destruct (dict_ok _ Hok) as [Hall Hord].
      apply (scan_dict_gen rl doc (S F)); try reflexivity.
      * apply (kv_items_enc json_dumps dumps_head rl doc F depth); [|apply Forall_forall|exact Em].
        { intros; apply IH; assumption. }
        intros kv0 Hkv. split.
        -- exact (proj1 (Forall_forall _ _) Hall kv0 Hkv).
        -- pose proof (dict_depth _ _ Hkv). lia.
      * discriminate.
      * exact Hord.
      * cbn [json_depth] in Hd. lia.
      * exact Hf.
      * lia.
Qed.

Lemma newline_indent_ws : forall n, forallb is_ws (Flows.newline_indent n) = true.
Proof.
  intros n. unfold Flows.newline_indent. cbn [forallb]. generalize (4 * n)%nat as k.
  induction k as [|k IH]; [reflexivity|]. exact IH.
Qed.

Lemma indent_list_eq : forall lvl x xs, Flows.json_dump_indent lvl (PList (x :: xs)) =
  (let? parts := map_res (Flows.json_dump_indent (S lvl)) (x :: xs) in
   Ok ([91] ++ Flows.newline_indent (S lvl) ++ join (44 :: Flows.newline_indent (S lvl)) parts
       ++ Flows.newline_indent lvl ++ [93])).
Proof. reflexivity. Qed.

Lemma indent_dict_eq : forall lvl kv kvs, Flows.json_dump_indent lvl (PDict (kv :: kvs)) =
  (let? parts := map_res (fun kv =>
                   let? k := encode_key (fst kv) in
                   let? v := Flows.json_dump_indent (S lvl) (snd kv) in
                   Ok (encode_basestring_ascii k ++ py ": " ++ v)) (kv :: kvs) in
   Ok ([123] ++ Flows.newline_indent (S lvl) ++ join (44 :: Flows.newline_indent (S lvl)) parts
       ++ Flows.newline_indent lvl ++ [125])).
Proof. reflexivity. Qed.

Lemma scan_indent : forall rl doc F lvl v t f depth i r,
  json_ok v = true -> (depth + json_depth v <= rl)%nat -> Flows.json_dump_indent lvl v = Ok t ->
  (json_size v <= f)%nat -> (f <= F)%nat ->
  scan_once rl doc f depth i (t ++ r) = SOk (v, Nat.add i (List.length t), r).
Proof.
  intros rl doc F. induction F as [|F IH]; intros lvl v t f depth i r Hok Hd Ht Hf HF.
  { pose proof (json_size_pos v). lia. }
  destruct v as [| | | | | [|x xs] | [|kv kvs]];
    try (apply (scan_dumps rl doc (S F) _ t); assumption).
  - rewrite indent_list_eq in Ht.
    destruct (map_res (Flows.json_dump_indent (S lvl)) (x :: xs)) as [parts|e] eqn:Em;
      cbv beta iota delta [res_bind] in Ht; [|discriminate].
    apply (f_equal (fun o => match o with Ok a => a | Err _ => t end)) in Ht.
    cbv beta iota in Ht. subst t.
    apply (scan_list_gen rl doc (S F)); try apply newline_indent_ws.
    + apply (items_enc (Flows.json_dump_indent (S lvl)) (indent_head (S lvl)) rl doc F depth);
        [|apply Forall_forall|exact Em].
      { intros; apply (IH (S lvl)); assumption. }
      intros y Hy. split.
      * exact (proj1 (Forall_forall _ _) (list_ok _ Hok) y Hy).
      * pose proof (list_depth _ _ Hy). lia.
    + discriminate.
    + cbn [json_depth] in Hd. lia.
    + exact Hf.
    + lia.
  - rewrite indent_dict_eq in Ht.
    match type of Ht with res_bind ?m _ = _ => destruct m as [parts|e] eqn:Em end;
      cbv beta iota delta [res_bind] in Ht; [|discriminate].
    apply (f_equal (fun o => match o with Ok a => a | Err _ => t end)) in Ht.
    cbv beta iota in Ht. subst t.
    destruct (dict_ok _ Hok) as [Hall Hord].
    apply (scan_dict_gen rl doc (S F)); try apply newline_indent_ws.
    + apply (kv_items_enc (Flows.json_dump_indent (S lvl)) (indent_head (S lvl)) rl doc F depth);
        [|apply Forall_forall|exact Em].
      { intros; apply (IH (S lvl)); assumption. }
      intros kv0 Hkv. split.
      * exact (proj1 (Forall_forall _ _) Hall kv0 Hkv).
      * pose proof (dict_depth _ _ Hkv). lia.
    + discriminate.
    + exact Hord.
    + cbn [json_depth] in Hd. lia.
    + exact Hf.
    + lia.
Qed.

Lemma list_size_in : forall xs x, In x xs -> (json_size x < json_size (PList xs))%nat.
Proof.
  intros xs x Hin. rewrite list_size. induction xs as [|y xs IH]; [destruct Hin|].
  cbn [fold_right]. destruct Hin as [->|Hin]; [lia|]. specialize (IH Hin). lia.
Qed.

Lemma dict_size_in : forall kvs kv, In kv kvs -> (json_size (snd kv) < json_size (PDict kvs))%nat.
Proof.
  intros kvs kv Hin. rewrite dict_size. induction kvs as [|y kvs IH]; [destruct Hin|].
  cbn [fold_right]. destruct Hin as [->|Hin]; [lia|]. specialize (IH Hin). lia.
Qed.

Lemma fold_join_bound : forall {A} (sz : A -> nat) (sep : pystr) xs (ts : list pystr),
  sep <> [] -> Forall2 (fun x t => (sz x <= List.length t)%nat) xs ts ->
  (fold_right (fun x n => S (sz x + n)) O xs <= S (List.length (join sep ts)))%nat.
Proof.
  intros A sz sep xs ts Hsep H. induction H as [|x t xs ts Hx H IH]; [cbn; lia|].
  destruct H as [|x2 t2 xs ts Hx2 H].
  - cbn [fold_right join]. lia.
  - cbn [fold_right] in *. cbn [join] in *. rewrite length_app, length_app.
    destruct sep; [congruence|]. cbn [List.length] in *. lia.
Qed.

Lemma size_dumps : forall F v t, (json_size v <= F)%nat -> json_ok v = true ->
  json_dumps v = Ok t -> (json_size v <= List.length t)%nat.
Proof.
  induction F as [|F IH]; intros v t HF Hok Ht; [pose proof (json_size_pos v); lia|].
  destruct v as [| [] | n | x | s | xs | kvs]; try (exfalso; cbn [json_ok] in Hok; discriminate);
    cbn [json_dumps] in Ht.
  - injection Ht as <-. cbn. lia.
  - injection Ht as <-. cbn. lia.
  - injection Ht as <-. cbn. lia.
  - injection Ht as <-. cbn. lia.
  - destruct (map_res json_dumps xs) as [parts|e] eqn:Em; cbn [res_bind] in Ht; [|discriminate].
    injection Ht as <-. rewrite list_size.
    assert (Hb : (fold_right (fun x n => S (json_size x + n)) O xs
                  <= S (List.length (join (py ", ") parts)))%nat).
    { apply fold_join_bound; [discriminate|].
      apply (Forall2_strengthen (fun x => In x xs) _ _ xs parts (map_res_Forall2 _ _ _ Em)).
      - apply Forall_forall. auto.
      - intros x p Hin Hx. apply (IH x p); auto.
        + pose proof (list_size_in xs x Hin). lia.
        + exact (proj1 (Forall_forall _ _) (list_ok _ Hok) x Hin). }
    cbn [List.length app]. rewrite length_app. cbn [List.length]. lia.
  - match type of Ht with res_bind ?m _ = _ => destruct m as [parts|e] eqn:Em end;
      cbn [res_bind] in Ht; [|discriminate].
    injection Ht as <-. rewrite dict_size.
    destruct (dict_ok _ Hok) as [Hall _].
    assert (Hb : (fold_right (fun kv n => S (json_size (snd kv) + n)) O kvs
                  <= S (List.length (join (py ", ") parts)))%nat).
    { apply (fold_join_bound (fun kv => json_size (snd kv))); [discriminate|].
      apply (Forall2_strengthen (fun kv => In kv kvs) _ _ kvs parts (map_res_Forall2 _ _ _ Em)).
      - apply Forall_forall. auto.
      - intros [k x] p Hin Hx. cbn [fst snd] in *.
        destruct (proj1 (Forall_forall _ _) Hall _ Hin) as (s & Hk & Hs & Hox).
        cbn [fst snd] in Hk, Hox. subst k. cbn [encode_key res_bind] in Hx.
        destruct (json_dumps x) as [vt|e] eqn:Ed; cbn [res_bind] in Hx; [|discriminate].
        injection Hx as <-. cbn [List.length]. rewrite !length_app. cbn [List.length].
        assert (json_size x <= List.length vt)%nat.
        { apply (IH x vt); auto. pose proof (dict_size_in kvs (PStr s, x) Hin). cbn [snd] in *. lia. }
        lia. }
    cbn [List.length app]. rewrite length_app. cbn [List.length]. lia.
Qed.

Lemma size_indent : forall F lvl v t, (json_size v <= F)%nat -> json_ok v = true ->
  Flows.json_dump_indent lvl v = Ok t -> (json_size v <= List.length t)%nat.
Proof.
  induction F as [|F IH]; intros lvl v t HF Hok Ht; [pose proof (json_size_pos v); lia|].
  destruct v as [| | | | | [|x xs] | [|kv kvs]];
    try (apply (size_dumps (S F) _ t); assumption).
  - rewrite indent_list_eq in Ht.
    destruct (map_res (Flows.json_dump_indent (S lvl)) (x :: xs)) as [parts|e] eqn:Em;
      cbv beta iota delta [res_bind] in Ht; [|discriminate].
    apply (f_equal (fun o => match o with Ok a => a | Err _ => t end)) in Ht.
    cbv beta iota in Ht. subst t. rewrite list_size.
    assert (Hb : (fold_right (fun x n => S (json_size x + n)) O (x :: xs)
                  <= S (List.length (join (44%Z :: Flows.newline_indent (S lvl)) parts)))%nat).
    { apply fold_join_bound; [discriminate|].
      apply (Forall2_strengthen (fun y => In y (x :: xs)) _ _ _ parts (map_res_Forall2 _ _ _ Em)).
      - apply Forall_forall. auto.
      - intros y p Hin Hy. apply (IH (S lvl) y p); auto.
        + pose proof (list_size_in _ y Hin). lia.
        + exact (proj1 (Forall_forall _ _) (list_ok _ Hok) y Hin). }
    rewrite !length_app. cbn [List.length]. lia.
  - rewrite indent_dict_eq in Ht.
    match type of Ht with res_bind ?m _ = _ => destruct m as [parts|e] eqn:Em end;
      cbv beta iota delta [res_bind] in Ht; [|discriminate].
    apply (f_equal (fun o => match o with Ok a => a | Err _ => t end)) in Ht.
    cbv beta iota in Ht. subst t. rewrite dict_size.
    destruct (dict_ok _ Hok) as [Hall _].
    assert (Hb : (fold_right (fun kv n => S (json_size (snd kv) + n)) O (kv :: kvs)
                  <= S (List.length (join (44%Z :: Flows.newline_indent (S lvl)) parts)))%nat).
    { apply (fold_join_bound (fun kv => json_size (snd kv))); [discriminate|].
      apply (Forall2_strengthen (fun kv0 => In kv0 (kv :: kvs)) _ _ _ parts (map_res_Forall2 _ _ _ Em)).
      - apply Forall_forall. auto.
      - intros [k x] p Hin Hx. cbn [fst snd] in *.
        destruct (proj1 (Forall_forall _ _) Hall _ Hin) as (s & Hk & Hs & Hox).
        cbn [fst snd] in Hk, Hox. subst k. cbn [encode_key res_bind] in Hx.
        destruct (Flows.json_dump_indent (S lvl) x) as [vt|e] eqn:Ed; cbn [res_bind] in Hx; [|discriminate].
        injection Hx as <-. cbn [List.length]. rewrite !length_app. cbn [List.length].
        assert (json_size x <= List.length vt)%nat.
        { apply (IH (S lvl) x vt); auto. pose proof (dict_size_in _ (PStr s, x) Hin). cbn [snd] in *. lia. }
        lia. }
    rewrite !length_app. cbn [List.length]. lia.
Qed.

Lemma hex_digit_ascii : forall n, forallb (fun c => (0 <=? c) && (c <? 128)) [hex_digit (n mod 16)] = true.
Proof.
  intros n. pose proof (Z.mod_pos_bound n 16 ltac:(lia)). cbn [forallb]. unfold hex_digit.
  destruct (Z.ltb_spec (n mod 16) 10); rewrite andb_true_r; apply andb_true_iff; split;
    first [apply Z.leb_le | apply Z.ltb_lt]; lia.
Qed.

Lemma hex4_ascii : forall n, forallb (fun c => (0 <=? c) && (c <? 128)) (hex4 n) = true.
Proof.
  intros n. unfold hex4.
  change [hex_digit (n / 4096 mod 16); hex_digit (n / 256 mod 16); hex_digit (n / 16 mod 16);
          hex_digit (n mod 16)]
    with ([hex_digit (n / 4096 mod 16)] ++ [hex_digit (n / 256 mod 16)] ++ [hex_digit (n / 16 mod 16)]
          ++ [hex_digit (n mod 16)]).
  rewrite !forallb_app, !hex_digit_ascii. reflexivity.
Qed.

Lemma escape_ascii : forall c, forallb (fun c => (0 <=? c) && (c <? 128)) (ascii_escape_char c) = true.
Proof.
  intros c. unfold ascii_escape_char.
  destruct (c =? 92); [reflexivity|]. destruct (c =? 34); [reflexivity|].
  destruct ((32 <=? c) && (c <=? 126)) eqn:E.
  { apply andb_prop in E as [E1 E2]. apply Z.leb_le in E1, E2. cbn [forallb].
    rewrite andb_true_r. apply andb_true_iff. split; [apply Z.leb_le|apply Z.ltb_lt]; lia. }
  destruct (c =? 8); [reflexivity|]. destruct (c =? 12); [reflexivity|].
  destruct (c =? 10); [reflexivity|]. destruct (c =? 13); [reflexivity|].
  destruct (c =? 9); [reflexivity|].
  destruct (c <? 65536).
  - cbn [forallb]. rewrite hex4_ascii. reflexivity.
  - rewrite forallb_app. cbn [forallb]. rewrite !hex4_ascii. reflexivity.
Qed.

Lemma encode_ascii : forall s,
  forallb (fun c => (0 <=? c) && (c <? 128)) (encode_basestring_ascii s) = true.
Proof.
  intros s. unfold encode_basestring_ascii. rewrite !forallb_app. cbn [forallb].
  rewrite andb_true_r. induction s as [|c s IH]; [reflexivity|].
  cbn [map concat]. rewrite forallb_app, escape_ascii. exact IH.
Qed.

Lemma forallb_join : forall (P : Z -> bool) (sep : pystr) ts,
  forallb P sep = true -> Forall (fun t => forallb P t = true) ts -> forallb P (join sep ts) = true.
Proof.
  intros P sep ts Hs H. induction H as [|t ts Ht H IH]; [reflexivity|].
  destruct ts as [|t2 ts]; [exact Ht|].
  cbn [join] in *. rewrite !forallb_app, Ht, Hs. exact IH.
Qed.

Lemma map_res_exists : forall {A B} (g : A -> res B) (P : B -> Prop) xs,
  (forall x, In x xs -> exists y, g x = Ok y /\ P y) ->
  exists ys, map_res g xs = Ok ys /\ Forall P ys.
Proof.
  intros A B g P xs. induction xs as [|x xs IH]; intros H; [exists []; split; constructor|].
  destruct (H x (or_introl eq_refl)) as (y & Hy & Py).
  destruct IH as (ys & Hys & Pys); [intros; apply H; right; assumption|].
  exists (y :: ys). cbn [map_res]. rewrite Hy. cbn [res_bind]. rewrite Hys. split; [reflexivity|].
  constructor; assumption.
Qed.

(** The encoder succeeds on these values and writes only ASCII. *)
Lemma dumps_total : forall F v, (json_size v <= F)%nat -> json_ok v = true ->
  exists t, json_dumps v = Ok t /\ forallb (fun c => (0 <=? c) && (c <? 128)) t = true.
Proof.
  induction F as [|F IH]; intros v HF Hok; [pose proof (json_size_pos v); lia|].
  destruct v as [| [] | n | x | s | xs | kvs]; try (exfalso; cbn [json_ok] in Hok; discriminate);
    cbn [json_dumps].
  - eexists. split; reflexivity.
  - eexists. split; reflexivity.
  - eexists. split; reflexivity.
  - eexists. split; [reflexivity|]. apply encode_ascii.
  - destruct (map_res_exists json_dumps (fun t => forallb (fun c => (0 <=? c) && (c <? 128)) t = true) xs)
      as (ps & Hps & Pps).
    { intros x Hx. apply IH.
      - pose proof (list_size_in xs x Hx). lia.
      - exact (proj1 (Forall_forall _ _) (list_ok _ Hok) x Hx). }
    rewrite Hps. cbn [res_bind]. eexists. split; [reflexivity|].
    rewrite !forallb_app. rewrite forallb_join; [reflexivity..|exact Pps].
  - destruct (dict_ok _ Hok) as [Hall _].
    match goal with |- context [map_res ?g kvs] =>
      destruct (map_res_exists g (fun t => forallb (fun c => (0 <=? c) && (c <? 128)) t = true) kvs)
        as (ps & Hps & Pps) end.
    { intros [k x] Hx. destruct (proj1 (Forall_forall _ _) Hall _ Hx) as (s & Hk & Hs & Hox).
      cbn [fst snd] in *. subst k. cbn [encode_key res_bind].
      destruct (IH x) as (vt & Hvt & Pvt).
      - pose proof (dict_size_in kvs (PStr s, x) Hx). cbn [snd] in *. lia.
      - exact Hox.
      - rewrite Hvt. cbn [res_bind]. eexists. split; [reflexivity|].
        rewrite !forallb_app, encode_ascii, Pvt. reflexivity. }
    rewrite Hps. cbn [res_bind]. eexists. split; [reflexivity|].
    rewrite !forallb_app. rewrite forallb_join; [reflexivity..|exact Pps].
Qed.

Lemma loads_of_scan : forall rl t v, (exists c t', t = c :: t' /\ In c json_heads) ->
  scan_once rl t (2 * List.length t + 1) O O (t ++ []) = SOk (v, List.length t, []) ->
  json_loads rl (PStr t) = Ok v.
Proof.
  intros rl t v (c & t' & Et & Hc) Hs. rewrite app_nil_r in Hs.
  unfold json_loads.
  assert (Hb : startswith t [65279] = false)
    by (subst t; repeat destruct Hc as [<-|Hc]; try reflexivity; destruct Hc).
  rewrite Hb. unfold decode.
  assert (Hw : skip_ws O t = (O, t)) by (subst t; apply skip_ws_stop, heads_not_ws; exact Hc).
  rewrite Hw, Hs. reflexivity.
Qed.

(** [json.loads] reads back what [json.dumps] writes, for the values built
    from [None], [bool], [str], [list] and [dict] with distinct [str]
    keys, nested within the recursion budget. *)
Theorem json_loads_dumps : forall rl v t,
  json_ok v = true -> (json_depth v <= rl)%nat -> json_dumps v = Ok t ->
  json_loads rl (PStr t) = Ok v.
Proof.
  intros rl v t Hok Hd Ht. apply loads_of_scan; [exact (dumps_head v t Hok Ht)|].
  pose proof (size_dumps _ v t (le_n _) Hok Ht) as Hs.
  apply (scan_dumps rl t (2 * List.length t + 1) v t); auto; lia.
Qed.

(** The same for the [indent=4] output of [json.dump]. *)
Theorem json_loads_dump_indent : forall rl v t,
  json_ok v = true -> (json_depth v <= rl)%nat -> Flows.json_dump_indent O v = Ok t ->
  json_loads rl (PStr t) = Ok v.
Proof.
  intros rl v t Hok Hd Ht. apply loads_of_scan; [exact (indent_head O v t Hok Ht)|].
  pose proof (size_indent _ O v t (le_n _) Hok Ht) as Hs.
  apply (scan_indent rl t (2 * List.length t + 1) O v t); auto; lia.
Qed.

Lemma json_loads_dumps_witness :
  let v := PDict [(PStr (py "vis"), PList [PStr (py "a.ms"); PStr [34; 92; 233; 128512]]);
                  (PStr (py "listfile"), PStr (py "a.listobs.txt")); (PStr (py "x"), PBool false)] in
  exists t, json_dumps v = Ok t /\ json_loads 1000 (PStr t) = Ok v.
Proof.
  intros v. match eval vm_compute in (json_dumps v) with Ok ?t => exists t end.
  assert (E : json_dumps v = Ok _) by (vm_compute; reflexivity).
  split; [exact E|]. apply json_loads_dumps; [vm_compute; reflexivity | vm_compute; lia | exact E].
Defined.
(** A run of [json_loads_dump_indent] on a manifest of the listobs step. *)
Lemma json_loads_dump_indent_witness :
  let v := PDict [(PStr (py "vis"), PList [PStr (py "a.ms"); PList []; PDict []]);
                  (PStr (py "listfile"), PStr [34; 92; 233; 128512]); (PStr (py "n"), PNone)] in
  exists t, Flows.json_dump_indent O v = Ok t /\ json_loads 1000 (PStr t) = Ok v.
Proof.
  intros v. match eval vm_compute in (Flows.json_dump_indent O v) with Ok ?t => exists t end.
  assert (E : Flows.json_dump_indent O v = Ok _) by (vm_compute; reflexivity).
  split; [exact E|]. apply json_loads_dump_indent; [vm_compute; reflexivity | vm_compute; lia | exact E].
Defined.
End JsonFacts.

(* ================================================================== *)
(** ** Round trips of the pipeline_state store *)
(* ================================================================== *)

Module StoreRoundTrip.
Import PyStr PyVal Store DbPy Json JsonShape.

Lemma list_set_nth_same {A} (l : list A) j x d :
  (j < List.length l)%nat -> nth j (list_set l j x) d = x.
Proof.
  revert j; induction l as [|y l IH]; intros [|j] Hj; cbn [List.length] in Hj; try lia;
    cbn [list_set nth]; [reflexivity|]. apply IH. lia.
Qed.

Lemma list_set_nth_other {A} (l : list A) i j x d : i <> j -> nth i (list_set l j x) d = nth i l d.
Proof.
  revert i j; induction l as [|y l IH]; intros [|i] [|j] Hij; cbn [list_set nth]; auto; try congruence.
  all: apply IH; congruence.
Qed.

Lemma find_map_inv {A} (p : A -> bool) (f : A -> A) l :
  (forall a, p (f a) = p a) -> find p (map f l) = option_map f (find p l).
Proof.
  intros H. induction l as [|a l IH]; [reflexivity|]. cbn [map find]. rewrite H.
  destruct (p a); [reflexivity|exact IH].
Qed.

Lemma find_col_lt : forall k i cs j, find_col k i cs = Some j -> (j < i + List.length cs)%nat.
Proof.
  intros k i cs. revert i. induction cs as [|c cs IH]; intros i j H; cbn [find_col] in H; [discriminate|].
  destruct (eq_ignore_case c k); [injection H as <-; cbn [List.length]; lia|].
  apply IH in H. cbn [List.length]. lia.
Qed.

Lemma update_then_get : forall rt mous_id col v x sx w cs rws j ki,
  t_pipeline_state (w_db w) = mk_table cs rws ->
  plain_column_name col = true ->
  find_col col O cs = Some j -> find_col (py "mous_id") O cs = Some ki -> j <> ki ->
  col <> py "conn" ->
  (forall row, In row rws -> List.length row = List.length cs) ->
  (exists row, In row rws /\ key_match (nth ki row SNull) mous_id = true) ->
  utf8_check mous_id = Ok tt ->
  serialize (col, v) = Ok (col, x) -> bind_param 1 x = Ok sx ->
  fst (update_pipeline_state_record rt mous_id [(col, v)] w) = Ok tt /\
  get_pipeline_state_record_column_value rt mous_id col
    (w_db (snd (update_pipeline_state_record rt mous_id [(col, v)] w)))
  = parse_json_safe (rec_limit rt) (sql_to_py sx).
Proof.
  intros rt mous_id col v x sx w cs rws j ki Ht Hp Hj Hki Hne Hc Hlen Hex Hu Hs Hb.
  assert (Hclash : kwarg_clash TPipelineState [(col, v)] = None).
  { unfold kwarg_clash. cbn [find fst].
    destruct (str_eqb col (py "conn")) eqn:E1.
    { apply SpwFacts.str_eqb_true in E1. contradiction. }
    destruct (str_eqb col (py "mous_id")) eqn:E2.
    { apply SpwFacts.str_eqb_true in E2. subst col. congruence. }
    reflexivity. }
  unfold update_pipeline_state_record, update_record. rewrite Hclash.
  cbn [map_res]. rewrite Hs. cbn [res_bind map fst snd forallb]. rewrite Hp. cbn [andb].
  unfold exec_update. cbn [get_table]. rewrite Ht. cbn [cols rows map_res].
  unfold resolve_col. rewrite Hj, Hki. cbn [res_bind].
  unfold bind_params. cbn [app bind_params_from]. rewrite Hb. cbn [res_bind bind_param].
  rewrite Hu. cbn [res_bind]. cbn [fst snd w_db]. split; [reflexivity|].
  cbn [List.length firstn combine].
  set (f := fun row : list sqlval =>
              if key_match (nth ki row SNull) mous_id then assign_row [(j, sx)] row else row).
  set (p := fun row : list sqlval => key_match (nth ki row SNull) mous_id).
  assert (Hfp : forall row, p (f row) = p row).
  { intros row. unfold p, f. destruct (key_match (nth ki row SNull) mous_id) eqn:E; [|exact E].
    unfold assign_row. cbn [fold_left fst snd]. rewrite list_set_nth_other by congruence. exact E. }
  destruct (find p rws) as [row0|] eqn:Ef.
  2:{ exfalso. destruct Hex as (row & Hin & Hm). pose proof (find_none p rws Ef row Hin) as Hn.
      unfold p in Hn. congruence. }
  destruct (find_some p rws Ef) as [Hin0 Hp0].
  unfold get_pipeline_state_record_column_value, get_pipeline_state_record, select_one.
  cbn [get_table set_table t_pipeline_state cols rows]. unfold resolve_col. rewrite Hki.
  cbn [res_bind]. rewrite Hu. cbn [res_bind].
  change (find (fun row => key_match (nth ki row SNull) mous_id) (map f rws)) with (find p (map f rws)).
  rewrite (find_map_inv p f rws Hfp), Ef. cbn [option_map].
  assert (Hcs : row_truthy (cs, f row0) = true).
  { unfold row_truthy. destruct cs; [discriminate|reflexivity]. }
  cbn [res_bind]. rewrite Hcs. cbn [res_bind]. unfold row_get. cbn [fst snd]. rewrite Hj.
  unfold f. unfold p in Hp0. rewrite Hp0. unfold assign_row. cbn [fold_left fst snd].
  rewrite list_set_nth_same.
  - reflexivity.
  - rewrite (Hlen row0 Hin0). apply find_col_lt in Hj. lia.
Qed.

Lemma surrogate_run_ascii : forall t i, forallb (fun c => (0 <=? c) && (c <? 128)) t = true ->
  surrogate_run i t = None.
Proof.
  induction t as [|c t IH]; intros i H; [reflexivity|].
  cbn [forallb] in H. apply andb_prop in H as [Hc H]. apply andb_prop in Hc as [_ Hc].
  apply Z.ltb_lt in Hc. cbn [surrogate_run].
  replace (is_surrogate c) with false
    by (unfold is_surrogate; symmetry; apply andb_false_iff; left; apply Z.leb_gt; lia).
  apply IH. exact H.
Qed.

Lemma parse_label : forall rl c r, (97 <= c <= 122) -> c <> 102 -> c <> 110 -> c <> 116 ->
  parse_json_safe rl (PStr (c :: r)) = Ok (PStr (c :: r)).
Proof.
  intros rl c r Hc H1 H2 H3.
  assert (c = 97 \/ c = 98 \/ c = 99 \/ c = 100 \/ c = 101 \/ c = 103 \/ c = 104 \/ c = 105 \/
          c = 106 \/ c = 107 \/ c = 108 \/ c = 109 \/ c = 111 \/ c = 112 \/ c = 113 \/
          c = 114 \/ c = 115 \/ c = 117 \/ c = 118 \/ c = 119 \/ c = 120 \/ c = 121 \/ c = 122)
    as Hcases by lia.
  repeat destruct Hcases as [->|Hcases]; try reflexivity. subst c. reflexivity.
Qed.

(** Writing a [list] or [dict] column with [update_pipeline_state_record]
    and reading it back with [get_pipeline_state_record_column_value]
    gives the value written. *)
Theorem update_get_json : forall rt mous_id col v w cs rws j ki,
  t_pipeline_state (w_db w) = mk_table cs rws ->
  plain_column_name col = true ->
  find_col col O cs = Some j -> find_col (py "mous_id") O cs = Some ki -> j <> ki ->
  col <> py "conn" ->
  (forall row, In row rws -> List.length row = List.length cs) ->
  (exists row, In row rws /\ key_match (nth ki row SNull) mous_id = true) ->
  utf8_check mous_id = Ok tt ->
  match v with PList _ | PDict _ => true | _ => false end = true ->
  json_ok v = true -> (json_depth v <= rec_limit rt)%nat ->
  fst (update_pipeline_state_record rt mous_id [(col, v)] w) = Ok tt /\
  get_pipeline_state_record_column_value rt mous_id col
    (w_db (snd (update_pipeline_state_record rt mous_id [(col, v)] w))) = Ok v.
Proof.
  intros rt mous_id col v w cs rws j ki Ht Hp Hj Hki Hne Hc Hlen Hex Hu Hv Hok Hd.
  destruct (JsonFacts.dumps_total _ v (le_n _) Hok) as (t & Et & Ha).
  assert (Hs : serialize (col, v) = Ok (col, PStr t)).
  { unfold serialize. cbn [snd fst]. destruct v; try discriminate; rewrite Et; reflexivity. }
  assert (Hb : bind_param 1 (PStr t) = Ok (SText t)).
  { cbn [bind_param]. unfold utf8_check. rewrite surrogate_run_ascii by exact Ha. reflexivity. }
  destruct (update_then_get rt mous_id col v (PStr t) (SText t) w cs rws j ki
              Ht Hp Hj Hki Hne Hc Hlen Hex Hu Hs Hb) as [H1 H2].
  split; [exact H1|]. rewrite H2. cbn [sql_to_py parse_json_safe].
  replace (json_loads (rec_limit rt) (PStr t)) with (Ok v : res pyval); [reflexivity|].
  symmetry. apply JsonFacts.loads_of_scan; [exact (JsonFacts.dumps_head v t Hok Et)|].
  pose proof (JsonFacts.size_dumps _ v t (le_n _) Hok Et) as Hsz.
  apply (JsonFacts.scan_dumps (rec_limit rt) t (2 * List.length t + 1) v t); auto; lia.
Qed.

(** A [str] label that starts with a lowercase ASCII letter other than
    [f], [n] and [t] (every status label of the pipeline) is read back by
    [get_pipeline_state_record_column_value] as the same [str]. *)
Theorem update_get_label : forall rt mous_id col s w cs rws j ki,
  t_pipeline_state (w_db w) = mk_table cs rws ->
  plain_column_name col = true ->
  find_col col O cs = Some j -> find_col (py "mous_id") O cs = Some ki -> j <> ki ->
  col <> py "conn" ->
  (forall row, In row rws -> List.length row = List.length cs) ->
  (exists row, In row rws /\ key_match (nth ki row SNull) mous_id = true) ->
  utf8_check mous_id = Ok tt -> utf8_check s = Ok tt ->
  (exists c r, s = c :: r /\ 97 <= c <= 122 /\ c <> 102 /\ c <> 110 /\ c <> 116) ->
  fst (update_pipeline_state_record rt mous_id [(col, PStr s)] w) = Ok tt /\
  get_pipeline_state_record_column_value rt mous_id col
    (w_db (snd (update_pipeline_state_record rt mous_id [(col, PStr s)] w))) = Ok (PStr s).
Proof.
  intros rt mous_id col s w cs rws j ki Ht Hp Hj Hki Hne Hc Hlen Hex Hu Hus (c & r & -> & Hl & H1 & H2 & H3).
  assert (Hb : bind_param 1 (PStr (c :: r)) = Ok (SText (c :: r))).
  { cbn [bind_param]. rewrite Hus. reflexivity. }
  destruct (update_then_get rt mous_id col (PStr (c :: r)) (PStr (c :: r)) (SText (c :: r)) w cs rws j ki
              Ht Hp Hj Hki Hne Hc Hlen Hex Hu eq_refl Hb) as [E1 E2].
  split; [exact E1|]. rewrite E2. apply parse_label; assumption.
Qed.
(** A run of [update_get_json]: a [list] written to [calibrated_products]
    is read back. *)
Lemma update_get_json_witness :
  let rt := mk_runtime 1000 (fun _ _ d => Ok d) (fun _ => true) in
  let cs := [py "mous_id"; py "calibrated_products"] in
  let rws := [[SText (py "A"); SNull]; [SText (py "B"); SText (py "x")]] in
  let w := mk_world (mk_db (mk_table cs rws) (mk_table [] []) (mk_table [] [])) [] in
  let v := PList [PStr (py "a.ms"); PDict [(PStr (py "k"), PBool true)]] in
  fst (update_pipeline_state_record rt (py "A") [(py "calibrated_products", v)] w) = Ok tt /\
  get_pipeline_state_record_column_value rt (py "A") (py "calibrated_products")
    (w_db (snd (update_pipeline_state_record rt (py "A") [(py "calibrated_products", v)] w))) = Ok v.
Proof.
  intros rt cs rws w v.
  apply (update_get_json rt (py "A") (py "calibrated_products") v w cs rws 1 0);
    try reflexivity; try discriminate.
  - intros row [<-|[<-|[]]]; reflexivity.
  - exists [SText (py "A"); SNull]. split; [left; reflexivity | reflexivity].
  - vm_compute. lia.
Defined.

(** A run of [update_get_label]: the label [in_progress] written to
    [download_status] is read back. *)
Lemma update_get_label_witness :
  let rt := mk_runtime 1000 (fun _ _ d => Ok d) (fun _ => true) in
  let cs := [py "mous_id"; py "download_status"] in
  let rws := [[SText (py "A"); SText (py "pending")]] in
  let w := mk_world (mk_db (mk_table cs rws) (mk_table [] []) (mk_table [] [])) [] in
  fst (update_pipeline_state_record rt (py "A") [(py "download_status", PStr (py "in_progress"))] w) = Ok tt /\
  get_pipeline_state_record_column_value rt (py "A") (py "download_status")
    (w_db (snd (update_pipeline_state_record rt (py "A")
                 [(py "download_status", PStr (py "in_progress"))] w))) = Ok (PStr (py "in_progress")).
Proof.
  intros rt cs rws w.
  apply (update_get_label rt (py "A") (py "download_status") (py "in_progress") w cs rws 1 0);
    try reflexivity; try discriminate.
  - intros row [<-|[]]; reflexivity.
  - exists [SText (py "A"); SText (py "pending")]. split; [left; reflexivity | reflexivity].
  - exists 105, (py "n_progress"). split; [reflexivity|]. repeat split; lia.
Defined.
End StoreRoundTrip.
